(** * messengers-autoreply: ingestion, deduplication and auto-reply pipeline

    A shallow embedding of the TypeScript sources

      - src/models/index.ts        (canonical Message / Chat model)
      - src/storage/pocketbase.ts  (store gateway)
      - src/responder/openai.ts    (assistant orchestration)
      - src/receiver/brevo.ts      (aggregator webhook adapter)
      - src/receiver/telegram.ts   (bot adapter)
      - src/api/api.ts             (ingress router, dedup cache)

    Asynchronous functions become computations in a state-and-exception
    monad over an explicit world: the PocketBase collections, the module
    variables, the console, the clock, and the state of the external
    services (HTTP, OpenAI, Telegram, Brevo), whose behaviour is left
    arbitrary.  Self-recursive functions and the polling loop take a fuel
    argument; running out of fuel is the outcome [Diverge]. *)

From Stdlib Require Import ZArith Lia.
From stdpp Require Import base option list gmap strings pretty sorting.

Local Open Scope Z_scope.

(** ** JavaScript values used by the sources *)

(** [s.includes(needle)] *)
Fixpoint includes (needle s : string) : bool :=
  if String.prefix needle s then true
  else match s with
       | EmptyString => false
       | String _ rest => includes needle rest
       end.

(** Truthiness of an optional string: [undefined], [null] and the empty
    string are falsy. *)
Definition truthy (o : option string) : bool :=
  match o with
  | Some s => negb (String.eqb s "")
  | None => false
  end.

(** [o || d] on an optional string. *)
Definition or_else (o : option string) (d : string) : string :=
  match o with
  | Some s => if String.eqb s "" then d else s
  | None => d
  end.

(** The double quote and the line feed, for template literals that
    contain them. *)
Definition dq : string := String (Ascii.ascii_of_nat 34) EmptyString.
Definition nl : string := String (Ascii.ascii_of_nat 10) EmptyString.

(** Strings hold the UTF-8 encoding of the JavaScript strings.

    [white_space3 a b c]: the bytes [a b c] encode one of the
    three-byte code points that [String.prototype.trim] strips: U+1680,
    U+2000 to U+200A, U+2028, U+2029, U+202F, U+205F, U+3000 and
    U+FEFF. *)
Definition white_space3 (a b c : nat) : bool :=
  (Nat.eqb a 225 && Nat.eqb b 154 && Nat.eqb c 128)
  || (Nat.eqb a 226 && Nat.eqb b 128
      && ((Nat.leb 128 c && Nat.leb c 138)
          || Nat.eqb c 168 || Nat.eqb c 169 || Nat.eqb c 175))
  || (Nat.eqb a 226 && Nat.eqb b 129 && Nat.eqb c 159)
  || (Nat.eqb a 227 && Nat.eqb b 128 && Nat.eqb c 128)
  || (Nat.eqb a 239 && Nat.eqb b 187 && Nat.eqb c 191).

(** [s.trim() === ""]: the string holds white space and line
    terminators only: U+0009 to U+000D, U+0020, U+00A0 (bytes C2 A0),
    and the code points of [white_space3]. *)
Fixpoint blank (s : string) : bool :=
  match s with
  | EmptyString => true
  | String a rest =>
      let n := Ascii.nat_of_ascii a in
      if Nat.eqb n 32 || (Nat.leb 9 n && Nat.leb n 13) then blank rest
      else
        match rest with
        | EmptyString => false
        | String b rest2 =>
            let m := Ascii.nat_of_ascii b in
            if Nat.eqb n 194 && Nat.eqb m 160 then blank rest2
            else
              match rest2 with
              | EmptyString => false
              | String c rest3 =>
                  if white_space3 n m (Ascii.nat_of_ascii c) then blank rest3
                  else false
              end
        end
  end.

(** ** src/models/index.ts *)

Inductive MessageType := Text | Image | Voice | Audio.
Inductive ResponseMode := Manual | Auto.

#[global] Instance MessageType_eq_dec : EqDecision MessageType.
Proof. solve_decision. Defined.
#[global] Instance ResponseMode_eq_dec : EqDecision ResponseMode.
Proof. solve_decision. Defined.

(** [MessageSource] is a union of string literals, but the adapters cast
    platform strings taken from the payload to it, so at run time it is a
    string. *)
Definition MessageSource := string.

Module Message.
Record t := mk {
  id : option string;
  platformMessageId : option string;
  source : MessageSource;
  chatId : string;
  type : MessageType;
  content : string;
  mediaFileId : option string;
  isIncoming : bool;
  timestamp : Z;
  senderId : string;
  senderName : option string;
  responseMode : ResponseMode
}.

Definition with_id (i : option string) (m : t) : t :=
  mk i (platformMessageId m) (source m) (chatId m) (type m) (content m)
     (mediaFileId m) (isIncoming m) (timestamp m) (senderId m)
     (senderName m) (responseMode m).

(** [{ ...message, content: c, type: "text" }] *)
Definition as_text (c : string) (m : t) : t :=
  mk (id m) (platformMessageId m) (source m) (chatId m) Text c
     (mediaFileId m) (isIncoming m) (timestamp m) (senderId m)
     (senderName m) (responseMode m).
End Message.

Module Chat.
Record t := mk {
  id : option string;
  platformChatId : option string;
  source : MessageSource;
  name : string;
  updated : Z;
  autoMode : bool;
  openAIThreadId : option string
}.

Definition with_id (i : option string) (c : t) : t :=
  mk i (platformChatId c) (source c) (name c) (updated c) (autoMode c)
     (openAIThreadId c).

(** [chat.openAIThreadId = threadId] *)
Definition with_thread (th : option string) (c : t) : t :=
  mk (id c) (platformChatId c) (source c) (name c) (updated c)
     (autoMode c) th.
End Chat.

(** ** Exceptions and outcomes *)

(** What a [throw] can carry: PocketBase's [ClientResponseError] with its
    [status] and [response.message], a plain [Error], and the [TypeError]
    of a property read on [null] / [undefined]. *)
Inductive Exn :=
| ClientResponseError (status : Z) (message : string)
| Error (message : string)
| TypeError (message : string).

(** [err.status] *)
Definition status (e : Exn) : option Z :=
  match e with
  | ClientResponseError s _ => Some s
  | _ => None
  end.

Definition has_status (e : Exn) (s : Z) : bool :=
  match status e with
  | Some s' => Z.eqb s' s
  | None => false
  end.

(** [error?.response?.message?.includes(needle)] *)
Definition response_message_includes (e : Exn) (needle : string) : bool :=
  match e with
  | ClientResponseError _ m => includes needle m
  | _ => false
  end.

Inductive Outcome (A : Type) :=
| Ret (a : A)
| Throw (e : Exn)
| Diverge.
Arguments Ret {A} a.
Arguments Throw {A} e.
Arguments Diverge {A}.

(** ** The PocketBase client (storage collaborator)

    The three collections, the counter the store draws record ids from,
    and [script]: the answers of the server to the coming requests, in
    order; [None] serves the request, [Some e] rejects it with [e], and an
    exhausted script serves everything. *)

Record MediaRecord := { media_id : string; media_file : string; media_platform : string }.

Record Store := mkStore {
  chats : list Chat.t;
  messages : list Message.t;
  media : list MediaRecord;
  nextId : nat;
  script : list (option Exn);
  requests : nat;                 (* requests sent so far *)
  authCalls : nat;                (* of which authWithPassword *)
  authRetryInProgress : bool      (* module variable of pocketbase.ts *)
}.

(** ** External services

    HTTP downloads, the OpenAI client, the Telegram bot API, the Brevo
    conversations API and the audio converter are collaborators with an
    arbitrary state [E]; every call may throw.  [lag] is the time in
    milliseconds that the call just made has taken. *)

Record Response := {
  ok : bool;
  http_status : Z;
  content_type : option string;
  body : string
}.

(** The answer of the transcription endpoint: [response.ok] and the
    [text] field of its JSON body. *)
Record Transcription := { transcription_ok : bool; transcription_text : option string }.

Inductive ContentPart :=
| TextPart (value : string)
| OtherPart (kind : string).

Record ThreadMessage := { role : string; parts : list ContentPart }.

(** A call to a service is answered or fails with an exception (the
    client libraries bound the time they wait). *)
Inductive Answer (A : Type) :=
| Answered (a : A)
| Failed (e : Exn).
Arguments Answered {A} a.
Arguments Failed {A} e.

Record Services (E : Type) := {
  lag : E → N * E;
  fetch : string → E → Answer Response * E;
  threads_create : E → Answer string * E;
  threads_messages_create : string → string → E → Answer unit * E;
  threads_runs_create : string → string → E → Answer string * E;
  threads_runs_retrieve : string → string → E → Answer string * E;
  threads_messages_list : string → E → Answer (list ThreadMessage) * E;
  chat_completions_create : string → string → string → E → Answer (option string) * E;
  transcriptions : string → string → string → E → Answer Transcription * E;
  toBase64 : string → string;
  convertAudioInMemory : string → E → Answer string * E;
  getFile : string → E → Answer string * E;
  bot_sendMessage : string → string → E → Answer unit * E;
  conversationsMessagesPost : string → string → E → Answer string * E
}.
Arguments lag {E}.
Arguments fetch {E}.
Arguments threads_create {E}.
Arguments threads_messages_create {E}.
Arguments threads_runs_create {E}.
Arguments threads_runs_retrieve {E}.
Arguments threads_messages_list {E}.
Arguments chat_completions_create {E}.
Arguments transcriptions {E}.
Arguments toBase64 {E}.
Arguments convertAudioInMemory {E}.
Arguments getFile {E}.
Arguments bot_sendMessage {E}.
Arguments conversationsMessagesPost {E}.

(** The process environment ([process.env]). *)
Record Config := {
  OPENAI_ASSISTANT_ID : option string;
  OPENAI_VISION_MODEL : string;
  OPENAI_AUDIO_MODEL : option string;
  OPENAI_API_KEY : string;
  TELEGRAM_TOKEN : string;
  BREVO_AGENT_ID : string
}.

Record World (E : Type) := mkWorld {
  pb : Store;
  env : E;
  clock : Z;                      (* Date.now() *)
  console : list string
}.
Arguments mkWorld {E}.
Arguments pb {E}.
Arguments env {E}.
Arguments clock {E}.
Arguments console {E}.

(** ** Payloads of the platforms *)

(** The webhook body of the conversations aggregator (Brevo). *)
Module BrevoFile.
Record t := { isImage : bool; link : option string }.
End BrevoFile.

Module BrevoMessage.
Record t := {
  id : string;
  type : string;
  text : option string;
  agentId : option string;
  agentName : option string;
  file : option BrevoFile.t;
  createdAt : Z
}.
End BrevoMessage.

Module Visitor.
Record t := {
  id : string;
  threadId : string;
  source : string;
  displayedName : option string
}.
End Visitor.

Module Body.
Record t := mk {
  message : option BrevoMessage.t;
  messages : option (list BrevoMessage.t);
  eventName : string;
  visitor : option Visitor.t
}.
End Body.

(** The grammY context of a Telegram update. *)
Record PhotoSize := { file_id : string; file_unique_id : string }.

Module TgMessage.
Record t := {
  message_id : Z;
  date : Z;
  text : option string;
  caption : option string;
  photo : option (list PhotoSize);
  voice : option PhotoSize
}.
End TgMessage.

Record User := { user_id : Z; first_name : option string }.

Module Context.
Record t := {
  message : option TgMessage.t;
  chat : option Z;                (* ctx.chat?.id *)
  from : option User
}.
End Context.

(** The JSON body of [POST /api/messages] and the reply of the handler. *)
Module SendBody.
Record t := {
  chatId : option string;
  platformChatId : option string;
  source : option string;
  text : option string;
  type : option MessageType;
  visitorId : option string;
  senderName : option string
}.
End SendBody.

Record External := { platform : string; messageId : option (option string) }.

Record Reply := {
  code : Z;
  success : bool;
  reply_message : string;
  external : option External
}.

Record ListResult := { items : list Chat.t; totalItems : nat }.

(** The order of [sort: '-updated']. *)
Definition newer_first (a b : Chat.t) : Prop := Chat.updated b ≤ Chat.updated a.

#[global] Instance newer_first_dec a b : Decision (newer_first a b).
Proof. unfold newer_first. apply _. Defined.

(** ** The ingress router's process state (src/api/api.ts) *)

Record Server (E : Type) := mkServer {
  processedMessages : gmap string Z;   (* new Map<string, number>() *)
  world : World E
}.
Arguments mkServer {E}.
Arguments processedMessages {E}.
Arguments world {E}.

(** What happens to the server: a webhook delivery or a tick of the
    cleaning interval, each at a reading of the clock. *)
Inductive Event :=
| Deliver (t : Z) (body : Body.t)
| Sweep (t : Z).

(** ** A scripted collaborator, for running the pipeline on examples

    Its state counts the calls made.  Downloads get the answer [fetched],
    a run is always in status [run_status], and the thread lists
    [thread_data]. *)
Definition scripted (fetched : Answer Response) (run_status : string)
    (thread_data : list ThreadMessage) : Services nat := {|
  lag := λ n, (0%N, n);
  fetch := λ _ n, (fetched, S n);
  threads_create := λ n, (Answered ("thread_" +:+ pretty n), S n);
  threads_messages_create := λ _ _ n, (Answered (), S n);
  threads_runs_create := λ _ _ n, (Answered "run_1", S n);
  threads_runs_retrieve := λ _ _ n, (Answered run_status, S n);
  threads_messages_list := λ _ n, (Answered thread_data, S n);
  chat_completions_create := λ _ _ _ n, (Answered (Some "a cat"), S n);
  transcriptions := λ _ _ _ n,
    (Answered {| transcription_ok := true; transcription_text := Some "hello" |}, S n);
  toBase64 := λ b, b;
  convertAudioInMemory := λ b n, (Answered b, S n);
  getFile := λ f n, (Answered ("photos/" +:+ f), S n);
  bot_sendMessage := λ _ _ n, (Answered (), S n);
  conversationsMessagesPost := λ _ _ n, (Answered "brevo_out_1", S n)
|}.

Definition example_config : Config := {|
  OPENAI_ASSISTANT_ID := Some "asst_1";
  OPENAI_VISION_MODEL := "gpt-4-vision";
  OPENAI_AUDIO_MODEL := Some "whisper-1";
  OPENAI_API_KEY := "key";
  TELEGRAM_TOKEN := "token";
  BREVO_AGENT_ID := "agent_1"
|}.

Definition empty_store : Store :=
  mkStore [] [] [] 0 [] 0 0 false.

Definition empty_world : World nat := mkWorld empty_store 0%nat 0 [].

(** ** Example inputs *)

Definition served_download : Answer Response :=
  Answered {| ok := true; http_status := 200; content_type := Some "image/jpeg";
              body := "bytes" |}.

Definition refused_download : Answer Response :=
  Answered {| ok := false; http_status := 404; content_type := None; body := "" |}.

Definition assistant_reply : list ThreadMessage :=
  [ {| role := "assistant"; parts := [TextPart "Hi!"] |} ].

(** Everything works, and runs complete at once. *)
Definition healthy : Services nat := scripted served_download "completed" assistant_reply.

(** Runs stay in progress. *)
Definition stalled : Services nat := scripted served_download "in_progress" assistant_reply.

(** Downloads are answered with 404. *)
Definition no_download : Services nat := scripted refused_download "completed" assistant_reply.

(** Downloads fail on the network. *)
Definition unreachable : Services nat :=
  scripted (Failed (TypeError "fetch failed")) "completed" assistant_reply.

(** The spec's scenario: a first visitor message on WhatsApp. *)
Definition Ana : Visitor.t :=
  {| Visitor.id := "v1"; Visitor.threadId := "t1"; Visitor.source := "whatsapp";
     Visitor.displayedName := Some "Ana" |}.

Definition Hola : BrevoMessage.t :=
  {| BrevoMessage.id := "m1"; BrevoMessage.type := "visitor";
     BrevoMessage.text := Some "Hola"; BrevoMessage.agentId := None;
     BrevoMessage.agentName := None; BrevoMessage.file := None;
     BrevoMessage.createdAt := 1700000000000 |}.

Definition conversationStarted : Body.t :=
  Body.mk (Some Hola) None "conversationStarted" (Some Ana).

(** A visitor message with an image attached. *)
Definition picture : BrevoMessage.t :=
  {| BrevoMessage.id := "m2"; BrevoMessage.type := "visitor";
     BrevoMessage.text := Some "look"; BrevoMessage.agentId := None;
     BrevoMessage.agentName := None;
     BrevoMessage.file := Some {| BrevoFile.isImage := true;
                                  BrevoFile.link := Some "https://files.example/p.jpg" |};
     BrevoMessage.createdAt := 1700000001000 |}.

Definition conversationFragment : Body.t :=
  Body.mk None (Some [picture]) "conversationFragment" (Some Ana).

Definition fresh_server : Server nat := mkServer ∅ empty_world.

(** Telegram updates: a text and a photo in chat 42. *)
Definition tg_text : Context.t :=
  {| Context.message :=
       Some {| TgMessage.message_id := 7; TgMessage.date := 1700000000;
               TgMessage.text := Some "hello"; TgMessage.caption := None;
               TgMessage.photo := None; TgMessage.voice := None |};
     Context.chat := Some 42;
     Context.from := Some {| user_id := 5; first_name := Some "Bo" |} |}.

Definition tg_photo : Context.t :=
  {| Context.message :=
       Some {| TgMessage.message_id := 8; TgMessage.date := 1700000000;
               TgMessage.text := None; TgMessage.caption := Some "my cat";
               TgMessage.photo := Some [ {| file_id := "f1"; file_unique_id := "u1" |} ];
               TgMessage.voice := None |};
     Context.chat := Some 42;
     Context.from := Some {| user_id := 5; first_name := Some "Bo" |} |}.

(** A session-expiry rejection and a server error. *)
Definition expiry : Exn :=
  ClientResponseError 403 "Only superusers can perform this action.".

Definition server_error : Exn :=
  ClientResponseError 500 "Something went wrong while processing your request.".

Definition world_with_script (answers : list (option Exn)) : World nat :=
  mkWorld (mkStore [] [] [] 0 answers 0 0 false) 0%nat 0 [].

(** A store with one chat in auto mode that has thread "thread_A", and
    one stored image. *)
Definition chat_A : Chat.t :=
  Chat.mk (Some "chat_A") (Some "42") "telegram" "Bo" 0 true (Some "thread_A").

Definition world_A : World nat :=
  mkWorld
    (mkStore [chat_A] []
             [ {| media_id := "img_1"; media_file := "cat.jpg"; media_platform := "telegram" |} ]
             0 [] 0 0 false)
    0%nat 0 [].

Definition text_in_A : Message.t :=
  Message.mk None (Some "7") "telegram" "chat_A" Text "hello" None true
             1700000000000 "5" (Some "Bo") Manual.

Definition image_in_A : Message.t :=
  Message.mk None (Some "8") "telegram" "chat_A" Image "my cat" (Some "img_1") true
             1700000000000 "5" (Some "Bo") Manual.

(** The same store before the first automated reply. *)
Definition world_B : World nat :=
  mkWorld
    (mkStore [Chat.with_thread (Some "") chat_A] [] [] 0 [] 0 0 false)
    0%nat 0 [].

(** The webhook by which the aggregator reports a message that the
    service itself has sent as agent "agent_1". *)
Definition echo : Body.t :=
  Body.mk
    (Some {| BrevoMessage.id := "m3"; BrevoMessage.type := "agent";
             BrevoMessage.text := Some "hi"; BrevoMessage.agentId := Some "agent_1";
             BrevoMessage.agentName := Some "Support"; BrevoMessage.file := None;
             BrevoMessage.createdAt := 1700000002000 |})
    None "conversationFragment" (Some Ana).

(** A request to the send API. *)
Definition send_hi : SendBody.t :=
  {| SendBody.chatId := None; SendBody.platformChatId := Some "42";
     SendBody.source := Some "telegram"; SendBody.text := Some "hi";
     SendBody.type := None; SendBody.visitorId := None;
     SendBody.senderName := None |}.


(** A 403 that is not a session expiry. *)
Definition forbidden : Exn :=
  ClientResponseError 403 "You are not allowed to perform this request.".

(** A chat of another platform that uses the platform id "t1". *)
Definition chat_T : Chat.t :=
  Chat.mk (Some "chat_T") (Some "t1") "telegram" "Tom" 0 false (Some "").

Definition world_T : World nat :=
  mkWorld (mkStore [chat_T] [] [] 1 [] 0 0 false) 0%nat 0 [].

(** An image message whose file was not stored. *)
Definition image_without_file : Message.t :=
  Message.mk None (Some "9") "telegram" "chat_A" Image "my cat" None true
             1700000000000 "5" (Some "Bo") Manual.

(** The environment without the identifier of the assistant. *)
Definition no_assistant : Config := {|
  OPENAI_ASSISTANT_ID := None;
  OPENAI_VISION_MODEL := "gpt-4-vision";
  OPENAI_AUDIO_MODEL := Some "whisper-1";
  OPENAI_API_KEY := "key";
  TELEGRAM_TOKEN := "token";
  BREVO_AGENT_ID := "agent_1"
|}.

(** The no-break space, U+00A0. *)
Definition nbsp : string :=
  String (Ascii.ascii_of_nat 194) (String (Ascii.ascii_of_nat 160) EmptyString).

(** Nothing is recognised in any recording: the transcription holds a
    space, a no-break space and a line feed. *)
Definition mute : Services nat := {|
  lag := lag healthy;
  fetch := fetch healthy;
  threads_create := threads_create healthy;
  threads_messages_create := threads_messages_create healthy;
  threads_runs_create := threads_runs_create healthy;
  threads_runs_retrieve := threads_runs_retrieve healthy;
  threads_messages_list := threads_messages_list healthy;
  chat_completions_create := chat_completions_create healthy;
  transcriptions := λ _ _ _ n,
    (Answered {| transcription_ok := true; transcription_text := Some (" " +:+ nbsp +:+ nl) |}, S n);
  toBase64 := toBase64 healthy;
  convertAudioInMemory := convertAudioInMemory healthy;
  getFile := getFile healthy;
  bot_sendMessage := bot_sendMessage healthy;
  conversationsMessagesPost := conversationsMessagesPost healthy
|}.

(** Neither the bot nor the aggregator can send. *)
Definition cannot_send : Services nat := {|
  lag := lag healthy;
  fetch := fetch healthy;
  threads_create := threads_create healthy;
  threads_messages_create := threads_messages_create healthy;
  threads_runs_create := threads_runs_create healthy;
  threads_runs_retrieve := threads_runs_retrieve healthy;
  threads_messages_list := threads_messages_list healthy;
  chat_completions_create := chat_completions_create healthy;
  transcriptions := transcriptions healthy;
  toBase64 := toBase64 healthy;
  convertAudioInMemory := convertAudioInMemory healthy;
  getFile := getFile healthy;
  bot_sendMessage := λ _ _ n, (Failed (Error "chat not found"), S n);
  conversationsMessagesPost := λ _ _ n, (Failed (Error "timeout"), S n)
|}.

(** A store with one recording, and the voice message that refers to it. *)
Definition world_V : World nat :=
  mkWorld
    (mkStore [chat_A] []
             [ {| media_id := "rec_1"; media_file := "v.ogg"; media_platform := "telegram" |} ]
             0 [] 0 0 false)
    0%nat 0 [].

Definition voice_in_A : Message.t :=
  Message.mk None (Some "10") "telegram" "chat_A" Voice "Voice message"
             (Some "rec_1") true 1700000000000 "5" (Some "Bo") Manual.

(** The store of [world_A] when it will reject the next request. *)
Definition world_R : World nat :=
  mkWorld (mkStore [chat_A] [] [] 0 [Some server_error] 0 0 false) 0%nat 0 [].

(** The echo of a message sent under a 'Dummy' agent. *)
Definition dummy_message : BrevoMessage.t :=
  {| BrevoMessage.id := "m4"; BrevoMessage.type := "agent";
     BrevoMessage.text := Some "hi"; BrevoMessage.agentId := Some "Dummy_17";
     BrevoMessage.agentName := None; BrevoMessage.file := None;
     BrevoMessage.createdAt := 1700000003000 |}.

(** A payload without message. *)
Definition empty_payload : Body.t := Body.mk None (Some []) "conversationFragment" (Some Ana).

(** Requests to the send API: an unsupported source, and a Brevo
    source without visitor. *)
Definition send_sms : SendBody.t :=
  {| SendBody.chatId := None; SendBody.platformChatId := Some "42";
     SendBody.source := Some "sms"; SendBody.text := Some "hi";
     SendBody.type := None; SendBody.visitorId := None;
     SendBody.senderName := None |}.

Definition send_whatsapp : SendBody.t :=
  {| SendBody.chatId := None; SendBody.platformChatId := Some "t1";
     SendBody.source := Some "whatsapp"; SendBody.text := Some "hi";
     SendBody.type := None; SendBody.visitorId := None;
     SendBody.senderName := None |}.

(** A photo update without sizes. *)
Definition tg_no_sizes : Context.t :=
  {| Context.message :=
       Some {| TgMessage.message_id := 9; TgMessage.date := 1700000000;
               TgMessage.text := None; TgMessage.caption := None;
               TgMessage.photo := Some []; TgMessage.voice := None |};
     Context.chat := Some 42;
     Context.from := Some {| user_id := 5; first_name := Some "Bo" |} |}.

(** A payload without visitor. *)
Definition started_without_visitor : Body.t :=
  Body.mk (Some Hola) None "conversationStarted" None.




(** ** src/api/api.ts: admission of requests *)









Section Pipeline.
Context {E : Type} (svc : Services E) (cfg : Config).

(** ** The monad of asynchronous code *)

Definition M (A : Type) : Type := World E → Outcome A * World E.

Definition ret {A} (a : A) : M A := λ w, (Ret a, w).
Definition throw {A} (e : Exn) : M A := λ w, (Throw e, w).
Definition diverge {A} : M A := λ w, (Diverge, w).

Definition bind {A B} (m : M A) (k : A → M B) : M B :=
  λ w, match m w with
       | (Ret a, w') => k a w'
       | (Throw e, w') => (Throw e, w')
       | (Diverge, w') => (Diverge, w')
       end.

(** [try { m } catch (e) { h e }] *)
Definition try_catch {A} (m : M A) (h : Exn → M A) : M A :=
  λ w, match m w with
       | (Throw e, w') => h e w'
       | r => r
       end.

Declare Scope M_scope.
Delimit Scope M_scope with M.
Notation "x ← m ; k" := (bind m (λ x, k))
  (at level 20, m at level 100, k at level 200, only parsing) : M_scope.
Notation "m ;; k" := (bind m (λ _, k))
  (at level 100, k at level 200, only parsing, right associativity) : M_scope.
Local Open Scope M_scope.

(** [console.log] / [console.error] *)
Definition log (line : string) : M unit :=
  λ w, (Ret (), mkWorld (pb w) (env w) (clock w) (console w ++ [line])).

(** [Date.now()] *)
Definition Date_now : M Z := λ w, (Ret (clock w), w).

(** A call to an external service: it answers or throws, and takes
    some time. *)
Definition call {A} (op : E → Answer A * E) : M A :=
  λ w, let '(r, e1) := op (env w) in
       let '(d, e2) := lag svc e1 in
       (match r with Answered a => Ret a | Failed e => Throw e end,
        mkWorld (pb w) e2 (clock w + Z.of_N d) (console w)).

(** [await new Promise(resolve => setTimeout(resolve, ms))]: the timer
    fires after [ms] milliseconds or later. *)
Definition sleep (ms : Z) : M unit :=
  λ w, let '(d, e1) := lag svc (env w) in
       (Ret (), mkWorld (pb w) e1 (clock w + ms + Z.of_N d) (console w)).

(** ** PocketBase requests *)

Definition get_pb : M Store := λ w, (Ret (pb w), w).
Definition put_pb (s : Store) : M unit :=
  λ w, (Ret (), mkWorld s (env w) (clock w) (console w)).

(** Send one request: the server serves or rejects it. *)
Definition request : M unit :=
  s ← get_pb;
  let sent rest :=
    mkStore (chats s) (messages s) (media s) (nextId s) rest
            (S (requests s)) (authCalls s) (authRetryInProgress s) in
  match script s with
  | Some e :: rest => put_pb (sent rest);; throw e
  | None :: rest => put_pb (sent rest)
  | [] => put_pb (sent [])
  end.

Definition fresh_id (s : Store) : string := "rec" +:+ pretty (nextId s).

Definition not_found : Exn :=
  ClientResponseError 404 "The requested resource wasn't found.".

(** [pb.collection('_superusers').authWithPassword(email, password)] *)
Definition authWithPassword : M unit :=
  s ← get_pb;
  put_pb (mkStore (chats s) (messages s) (media s) (nextId s) (script s)
                  (requests s) (S (authCalls s)) (authRetryInProgress s));;
  request.

(** [pb.collection('messages').create(msg)] *)
Definition messages_create (msg : Message.t) : M Message.t :=
  request;;
  s ← get_pb;
  let r := Message.with_id (Some (fresh_id s)) msg in
  put_pb (mkStore (chats s) (messages s ++ [r]) (media s) (S (nextId s))
                  (script s) (requests s) (authCalls s)
                  (authRetryInProgress s));;
  ret r.

(** [pb.collection('media').create(formData)] *)
Definition media_create (file platform : string) : M MediaRecord :=
  request;;
  s ← get_pb;
  let r := {| media_id := fresh_id s; media_file := file;
              media_platform := platform |} in
  put_pb (mkStore (chats s) (messages s) (media s ++ [r]) (S (nextId s))
                  (script s) (requests s) (authCalls s)
                  (authRetryInProgress s));;
  ret r.

(** [pb.collection('media').getOne(id)] *)
Definition media_getOne (i : string) : M MediaRecord :=
  request;;
  s ← get_pb;
  match List.find (λ r, String.eqb (media_id r) i) (media s) with
  | Some r => ret r
  | None => throw not_found
  end.

(** [pb.collection('messages').getFirstListItem(
       `platformMessageId="${p}" && senderId="${sid}"`)] *)
Definition messages_getFirstListItem (p sid : string) : M Message.t :=
  request;;
  s ← get_pb;
  match List.find (λ r, bool_decide (Message.platformMessageId r = Some p)
                        && String.eqb (Message.senderId r) sid)
                  (messages s) with
  | Some r => ret r
  | None => throw not_found
  end.

(** [pb.collection('chats').getFirstListItem(`platformChatId="${i}"`)] *)
Definition chats_getFirstListItem (i : string) : M Chat.t :=
  request;;
  s ← get_pb;
  match List.find (λ c, bool_decide (Chat.platformChatId c = Some i))
                  (chats s) with
  | Some c => ret c
  | None => throw not_found
  end.

(** [pb.collection('chats').getOne(i)] *)
Definition chats_getOne (i : string) : M Chat.t :=
  request;;
  s ← get_pb;
  match List.find (λ c, bool_decide (Chat.id c = Some i)) (chats s) with
  | Some c => ret c
  | None => throw not_found
  end.

(** [pb.collection('chats').create(chat)] *)
Definition chats_create (chat : Chat.t) : M Chat.t :=
  request;;
  s ← get_pb;
  let r := Chat.with_id (Some (fresh_id s)) chat in
  put_pb (mkStore (chats s ++ [r]) (messages s) (media s) (S (nextId s))
                  (script s) (requests s) (authCalls s)
                  (authRetryInProgress s));;
  ret r.

Definition replace_chat (i : string) (r : Chat.t) (l : list Chat.t) : list Chat.t :=
  List.map (λ c, if bool_decide (Chat.id c = Some i) then r else c) l.

(** [pb.collection('chats').update(i, chat)] *)
Definition chats_update (i : string) (chat : Chat.t) : M Chat.t :=
  request;;
  s ← get_pb;
  match List.find (λ c, bool_decide (Chat.id c = Some i)) (chats s) with
  | Some _ =>
      let r := Chat.with_id (Some i) chat in
      put_pb (mkStore (replace_chat i r (chats s)) (messages s) (media s)
                      (nextId s) (script s) (requests s) (authCalls s)
                      (authRetryInProgress s));;
      ret r
  | None => throw not_found
  end.

(** [pb.collection('chats').getList(1, limit, { sort: '-updated', filter })] *)
Definition chats_getList (limit : nat) (source : option string) : M ListResult :=
  request;;
  s ← get_pb;
  let hits := List.filter
                (λ c, match source with
                      | Some src => String.eqb (Chat.source c) src
                      | None => true
                      end) (chats s) in
  let sorted := merge_sort newer_first hits in
  ret {| items := take limit sorted; totalItems := length hits |}.

Definition set_authRetryInProgress (b : bool) : M unit :=
  s ← get_pb;
  put_pb (mkStore (chats s) (messages s) (media s) (nextId s) (script s)
                  (requests s) (authCalls s) b).

(** ** src/storage/pocketbase.ts *)

Definition authenticate (silent : bool) : M bool :=
  try_catch
    (authWithPassword;;
     (if silent then log "PocketBase: Re-authentication successful"
      else log "PocketBase: Authentication successful");;
     ret true)
    (λ error,
       (if silent then log "PocketBase: Silent re-authentication failed"
        else log "PocketBase: Authentication failed");;
       throw error).

Definition handleAuthError (error : Exn) : M bool :=
  s ← get_pb;
  if has_status error 403
     && response_message_includes error "perform this action"
     && negb (authRetryInProgress s)
  then
    try_catch
      (set_authRetryInProgress true;;
       log "PocketBase: Auth token expired, attempting re-authentication";;
       authenticate true;;
       set_authRetryInProgress false;;
       ret true)
      (λ authError,
         log "PocketBase: Re-authentication failed";;
         set_authRetryInProgress false;;
         ret false)
  else ret false.

(** [err.status === 403 && await handleAuthError(err)] *)
Definition expired_and_refreshed (err : Exn) : M bool :=
  if has_status err 403 then handleAuthError err else ret false.

Definition saveMessage (msg : Message.t) : M Message.t :=
  try_catch
    (result ← messages_create msg; ret result)
    (λ err,
       (if has_status err 400 then log "Unable to save message" else ret ());;
       throw err).

Definition saveMediaFile (fileData filename contentType platform : string) : M string :=
  try_catch
    (result ← media_create filename platform; ret (media_id result))
    (λ err,
       (if has_status err 400 || has_status err 404
        then log "Unable to save file" else ret ());;
       throw err).

Fixpoint getMessageById (fuel : nat) (platformMessageId senderId : string)
  : M (option string) :=
  try_catch
    (result ← messages_getFirstListItem platformMessageId senderId;
     ret (Message.id result))
    (λ err,
       again ← expired_and_refreshed err;
       if again then
         match fuel with
         | O => diverge
         | S fuel' => getMessageById fuel' platformMessageId senderId
         end
       else if has_status err 400 || has_status err 404 then ret None
       else throw err).

Fixpoint saveChat (fuel : nat) (chat : Chat.t) : M Chat.t :=
  try_catch
    (result ← (if truthy (Chat.id chat)
               then chats_update (default "" (Chat.id chat)) chat
               else chats_create chat);
     ret result)
    (λ err,
       again ← expired_and_refreshed err;
       if again then
         match fuel with
         | O => diverge
         | S fuel' => saveChat fuel' chat
         end
       else
         (if has_status err 400 || has_status err 404
          then log "Unable to save chat" else ret ());;
         throw err).

(** [pb.collection('chats').update(i, { autoMode })]: a patch of one
    field; an unknown id is answered 404. *)
Definition chats_update_autoMode (i : string) (autoMode : bool) : M unit :=
  request;;
  s ← get_pb;
  match List.find (λ c, bool_decide (Chat.id c = Some i)) (chats s) with
  | Some _ =>
      put_pb (mkStore
                (List.map (λ c, if bool_decide (Chat.id c = Some i)
                                then Chat.mk (Chat.id c) (Chat.platformChatId c)
                                       (Chat.source c) (Chat.name c)
                                       (Chat.updated c) autoMode
                                       (Chat.openAIThreadId c)
                                else c) (chats s))
                (messages s) (media s) (nextId s) (script s) (requests s)
                (authCalls s) (authRetryInProgress s))
  | None => throw not_found
  end.

Definition updateResponseMode (chatId : string) (autoMode : bool) : M unit :=
  try_catch
    (chats_update_autoMode chatId autoMode)
    (λ error, log "Failed to update response mode:";; throw error).

Fixpoint findOrCreateChat (fuel : nat) (id : string) (source : MessageSource)
    (name : option string) : M (option Chat.t) :=
  try_catch
    (try_catch
       (result ← chats_getFirstListItem id;
        ret (Some result))
       (λ err,
          again ← expired_and_refreshed err;
          if again then
            match fuel with
            | O => diverge
            | S fuel' => findOrCreateChat fuel' id source name
            end
          else if has_status err 400 || has_status err 404 then
            now ← Date_now;
            let chat :=
              Chat.mk None (Some id) source (or_else name "Unknown") now
                      false (Some "") in
            savedChat ← saveChat fuel chat;
            ret (Some savedChat)
          else throw err))
    (λ error,
       log ("Error in find chat for " +:+ source +:+ " sourceId " +:+ id +:+ ":");;
       ret None).

Fixpoint getChats (fuel : nat) (source : option string) (limit : nat)
  : M ListResult :=
  try_catch
    (chats_getList limit (if truthy source then source else None))
    (λ error,
       again ← expired_and_refreshed error;
       if again then
         match fuel with
         | O => diverge
         | S fuel' => getChats fuel' source limit
         end
       else throw error).

Fixpoint getChatById (fuel : nat) (chatId : string) : M (option Chat.t) :=
  try_catch
    (c ← chats_getOne chatId; ret (Some c))
    (λ error,
       again ← expired_and_refreshed error;
       if again then
         match fuel with
         | O => diverge
         | S fuel' => getChatById fuel' chatId
         end
       else
         log ("Failed to get chat: " +:+ chatId);;
         ret None).

Definition getMediaRecord (mediaId : string) : M (option MediaRecord) :=
  try_catch
    (r ← media_getOne mediaId; ret (Some r))
    (λ error,
       log ("Failed to get media record for " +:+ mediaId);;
       ret None).

(** [pb.files.getUrl(record, filename, { token })] builds the address
    from its arguments. *)
Definition getFileUrl (record : MediaRecord) (filename token : string) : M string :=
  ret ("/api/files/media/" +:+ media_id record +:+ "/" +:+ filename
       +:+ "?token=" +:+ token).

(** [return pb.files.getToken()] hands the pending request to the caller
    without awaiting it, so its rejection is not caught here. *)
Definition getFileToken : M string :=
  request;; ret "token".

(** *** The earlier gateway (src/unnamed/part_000)

    It differs in the retry: every 403 is answered with [authenticate()]
    or [refreshAuthentication()] and a fresh invocation; [saveMessage] and
    [saveMediaFile] are the same.  Its [getMessageById]: *)

Fixpoint getMessageById_part_000 (fuel : nat) (platformMessageId senderId : string)
  : M (option string) :=
  try_catch
    (result ← messages_getFirstListItem platformMessageId senderId;
     ret (Message.id result))
    (λ err,
       if has_status err 403 then
         authenticate false;;
         match fuel with
         | O => diverge
         | S fuel' => getMessageById_part_000 fuel' platformMessageId senderId
         end
       else if has_status err 400 || has_status err 404 then ret None
       else throw err).

(** ** src/responder/openai.ts (src/unnamed/part_001) *)

Definition timeout : Z := 30000.
Definition poll_interval : Z := 1000.

Definition apology : string := "Извините, произошла ошибка при обработке запроса.".

Definition terminal (st : string) : bool :=
  String.eqb st "failed" || String.eqb st "cancelled" || String.eqb st "expired".

(** The [while (runStatus.status !== "completed")] loop of
    [handleTextMessage]; [fuel] bounds the number of iterations. *)
Fixpoint poll (fuel : nat) (threadId runId : string) (startTime : Z)
    (runStatus : string) : M unit :=
  if String.eqb runStatus "completed" then ret ()
  else if terminal runStatus then
    throw (Error ("Run " +:+ runId +:+ " failed with status " +:+ runStatus))
  else
    now ← Date_now;
    if Z.ltb timeout (now - startTime) then
      throw (Error "Response timed out after 30 seconds")
    else
      sleep poll_interval;;
      next ← call (threads_runs_retrieve svc threadId runId);
      match fuel with
      | O => diverge
      | S fuel' => poll fuel' threadId runId startTime next
      end.

Definition handleTextMessage (fuel : nat) (message : Message.t)
    (openAIThreadId : option string) : M string :=
  match OPENAI_ASSISTANT_ID cfg with
  | None => throw (Error "OPENAI_ASSISTANT_ID is not defined in environment")
  | Some assistantId =>
    if String.eqb assistantId "" then
      throw (Error "OPENAI_ASSISTANT_ID is not defined in environment")
    else
      threadId ←
        (if truthy openAIThreadId then ret (default "" openAIThreadId)
         else
           thread ← call (threads_create svc);
           chat ← getChatById fuel (Message.chatId message);
           match chat with
           | None => throw (TypeError "null is not an object (setting 'openAIThreadId')")
           | Some c =>
               saveChat fuel (Chat.with_thread (Some thread) c);;
               log ("Created new thread " +:+ thread +:+ " for chat "
                    +:+ default "undefined" (Chat.id c));;
               ret thread
           end);
      call (threads_messages_create svc threadId (Message.content message));;
      run ← call (threads_runs_create svc threadId assistantId);
      runStatus ← call (threads_runs_retrieve svc threadId run);
      startTime ← Date_now;
      poll fuel threadId run startTime runStatus;;
      data ← call (threads_messages_list svc threadId);
      match data with
      | [] => throw (Error "No assistant response found")
      | first :: _ =>
          if negb (String.eqb (role first) "assistant") then
            throw (Error "No assistant response found")
          else
            match parts first with
            | [] => throw (TypeError "undefined is not an object (evaluating 'content.type')")
            | TextPart value :: _ => ret value
            | OtherPart kind :: _ =>
                throw (Error ("Unexpected content type: " +:+ kind))
            end
      end
  end.

(** The inner [try] block of [handleImageMessage]. *)
Definition describeImage (fuel : nat) (message : Message.t) : M string :=
  fileToken ← getFileToken;
  mediaRecord ← getMediaRecord (default "" (Message.mediaFileId message));
  match mediaRecord with
  | None => throw (TypeError "undefined is not an object (evaluating 'mediaRecord.file')")
  | Some rec =>
    url ← getFileUrl rec (media_file rec) fileToken;
    response ← call (fetch svc url);
    if negb (ok response) then
      log "Download failed";;
      ret "Ошибка доступа к файлу."
    else
      let dataUrl :=
        "data:" +:+ or_else (content_type response) "image/jpeg"
        +:+ ";base64," +:+ toBase64 svc (body response) in
      visionResponse ←
        call (chat_completions_create svc (OPENAI_VISION_MODEL cfg)
                (or_else (Some (Message.content message))
                         "Что на этом изображении?")
                dataUrl);
      let imageDescription :=
        or_else visionResponse "Не удалось проанализировать изображение." in
      let contextualContent :=
        if truthy (Some (Message.content message))
        then Message.content message +:+ nl +:+ nl
             +:+ "[Содержание изображения: " +:+ imageDescription +:+ "]"
        else "[Содержание изображения: " +:+ imageDescription +:+ "]" in
      let textMessage := Message.as_text contextualContent message in
      assistantResponse ← handleTextMessage fuel textMessage None;
      ret ("📷 Описание изображения: " +:+ dq +:+ imageDescription
           +:+ dq +:+ nl +:+ nl +:+ "🤖 Ответ: " +:+ assistantResponse)
  end.

Definition handleImageMessage (fuel : nat) (message : Message.t) : M string :=
  try_catch
    (if negb (truthy (Message.mediaFileId message)) then
       ret "Изображение не найдено."
     else
       try_catch
         (describeImage fuel message)
         (λ error,
            log "Error getting image from PocketBase:";;
            ret "Не удалось получить изображение из хранилища."))
    (λ error, log "Error in handleImageMessage:";; throw error).

(** The inner [try] block of [handleAudioMessage]. *)
Definition transcribeAudio (fuel : nat) (message : Message.t) : M string :=
  fileToken ← getFileToken;
  mediaRecord ← getMediaRecord (default "" (Message.mediaFileId message));
  match mediaRecord with
  | None => throw (TypeError "undefined is not an object (evaluating 'mediaRecord.file')")
  | Some rec =>
    url ← getFileUrl rec (media_file rec) fileToken;
    response ← call (fetch svc url);
    if negb (ok response) then
      log "Download failed";;
      ret "Ошибка доступа к аудиофайлу."
    else
      let originalBuffer := body response in
      let model := default "whisper-1" (OPENAI_AUDIO_MODEL cfg) in
      upload ←
        (if String.eqb (Message.source message) "telegram" then
           mp3Buffer ← call (convertAudioInMemory svc originalBuffer);
           ret (mp3Buffer, "audio.mp3")
         else ret (originalBuffer, "audio.mp4"));
      transcriptionResponse ←
        call (transcriptions svc model (fst upload) (snd upload));
      if negb (transcription_ok transcriptionResponse) then
        log "Transcription error:";;
        ret "Не удалось распознать аудио."
      else
        let transcribedText := transcription_text transcriptionResponse in
        if negb (truthy transcribedText)
           || blank (default "" transcribedText) then
          ret "Не удалось распознать текст в аудиосообщении."
        else
          let textMessage :=
            Message.as_text (default "" transcribedText) message in
          assistantResponse ← handleTextMessage fuel textMessage None;
          ret ("📝 Распознанный текст: " +:+ dq
               +:+ default "" transcribedText +:+ dq +:+ nl +:+ nl
               +:+ "🤖 Ответ: " +:+ assistantResponse)
  end.

Definition handleAudioMessage (fuel : nat) (message : Message.t) : M string :=
  try_catch
    (if negb (truthy (Message.mediaFileId message)) then
       ret "Аудиофайл не найден."
     else
       try_catch
         (transcribeAudio fuel message)
         (λ error,
            log "Error processing audio from PocketBase:";;
            ret "Произошла ошибка при обработке аудиосообщения."))
    (λ error, log "Error in handleAudioMessage:";; throw error).

Definition getAIResponse (fuel : nat) (message : Message.t)
    (threadId : option string) : M string :=
  try_catch
    (match Message.type message with
     | Voice | Audio =>
         log "Processing audio message";;
         handleAudioMessage fuel message
     | Image =>
         log "Processing image message";;
         handleImageMessage fuel message
     | Text => handleTextMessage fuel message threadId
     end)
    (λ error,
       log "OpenAI Assistants API error:";;
       ret apology).

(** ** src/receiver/brevo.ts *)

Definition sendBrevoMessage (visitorId text : string) : M (option string) :=
  try_catch
    (i ← call (conversationsMessagesPost svc visitorId text); ret (Some i))
    (λ error, log "Error sending Brevo message:";; ret None).

(** The download of an attachment in [processBrevoMessage]: the catch
    covers the fetch and the upload to the store. *)
Definition downloadBrevoFile (what : string) (link : option string)
    (filename contentType platform : string) : M (option string) :=
  if truthy link then
    try_catch
      (response ← call (fetch svc (default "" link));
       if ok response then
         i ← saveMediaFile (body response) filename contentType platform;
         ret (Some i)
       else ret None)
      (λ error, log ("Error downloading " +:+ what +:+ ":");; ret None)
  else ret None.

Definition processBrevoMessage (fuel : nat) (visitor : Visitor.t)
    (message : BrevoMessage.t) (platform : string) (isIncoming : bool) : M unit :=
  try_catch
    (chat ← findOrCreateChat fuel (Visitor.threadId visitor) platform
               (Visitor.displayedName visitor);
     match chat with
     | None =>
         log ("Failed to create/get chat for visitor: " +:+ Visitor.id visitor)
     | Some chat =>
       if negb (truthy (Chat.id chat)) then
         log ("Failed to create/get chat for visitor: " +:+ Visitor.id visitor)
       else
         let content := or_else (BrevoMessage.text message) "" in
         media ←
           match BrevoMessage.file message with
           | None => ret (Text, None)
           | Some f =>
               if BrevoFile.isImage f then
                 i ← downloadBrevoFile "image" (BrevoFile.link f)
                       ("brevo_" +:+ platform +:+ "_" +:+ BrevoMessage.id message +:+ ".jpg")
                       "image/jpeg" platform;
                 ret (Image, i)
               else
                 i ← downloadBrevoFile "audio" (BrevoFile.link f)
                       ("brevo_" +:+ platform +:+ "_" +:+ BrevoMessage.id message +:+ ".mp4")
                       "audio/mp4" platform;
                 ret (Audio, i)
           end;
         let msg :=
           Message.mk None (Some (BrevoMessage.id message)) platform
             (default "" (Chat.id chat)) (fst media) content
             (if truthy (snd media) then snd media else None)
             isIncoming (BrevoMessage.createdAt message)
             (if isIncoming then Visitor.id visitor
              else or_else (BrevoMessage.agentId message)
                           (default "" (OPENAI_ASSISTANT_ID cfg)))
             (if isIncoming then Visitor.displayedName visitor
              else Some (or_else (BrevoMessage.agentName message) "OpenAI Assistant"))
             (if isIncoming then Manual else Auto) in
         saveMessage msg;;
         if negb isIncoming then ret ()
         else if Chat.autoMode chat && isIncoming then
           log ("Generating auto-reply for message: " +:+ BrevoMessage.id message);;
           res ← getAIResponse fuel msg (Chat.openAIThreadId chat);
           sendBrevoMessage (Visitor.id visitor) res;;
           ret ()
         else ret ()
     end)
    (λ error, log "Error processing Brevo message:").

(** [body.message || body.messages[0]] *)
Definition first_message (body : Body.t) : M BrevoMessage.t :=
  match Body.message body with
  | Some m => ret m
  | None =>
      match Body.messages body with
      | None => throw (TypeError "undefined is not an object (evaluating 'body.messages[0]')")
      | Some [] => throw (TypeError "undefined is not an object (evaluating 'message.agentId')")
      | Some (m :: _) => ret m
      end
  end.

(** [body.visitor.source]: the read of [source] on a missing visitor
    throws. *)
Definition body_visitor (body : Body.t) : M Visitor.t :=
  match Body.visitor body with
  | Some visitor => ret visitor
  | None => throw (TypeError "undefined is not an object (evaluating 'body.visitor.source')")
  end.

Definition processAgentMessage (fuel : nat) (body : Body.t) : M unit :=
  message ← first_message body;
  if truthy (BrevoMessage.agentId message)
     && includes "Dummy" (default "" (BrevoMessage.agentId message))
  then
    log ("Skipping Instagram duplicate message with ID: " +:+ BrevoMessage.id message)
  else
    visitor ← body_visitor body;
    let platform :=
      if String.eqb (Visitor.source visitor) "widget"
      then "instagram" else Visitor.source visitor in
    processBrevoMessage fuel visitor message platform false.

(** ** src/receiver/telegram.ts *)

Definition sendTelegramMessage (chatId text : string) : M unit :=
  try_catch
    (call (bot_sendMessage svc chatId text))
    (λ error, log "Error sending Telegram message:";; throw error).

Definition handleOpenAI (fuel : nat) (message : Message.t)
    (platformChatId : string) (threadId : option string) : M unit :=
  try_catch
    (res ← getAIResponse fuel message threadId;
     now ← Date_now;
     let msg :=
       Message.mk None (Some ("auto_" +:+ pretty now)) "telegram"
         (Message.chatId message) Text res None false now
         (default "OpenAI" (OPENAI_ASSISTANT_ID cfg))
         (Some "OpenAI Assistant") Auto in
     saveMessage msg;;
     sendTelegramMessage platformChatId res;;
     log ("Sent auto response to Telegram chat " +:+ platformChatId))
    (λ error, log "Error processing message:").

(** [String(ctx.chat?.id)] *)
Definition String_chat_id (ctx : Context.t) : string :=
  match Context.chat ctx with
  | Some i => pretty i
  | None => "undefined"
  end.

(** [String(ctx.from?.id)] and [ctx.from?.first_name || "Unknown"] *)
Definition String_from_id (ctx : Context.t) : string :=
  match Context.from ctx with
  | Some u => pretty (user_id u)
  | None => "undefined"
  end.

Definition from_first_name (ctx : Context.t) : string :=
  or_else (match Context.from ctx with
           | Some u => first_name u
           | None => None
           end) "Unknown".

(** [chat!.id!]: the non-null assertions are erased by the compiler, so
    the read of [id] on [null] throws. *)
Definition chat_id_of (chat : option Chat.t) : M string :=
  match chat with
  | None => throw (TypeError "null is not an object (evaluating 'chat.id')")
  | Some c => ret (default "" (Chat.id c))
  end.

(** [chat?.autoMode] and [chat!.openAIThreadId!] *)
Definition chat_autoMode (chat : option Chat.t) : bool :=
  match chat with Some c => Chat.autoMode c | None => false end.

Definition chat_thread (chat : option Chat.t) : option string :=
  match chat with Some c => Chat.openAIThreadId c | None => None end.

Definition handleTgTextMessage (fuel : nat) (ctx : Context.t) : M unit :=
  match Context.message ctx with
  | None => ret ()
  | Some m =>
    if negb (truthy (TgMessage.text m)) then ret ()
    else
      let platformChatId := String_chat_id ctx in
      chat ← findOrCreateChat fuel platformChatId "telegram" None;
      cid ← chat_id_of chat;
      let msg :=
        Message.mk None (Some (pretty (TgMessage.message_id m))) "telegram"
          cid Text (default "" (TgMessage.text m)) None true
          (TgMessage.date m * 1000) (String_from_id ctx)
          (Some (from_first_name ctx)) Manual in
      saveMessage msg;;
      if chat_autoMode chat
      then handleOpenAI fuel msg platformChatId (chat_thread chat)
      else ret ()
  end.

(** The download shared by the photo and voice handlers: a failed
    download is thrown. *)
Definition downloadTgFile (fileId : string) : M Response :=
  file_path ← call (getFile svc fileId);
  let fileUrl := "https://api.telegram.org/file/bot" +:+ TELEGRAM_TOKEN cfg
                 +:+ "/" +:+ file_path in
  fileResponse ← call (fetch svc fileUrl);
  if negb (ok fileResponse) then
    throw (Error ("Failed to download file: " +:+ pretty (http_status fileResponse)))
  else ret fileResponse.

Definition chat_present (ctx : Context.t) : bool :=
  match Context.chat ctx with
  | Some i => negb (Z.eqb i 0)
  | None => false
  end.

(** [ctx.message?.photo] and [ctx.message?.voice] *)
Definition message_photo (ctx : Context.t) : option (TgMessage.t * list PhotoSize) :=
  match Context.message ctx with
  | Some m => match TgMessage.photo m with
              | Some p => Some (m, p)
              | None => None
              end
  | None => None
  end.

Definition message_voice (ctx : Context.t) : option (TgMessage.t * PhotoSize) :=
  match Context.message ctx with
  | Some m => match TgMessage.voice m with
              | Some v => Some (m, v)
              | None => None
              end
  | None => None
  end.

Definition handleTgPhotoMessage (fuel : nat) (ctx : Context.t) : M unit :=
  match message_photo ctx with
  | None => ret ()
  | Some (m, photoArray) =>
    if negb (chat_present ctx) then ret ()
    else
      try_catch
        (match last photoArray with
         | None => throw (TypeError "undefined is not an object (evaluating 'bestPhoto.file_id')")
         | Some bestPhoto =>
           fileResponse ← downloadTgFile (file_id bestPhoto);
           fileId ← saveMediaFile (body fileResponse)
                      ("tg_photo_" +:+ file_unique_id bestPhoto +:+ ".jpg")
                      "image/jpeg" "telegram";
           let platformChatId := String_chat_id ctx in
           chat ← findOrCreateChat fuel platformChatId "telegram" None;
           cid ← chat_id_of chat;
           let msg :=
             Message.mk None (Some (pretty (TgMessage.message_id m))) "telegram"
               cid Image (or_else (TgMessage.caption m) "") (Some fileId) true
               (TgMessage.date m * 1000) (String_from_id ctx)
               (Some (from_first_name ctx)) Manual in
           saveMessage msg;;
           if chat_autoMode chat
           then handleOpenAI fuel msg platformChatId (chat_thread chat)
           else ret ()
         end)
        (λ error, log "Error processing photo message:")
  end.

Definition handleTgVoiceMessage (fuel : nat) (ctx : Context.t) : M unit :=
  match message_voice ctx with
  | None => ret ()
  | Some (m, voice) =>
    if negb (chat_present ctx) then ret ()
    else
      try_catch
        (fileResponse ← downloadTgFile (file_id voice);
         fileId ← saveMediaFile (body fileResponse)
                    ("tg_voice_" +:+ file_unique_id voice +:+ ".ogg")
                    "audio/ogg" "telegram";
         let platformChatId := String_chat_id ctx in
         chat ← findOrCreateChat fuel platformChatId "telegram" None;
         cid ← chat_id_of chat;
         let msg :=
           Message.mk None (Some (pretty (TgMessage.message_id m))) "telegram"
             cid Audio "Voice message"
             (if truthy (Some fileId) then Some fileId else None) true
             (TgMessage.date m * 1000) (String_from_id ctx)
             (Some (from_first_name ctx)) Manual in
         saveMessage msg;;
         if chat_autoMode chat && Message.isIncoming msg
         then handleOpenAI fuel msg platformChatId (chat_thread chat)
         else ret ())
        (λ error, log "Error processing voice message:")
  end.

(** ** src/api/api.ts *)

Definition lift {A} (m : M A) (sv : Server E) : Outcome A * Server E :=
  let '(r, w) := m (world sv) in (r, mkServer (processedMessages sv) w).

(** The period of the cleaning timer and the age beyond which an entry
    is dropped, in milliseconds. *)
Definition sweep_interval : Z := 600000.
Definition max_age : Z := 3600000.

(** The body of the [setInterval] callback that cleans the map. *)
Definition sweep (sv : Server E) : Server E :=
  let now := clock (world sv) in
  mkServer
    (filter (λ kv : string * Z, ¬ (max_age < now - kv.2)) (processedMessages sv))
    (world sv).

(** [body.message || (body.messages && body.messages[0])] *)
Definition webhook_message (body : Body.t) : option BrevoMessage.t :=
  match Body.message body with
  | Some m => Some m
  | None =>
      match Body.messages body with
      | Some (m :: _) => Some m
      | _ => None
      end
  end.

(** [body.message?.type === 'agent' ||
     (body.messages && body.messages[0]?.type === 'agent')] *)
Definition agent_typed (body : Body.t) : bool :=
  match Body.message body with
  | Some m => String.eqb (BrevoMessage.type m) "agent"
  | None => false
  end
  || match Body.messages body with
     | Some (m :: _) => String.eqb (BrevoMessage.type m) "agent"
     | _ => false
     end.

(** The handler of [POST /brevohook/:secret] after the duplicate check.
    It has no [try]: what is thrown here leaves the handler, and the
    framework answers 500. *)
Definition brevohook_process (fuel : nat) (body : Body.t) : M string :=
  (if agent_typed body then processAgentMessage fuel body else ret ());;
  (if String.eqb (Body.eventName body) "conversationFragment" then
     match Body.messages body with
     | Some (message :: _) =>
         if String.eqb (BrevoMessage.type message) "visitor" then
           visitor ← body_visitor body;
           processBrevoMessage fuel visitor message (Visitor.source visitor) true
         else ret ()
     | _ => ret ()
     end
   else ret ());;
  (if String.eqb (Body.eventName body) "conversationStarted" then
     match Body.message body with
     | Some message =>
         if String.eqb (BrevoMessage.type message) "visitor" then
           visitor ← body_visitor body;
           processBrevoMessage fuel visitor message (Visitor.source visitor) true
         else ret ()
     | None => ret ()
     end
   else ret ());;
  ret "Webhook received successfully".

Definition brevohook (fuel : nat) (body : Body.t) (sv : Server E)
  : Outcome string * Server E :=
  let '(_, sv) := lift (log "Received webhook:") sv in
  match webhook_message body with
  | None => (Ret "No message found in webhook", sv)
  | Some message =>
      match processedMessages sv !! BrevoMessage.id message with
      | Some _ =>
          lift (log ("Skipping duplicate message ID: " +:+ BrevoMessage.id message
                     +:+ " (already processed)");;
                ret "Duplicate message skipped") sv
      | None =>
          let now := clock (world sv) in
          lift (brevohook_process fuel body)
               (mkServer (<[BrevoMessage.id message := now]> (processedMessages sv))
                         (world sv))
      end
  end.

Definition bad_request (text : string) : Reply :=
  {| code := 400; success := false; reply_message := text; external := None |}.

(** [error?.message] *)
Definition error_message (e : Exn) : string :=
  match e with
  | ClientResponseError _ m => m
  | Error m => m
  | TypeError m => m
  end.

(** The handler of [POST /api/messages]. *)
Definition api_messages (body : SendBody.t) : M Reply :=
  try_catch
    (log "Received message request:";;
     let visitorId :=
       match SendBody.visitorId body with
       | None => Some "text"
       | v => v
       end in
     if negb (truthy (SendBody.platformChatId body))
        || negb (truthy (SendBody.source body))
        || negb (truthy (SendBody.text body))
        || negb (truthy visitorId)
     then
       ret (bad_request "Missing required fields: platformChatId, source, visitorId or text")
     else
       let platformChatId := default "" (SendBody.platformChatId body) in
       let source := default "" (SendBody.source body) in
       let text := default "" (SendBody.text body) in
       now ← Date_now;
       let msg :=
         Message.mk None (Some ("api_" +:+ pretty now)) source
           (default "" (SendBody.chatId body))
           (default Text (SendBody.type body)) text None false now
           "api_client" (Some (or_else (SendBody.senderName body) "API Client"))
           Manual in
       if String.eqb source "telegram" then
         sendTelegramMessage platformChatId text;;
         ret {| code := 200; success := true;
                reply_message := "Message sent via " +:+ source;
                external := Some {| platform := "telegram"; messageId := None |} |}
       else if bool_decide (source ∈ ["instagram"; "whatsapp"; "brevo"]) then
         msgId ← sendBrevoMessage (default "" visitorId) text;
         ret {| code := 200; success := true;
                reply_message := "Message sent via " +:+ source;
                external := Some {| platform := source; messageId := Some msgId |} |}
       else
         ret (bad_request ("Unsupported source: " +:+ source)))
    (λ error,
       log "Error processing message:";;
       ret {| code := 500; success := false;
              reply_message := or_else (Some (error_message error)) "Internal server error";
              external := None |}).

(** ** Runs of the server *)

Definition at_time (t : Z) (sv : Server E) : Server E :=
  mkServer (processedMessages sv)
           (mkWorld (pb (world sv)) (env (world sv)) t (console (world sv))).

Definition step (fuel : nat) (ev : Event) (sv : Server E) : Server E :=
  match ev with
  | Deliver t body => snd (brevohook fuel body (at_time t sv))
  | Sweep t => sweep (at_time t sv)
  end.

Definition run (fuel : nat) (evs : list Event) (sv : Server E) : Server E :=
  fold_left (λ s ev, step fuel ev s) evs sv.


(** ** Notions used in the statements *)

(** [m] never leaves the world outside [R]. *)
Definition stable {A} (R : relation (World E)) (m : M A) : Prop :=
  ∀ w, R w (m w).2.

Definition same_pb : relation (World E) := λ w w', pb w' = pb w.

Definition same_messages : relation (World E) :=
  λ w w', messages (pb w') = messages (pb w).

Definition never_throws {A} (m : M A) : Prop :=
  ∀ w e, (m w).1 ≠ Throw e.

Definition event_time (ev : Event) : Z :=
  match ev with
  | Deliver t _ => t
  | Sweep t => t
  end.

(** The handler has answered without entering its processing part. *)
Definition skipped (r : Outcome string) : bool :=
  match r with
  | Ret s => String.eqb s "Duplicate message skipped"
             || String.eqb s "No message found in webhook"
  | _ => false
  end.

(** The number of deliveries of identifier [i] in a run that get past
    the duplicate check, i.e. the processing attempts for [i]. *)
Fixpoint attempts (fuel : nat) (i : string) (evs : list Event) (sv : Server E) : nat :=
  match evs with
  | [] => 0
  | ev :: rest =>
      (match ev with
       | Deliver t body =>
           if bool_decide (BrevoMessage.id <$> webhook_message body = Some i)
              && negb (skipped (brevohook fuel body (at_time t sv)).1)
           then 1 else 0
       | Sweep _ => 0
       end + attempts fuel i rest (step fuel ev sv))%nat
  end.

(** The world after the handler has logged a delivery and its skip. *)
Definition logged_skip (i : string) (sv : Server E) : Server E :=
  mkServer (processedMessages sv)
    (mkWorld (pb (world sv)) (env (world sv)) (clock (world sv))
       ((console (world sv) ++ ["Received webhook:"])
        ++ ["Skipping duplicate message ID: " +:+ i +:+ " (already processed)"])).

(** A session-expiry failure, as [handleAuthError] recognises it. *)
Definition expired (e : Exn) : bool :=
  has_status e 403 && response_message_includes e "perform this action".

(** The world after one request has been sent and answered. *)
Definition after_request (w : World E) : World E :=
  let s := pb w in
  mkWorld
    (mkStore (chats s) (messages s) (media s) (nextId s) (tail (script s))
             (S (requests s)) (authCalls s) (authRetryInProgress s))
    (env w) (clock w) (console w).

(** The world after one request has been rejected and the following
    re-authentication has been accepted. *)
Definition reauthenticated (w : World E) : World E :=
  let s := pb w in
  mkWorld
    (mkStore (chats s) (messages s) (media s) (nextId s)
             (tail (tail (script s))) (S (S (requests s))) (S (authCalls s)) false)
    (env w) (clock w)
    ((console w
      ++ ["PocketBase: Auth token expired, attempting re-authentication"])
     ++ ["PocketBase: Re-authentication successful"]).

(** [k] rounds of expiry and accepted re-authentication. *)
Fixpoint expiring (k : nat) (e : Exn) (rest : list (option Exn)) : list (option Exn) :=
  match k with
  | O => rest
  | S k' => Some e :: None :: expiring k' e rest
  end.

Fixpoint rounds (k : nat) (w : World E) : World E :=
  match k with
  | O => w
  | S k' => rounds k' (reauthenticated w)
  end.


(** The chat that the lookup by platform id yields. *)
Definition find_chat (i : string) (s : Store) : option Chat.t :=
  List.find (λ c, bool_decide (Chat.platformChatId c = Some i)) (chats s).


(** The chats are untouched and the script has only been consumed. *)
Definition quiet : relation (World E) :=
  λ w w', chats (pb w') = chats (pb w)
          ∧ ∃ k, script (pb w') = drop k (script (pb w)).

(** The coming request will be served. *)
Definition served (w : World E) : Prop :=
  match script (pb w) with
  | Some _ :: _ => False
  | _ => True
  end.

(** The world after a served [chats.create] that has stored [r]. *)
Definition created (r : Chat.t) (w : World E) : World E :=
  let s := pb w in
  mkWorld
    (mkStore (chats s ++ [r]) (messages s) (media s) (S (nextId s))
             (tail (script s)) (S (requests s)) (authCalls s)
             (authRetryInProgress s))
    (env w) (clock w) (console w).

(** The chat that [findOrCreateChat] builds when the lookup finds none. *)
Definition new_chat (i : string) (source : MessageSource) (name : option string)
    (now : Z) : Chat.t :=
  Chat.mk None (Some i) source (or_else name "Unknown") now false (Some "").

(** The rejections that the store still has in its script fit the
    fuel: every self-invocation of a gateway function follows a
    rejected request. *)
Definition fits (fuel : nat) (w : World E) : Prop :=
  (length (script (pb w)) ≤ fuel)%nat.

(** From a world that fits the fuel, [m] ends, and when it returns, it
    returns a value in [P]. *)
Definition only {A} (fuel : nat) (P : A → Prop) (m : M A) : Prop :=
  ∀ w, fits fuel w →
       fits fuel (m w).2
       ∧ match (m w).1 with
         | Ret a => P a
         | Throw _ => True
         | Diverge => False
         end.

(** The texts that [getAIResponse] returns in place of an answer. *)
Definition fallbacks (t : MessageType) : list string :=
  match t with
  | Text => [apology]
  | Image => ["Изображение не найдено."; "Ошибка доступа к файлу.";
              "Не удалось получить изображение из хранилища."]
  | Voice | Audio =>
      ["Аудиофайл не найден."; "Ошибка доступа к аудиофайлу.";
       "Не удалось распознать аудио.";
       "Не удалось распознать текст в аудиосообщении.";
       "Произошла ошибка при обработке аудиосообщения."]
  end.


(** From a world that fits the fuel, [m] returns, and returns a value
    in [P]. *)
Definition returns {A} (fuel : nat) (P : A → Prop) (m : M A) : Prop :=
  ∀ w, fits fuel w → fits fuel (m w).2 ∧ ∃ a, (m w).1 = Ret a ∧ P a.

(** The world with one more line on the console. *)
Definition logged (line : string) (w : World E) : World E :=
  mkWorld (pb w) (env w) (clock w) (console w ++ [line]).

(** The services have not been called. *)
Definition same_env : relation (World E) := λ w w', env w' = env w.

(** The world after one request has been rejected and the following
    re-authentication has been rejected too. *)
Definition refused (w : World E) : World E :=
  let s := pb w in
  mkWorld
    (mkStore (chats s) (messages s) (media s) (nextId s)
             (tail (tail (script s))) (S (S (requests s))) (S (authCalls s)) false)
    (env w) (clock w)
    (((console w
       ++ ["PocketBase: Auth token expired, attempting re-authentication"])
      ++ ["PocketBase: Silent re-authentication failed"])
     ++ ["PocketBase: Re-authentication failed"]).

(** The lookups that the store runs for the gateway. *)
Definition find_message (p sid : string) (s : Store) : option Message.t :=
  List.find (λ r, bool_decide (Message.platformMessageId r = Some p)
                  && String.eqb (Message.senderId r) sid) (messages s).

Definition find_chat_by_id (i : string) (s : Store) : option Chat.t :=
  List.find (λ c, bool_decide (Chat.id c = Some i)) (chats s).

(** What [handleTextMessage] reads from the listed thread messages: the
    text of the first part of the first message, when an assistant
    wrote it. *)
Definition first_text (data : list ThreadMessage) : option string :=
  match data with
  | first :: _ =>
      if String.eqb (role first) "assistant" then
        match parts first with
        | TextPart value :: _ => Some value
        | _ => None
        end
      else None
  | [] => None
  end.

(** The assistant is at hand: its calls are answered, and every run is
    found completed at the first look. *)
Definition assistant_answers (data : list ThreadMessage) : Prop :=
  (∀ t c e, (threads_messages_create svc t c e).1 = Answered ())
  ∧ (∀ t a e, ∃ r, (threads_runs_create svc t a e).1 = Answered r)
  ∧ (∀ t r e, (threads_runs_retrieve svc t r e).1 = Answered "completed")
  ∧ (∀ t e, (threads_messages_list svc t e).1 = Answered data).

(** The identifier of the assistant is missing from the environment. *)
Definition unconfigured : Prop :=
  OPENAI_ASSISTANT_ID cfg = None ∨ OPENAI_ASSISTANT_ID cfg = Some "".

(** Every stored chat with platform id [i] is in manual mode. *)
Definition manual_mode (i : string) (s : Store) : Prop :=
  Forall (λ c, Chat.platformChatId c = Some i → Chat.autoMode c = false) (chats s).

(** [m] stores at most one message, and one that satisfies [P]. *)
Definition appends {A} (P : Message.t → Prop) (m : M A) : Prop :=
  ∀ w, messages (pb (m w).2) = messages (pb w)
       ∨ ∃ r, messages (pb (m w).2) = messages (pb w) ++ [r] ∧ P r.

(** The type under which [processBrevoMessage] stores a message. *)
Definition brevo_type (message : BrevoMessage.t) : MessageType :=
  match BrevoMessage.file message with
  | None => Text
  | Some f => if BrevoFile.isImage f then Image else Audio
  end.

(** The canonical form of a message of the aggregator. *)
Definition brevo_record (visitor : Visitor.t) (message : BrevoMessage.t)
    (platform : string) (isIncoming : bool) (r : Message.t) : Prop :=
  Message.platformMessageId r = Some (BrevoMessage.id message)
  ∧ Message.source r = platform
  ∧ Message.type r = brevo_type message
  ∧ Message.content r = or_else (BrevoMessage.text message) ""
  ∧ Message.timestamp r = BrevoMessage.createdAt message
  ∧ Message.isIncoming r = isIncoming
  ∧ Message.responseMode r = (if isIncoming then Manual else Auto)
  ∧ Message.senderId r
    = (if isIncoming then Visitor.id visitor
       else or_else (BrevoMessage.agentId message)
              (default "" (OPENAI_ASSISTANT_ID cfg)))
  ∧ (BrevoMessage.file message = None → Message.mediaFileId r = None).

(** No file can be downloaded: every download is refused or fails. *)
Definition no_file_downloads : Prop :=
  ∀ url e, match (fetch svc url e).1 with
           | Answered r => ok r = false
           | Failed _ => True
           end.

(** The downloads and the conversion succeed, and every transcription
    comes back without text. *)
Definition transcribes_nothing : Prop :=
  (∀ url e, ∃ r, (fetch svc url e).1 = Answered r ∧ ok r = true)
  ∧ (∀ b e, ∃ b', (convertAudioInMemory svc b e).1 = Answered b')
  ∧ (∀ model buf name e,
       ∃ t, (transcriptions svc model buf name e).1 = Answered t
            ∧ transcription_ok t = true
            ∧ negb (truthy (transcription_text t))
              || blank (default "" (transcription_text t)) = true).

Definition find_media (i : string) (s : Store) : option MediaRecord :=
  List.find (λ r, String.eqb (media_id r) i) (media s).

(** [m] stores nothing, or one message that satisfies [P], or that
    message followed by an automated reply. *)
Definition exchange {A} (P : Message.t → Prop) (m : M A) : Prop :=
  ∀ w, ∃ l, messages (pb (m w).2) = messages (pb w) ++ l
            ∧ (l = []
               ∨ ∃ r, P r
                      ∧ (l = [r]
                         ∨ ∃ a, l = [r; a]
                                ∧ Message.isIncoming a = false
                                ∧ Message.responseMode a = Auto)).

(** The fields that the Telegram handlers give every incoming message. *)
Definition telegram_record (ctx : Context.t) (m : TgMessage.t) (r : Message.t) : Prop :=
  Message.platformMessageId r = Some (pretty (TgMessage.message_id m))
  ∧ Message.source r = "telegram"
  ∧ Message.isIncoming r = true
  ∧ Message.responseMode r = Manual
  ∧ Message.timestamp r = TgMessage.date m * 1000
  ∧ Message.senderId r = String_from_id ctx
  ∧ Message.senderName r = Some (from_first_name ctx).

(** The source under which [processAgentMessage] stores a message. *)
Definition agent_platform (visitor : Visitor.t) : string :=
  if String.eqb (Visitor.source visitor) "widget" then "instagram"
  else Visitor.source visitor.

(** What the handler throws when it reads the source of a visitor that
    the payload does not carry. *)
Definition no_visitor : Exn :=
  TypeError "undefined is not an object (evaluating 'body.visitor.source')".

(** From a world that fits the fuel, [m] ends: it returns a value in
    [P], or it throws an exception in [X]. *)
Definition answers {A} (fuel : nat) (P : A → Prop) (X : Exn → Prop) (m : M A) : Prop :=
  ∀ w, fits fuel w →
       fits fuel (m w).2
       ∧ match (m w).1 with
         | Ret a => P a
         | Throw e => X e
         | Diverge => False
         end.

(** ** General facts about computations *)

#[local] Instance same_pb_preorder : PreOrder same_pb.
Proof. split; unfold same_pb; [intros w | intros a b c ? ?]; congruence. Qed.

#[local] Instance same_messages_preorder : PreOrder same_messages.
Proof. split; unfold same_messages; [intros w | intros a b c ? ?]; congruence. Qed.

Section Stable.
Context (R : relation (World E)) `{!PreOrder R}.

Lemma stable_ret {A} (a : A) : stable R (ret a).
Proof. intros w. reflexivity. Qed.

Lemma stable_throw {A} e : stable R (@throw A e).
Proof. intros w. reflexivity. Qed.

Lemma stable_diverge {A} : stable R (@diverge A).
Proof. intros w. reflexivity. Qed.

Lemma stable_bind {A B} (m : M A) (k : A → M B) :
  stable R m → (∀ a, stable R (k a)) → stable R (bind m k).
Proof.
  intros Hm Hk w. unfold bind. specialize (Hm w).
  destruct (m w) as [[a|e|] w1]; simpl in *; auto.
  etrans; [exact Hm | apply Hk].
Qed.

Lemma stable_try_catch {A} (m : M A) (h : Exn → M A) :
  stable R m → (∀ e, stable R (h e)) → stable R (try_catch m h).
Proof.
  intros Hm Hh w. unfold try_catch. specialize (Hm w).
  destruct (m w) as [[a|e|] w1]; simpl in *; auto.
  etrans; [exact Hm | apply Hh].
Qed.
End Stable.

(** The console, the clock and the services are not part of the store. *)
Lemma log_same_pb line : stable same_pb (log line).
Proof. intros w. reflexivity. Qed.

Lemma Date_now_same_pb : stable same_pb Date_now.
Proof. intros w. reflexivity. Qed.

Lemma call_same_pb {A} (op : E → Answer A * E) : stable same_pb (call op).
Proof.
  intros w. unfold call, same_pb.
  destruct (op (env w)) as [r e1]. destruct (lag svc e1) as [d e2]. reflexivity.
Qed.

Lemma sleep_same_pb ms : stable same_pb (sleep ms).
Proof.
  intros w. unfold sleep, same_pb. destruct (lag svc (env w)) as [d e1]. reflexivity.
Qed.

Create HintDb stable.
#[local] Hint Resolve log_same_pb Date_now_same_pb call_same_pb sleep_same_pb : stable.

(** Decompose a [stable] goal along the structure of the computation. *)
Ltac stable_step :=
  lazymatch goal with
  | |- stable _ (bind _ _) => apply stable_bind; [apply _ | | intros ?]
  | |- stable _ (try_catch _ _) => apply stable_try_catch; [apply _ | | intros ?]
  | |- stable _ (ret _) => apply stable_ret; apply _
  | |- stable _ (throw _) => apply stable_throw; apply _
  | |- stable _ diverge => apply stable_diverge; apply _
  | |- stable _ (if ?b then _ else _) => destruct b
  | |- stable _ (match ?x with _ => _ end) => destruct x
  | |- stable _ (let _ := _ in _) => cbv zeta
  end.

Ltac stable_auto := repeat (first [ solve [eauto with stable] | stable_step ]).

(** ** The duplicate cache (C1) *)


Lemma brevohook_processedMessages fuel body sv :
  processedMessages (brevohook fuel body sv).2 =
  match webhook_message body with
  | None => processedMessages sv
  | Some m =>
      match processedMessages sv !! BrevoMessage.id m with
      | Some _ => processedMessages sv
      | None => <[BrevoMessage.id m := clock (world sv)]> (processedMessages sv)
      end
  end.
Proof.
  unfold brevohook, lift. simpl.
  destruct (webhook_message body) as [m|]; [|reflexivity].
  destruct (processedMessages sv !! BrevoMessage.id m); [reflexivity|].
  simpl. destruct (brevohook_process _ _ _). reflexivity.
Qed.


Lemma brevohook_duplicate fuel body m t sv :
  webhook_message body = Some m →
  processedMessages sv !! BrevoMessage.id m = Some t →
  brevohook fuel body sv
  = (Ret "Duplicate message skipped", logged_skip (BrevoMessage.id m) sv).
Proof.
  intros Hm Ht. unfold brevohook, lift. simpl. rewrite Hm, Ht. reflexivity.
Qed.

Lemma brevohook_process_outcome fuel body w :
  skipped (brevohook_process fuel body w).1 = false.
Proof.
  unfold brevohook_process, bind.
  repeat match goal with
         | |- context [match ?m w with _ => _ end] =>
             destruct (m w) as [[?|?|] ?]; try reflexivity
         | |- context [match ?m ?w' with _ => _ end] =>
             destruct (m w') as [[?|?|] ?]; try reflexivity
         end.
Qed.

Lemma brevohook_first_sight fuel body m sv :
  webhook_message body = Some m →
  processedMessages sv !! BrevoMessage.id m = None →
  skipped (brevohook fuel body sv).1 = false.
Proof.
  intros Hm Hnone. unfold brevohook, lift. simpl. rewrite Hm, Hnone. simpl.
  pose proof (brevohook_process_outcome fuel body
    {| pb := pb (world sv); env := env (world sv); clock := clock (world sv);
       console := console (world sv) ++ ["Received webhook:"] |}) as H.
  destruct (brevohook_process _ _ _). exact H.
Qed.

(** An entry recorded at [t1] survives every event that happens within
    the hour after [t1]. *)
Lemma step_keeps_entry fuel ev sv i t1 :
  processedMessages sv !! i = Some t1 →
  event_time ev - t1 ≤ max_age →
  processedMessages (step fuel ev sv) !! i = Some t1.
Proof.
  unfold max_age. intros Hi Ht. destruct ev as [t body|t]; simpl in *.
  - rewrite brevohook_processedMessages. simpl.
    destruct (webhook_message body) as [m|]; [|exact Hi].
    destruct (processedMessages sv !! BrevoMessage.id m) eqn:Hm; [exact Hi|].
    rewrite lookup_insert_ne; [exact Hi | congruence].
  - unfold sweep, max_age. simpl. apply map_lookup_filter_Some. split; [exact Hi|].
    simpl. lia.
Qed.

Lemma run_keeps_entry fuel evs sv i t1 t2 :
  processedMessages sv !! i = Some t1 →
  Forall (λ ev, t1 ≤ event_time ev ≤ t2) evs →
  t2 - t1 ≤ max_age →
  processedMessages (run fuel evs sv) !! i = Some t1.
Proof.
  intros Hi Hevs Ht. revert sv Hi.
  induction Hevs as [|ev evs Hev _ IH]; intros sv Hi; [exact Hi|].
  simpl. apply IH. apply step_keeps_entry; [exact Hi | unfold max_age in *; lia].
Qed.

Lemma attempts_app fuel i evs1 evs2 sv :
  attempts fuel i (evs1 ++ evs2) sv
  = (attempts fuel i evs1 sv + attempts fuel i evs2 (run fuel evs1 sv))%nat.
Proof.
  revert sv. induction evs1 as [|ev evs1 IH]; intros sv; [reflexivity|].
  simpl. rewrite IH. unfold run. lia.
Qed.

Lemma attempts_while_recorded fuel evs sv i t1 t2 :
  processedMessages sv !! i = Some t1 →
  Forall (λ ev, t1 ≤ event_time ev ≤ t2) evs →
  t2 - t1 ≤ max_age →
  attempts fuel i evs sv = 0%nat.
Proof.
  intros Hi Hevs Ht. revert sv Hi.
  induction Hevs as [|ev evs Hev _ IH]; intros sv Hi; [reflexivity|].
  simpl. rewrite IH by (apply step_keeps_entry; [exact Hi | unfold max_age in *; lia]).
  destruct ev as [t body|t]; [|reflexivity].
  destruct (webhook_message body) as [m|] eqn:Hm; simpl; [|reflexivity].
  case_bool_decide as Hid; [|reflexivity]. simpl.
  assert (BrevoMessage.id m = i) by congruence. subst i.
  erewrite brevohook_duplicate by eauto. reflexivity.
Qed.

(** C1, as amended: a delivery that passes the duplicate check is
    recorded with its arrival time, and every later delivery of the same
    identifier that arrives within one hour of it is acknowledged with
    'Duplicate message skipped' and processes nothing, whatever was
    delivered or swept in between; in the run from the first to the
    later delivery exactly one delivery of the identifier is processed. *)
Theorem duplicate_within_hour_of_processed (fuel : nat) (sv0 : Server E)
    (t1 t2 : Z) (b1 b2 : Body.t) (m1 m2 : BrevoMessage.t) (mid : list Event) :
  webhook_message b1 = Some m1 →
  webhook_message b2 = Some m2 →
  BrevoMessage.id m2 = BrevoMessage.id m1 →
  processedMessages sv0 !! BrevoMessage.id m1 = None →
  Forall (λ ev, t1 ≤ event_time ev ≤ t2) mid →
  t2 - t1 ≤ max_age →
  let sv1 := step fuel (Deliver t1 b1) sv0 in
  let sv2 := run fuel mid sv1 in
  processedMessages sv1 !! BrevoMessage.id m1 = Some t1
  ∧ brevohook fuel b2 (at_time t2 sv2)
    = (Ret "Duplicate message skipped",
       logged_skip (BrevoMessage.id m1) (at_time t2 sv2))
  ∧ attempts fuel (BrevoMessage.id m1)
      (Deliver t1 b1 :: mid ++ [Deliver t2 b2]) sv0 = 1%nat.
Proof.
  intros Hm1 Hm2 Hid Hnew Hmid Ht sv1 sv2.
  assert (H1 : processedMessages sv1 !! BrevoMessage.id m1 = Some t1).
  { unfold sv1. simpl. rewrite brevohook_processedMessages. simpl.
    rewrite Hm1, Hnew. apply lookup_insert_eq. }
  assert (H2 : processedMessages sv2 !! BrevoMessage.id m1 = Some t1).
  { unfold sv2. eapply run_keeps_entry; eauto. }
  split; [exact H1|]. split.
  - rewrite <- Hid. eapply brevohook_duplicate; [exact Hm2|].
    rewrite Hid. exact H2.
  - cbn [attempts]. rewrite Hm1. simpl. rewrite bool_decide_eq_true_2 by reflexivity.
    rewrite (brevohook_first_sight fuel b1 m1) by (simpl; auto).
    simpl. fold sv1. rewrite attempts_app.
    rewrite (attempts_while_recorded fuel mid sv1 _ t1 t2) by auto.
    fold (run fuel mid sv1). fold sv2. cbn [attempts]. rewrite Hm2. simpl.
    rewrite Hid. rewrite bool_decide_eq_true_2 by reflexivity.
    erewrite brevohook_duplicate; [reflexivity | exact Hm2 |].
    rewrite Hid. exact H2.
Qed.

(** What a delivery that has passed the check hands to the adapters:
    one call of [processBrevoMessage] for a visitor message under its
    event name, one call of [processAgentMessage] for an agent message. *)
Lemma brevohook_process_started fuel m visitor w :
  BrevoMessage.type m = "visitor" →
  brevohook_process fuel (Body.mk (Some m) None "conversationStarted" (Some visitor)) w
  = bind (processBrevoMessage fuel visitor m (Visitor.source visitor) true)
         (λ _, ret "Webhook received successfully") w.
Proof.
  intros Ht. unfold brevohook_process, agent_typed, body_visitor. simpl. rewrite Ht.
  reflexivity.
Qed.


Lemma brevohook_process_agent fuel m eventName visitor w :
  BrevoMessage.type m = "agent" →
  brevohook_process fuel (Body.mk (Some m) None eventName (Some visitor)) w
  = bind (processAgentMessage fuel (Body.mk (Some m) None eventName (Some visitor)))
         (λ _, ret "Webhook received successfully") w.
Proof.
  intros Ht. unfold brevohook_process, agent_typed. simpl. rewrite Ht. simpl.
  unfold bind, ret.
  destruct (processAgentMessage fuel (Body.mk (Some m) None eventName (Some visitor)) w)
    as [[[]|e|] w']; try reflexivity.
  destruct (String.eqb eventName "conversationFragment"),
           (String.eqb eventName "conversationStarted"); reflexivity.
Qed.

(** ** The retry of the store gateway (C2) *)

Lemma expired_status e : expired e = true → has_status e 403 = true.
Proof. unfold expired. intros H. apply andb_prop in H. tauto. Qed.

Lemma status_403_only e s : has_status e 403 = true → s ≠ 403 → has_status e s = false.
Proof.
  unfold has_status. destruct (status e) as [s'|]; [|discriminate].
  intros H Hs. apply Z.eqb_eq in H. subst. apply Z.eqb_neq. congruence.
Qed.

Ltac known_world w :=
  destruct w as [[ch ms md ni sc rq ac fl] en cl co]; simpl in *; subst.

Ltac expiry_facts He :=
  pose proof (expired_status _ He) as H403;
  pose proof (status_403_only _ 400 H403 ltac:(lia)) as H400;
  pose proof (status_403_only _ 404 H403 ltac:(lia)) as H404;
  unfold expired in He; rewrite H403 in He; simpl in He.

(** Run the store primitives on a world whose script is known. *)
Ltac run_store :=
  repeat (progress
            (cbv [bind try_catch ret throw log get_pb put_pb request
                  authWithPassword set_authRetryInProgress authenticate
                  handleAuthError expired_and_refreshed];
             simpl;
             repeat match goal with
                    | H : _ = true |- _ => rewrite H
                    | H : _ = false |- _ => rewrite H
                    end;
             simpl)).

Lemma handleAuthError_refreshes w e rest :
  script (pb w) = Some e :: None :: rest →
  expired e = true →
  authRetryInProgress (pb w) = false →
  expired_and_refreshed e (after_request w) = (Ret true, reauthenticated w).
Proof.
  intros Hs He Hf. known_world w. expiry_facts He.
  unfold expired_and_refreshed, handleAuthError, after_request, reauthenticated.
  run_store. reflexivity.
Qed.

Lemma getMessageById_retry fuel p sid w e rest :
  script (pb w) = Some e :: None :: rest →
  expired e = true →
  authRetryInProgress (pb w) = false →
  getMessageById (S fuel) p sid w = getMessageById fuel p sid (reauthenticated w).
Proof.
  intros Hs He Hf. known_world w. expiry_facts He.
  cbn [getMessageById]. unfold messages_getFirstListItem, reauthenticated.
  run_store. reflexivity.
Qed.

Lemma saveChat_retry fuel chat w e rest :
  script (pb w) = Some e :: None :: rest →
  expired e = true →
  authRetryInProgress (pb w) = false →
  saveChat (S fuel) chat w = saveChat fuel chat (reauthenticated w).
Proof.
  intros Hs He Hf. known_world w. expiry_facts He.
  cbn [saveChat]. unfold chats_update, chats_create, reauthenticated.
  destruct (truthy (Chat.id chat)); run_store; reflexivity.
Qed.

Lemma getChats_retry fuel src limit w e rest :
  script (pb w) = Some e :: None :: rest →
  expired e = true →
  authRetryInProgress (pb w) = false →
  getChats (S fuel) src limit w = getChats fuel src limit (reauthenticated w).
Proof.
  intros Hs He Hf. known_world w. expiry_facts He.
  cbn [getChats]. unfold chats_getList, reauthenticated.
  run_store. reflexivity.
Qed.

Lemma getChatById_retry fuel chatId w e rest :
  script (pb w) = Some e :: None :: rest →
  expired e = true →
  authRetryInProgress (pb w) = false →
  getChatById (S fuel) chatId w = getChatById fuel chatId (reauthenticated w).
Proof.
  intros Hs He Hf. known_world w. expiry_facts He.
  cbn [getChatById]. unfold chats_getOne, reauthenticated.
  run_store. reflexivity.
Qed.

Lemma try_catch_never_throws {A} (m : M A) (h : Exn → M A) :
  (∀ e, never_throws (h e)) → never_throws (try_catch m h).
Proof.
  intros Hh w e. unfold try_catch.
  destruct (m w) as [[a|e'|] w'] eqn:Hm; simpl; try discriminate.
  apply Hh.
Qed.

Lemma findOrCreateChat_never_throws fuel i source name :
  never_throws (findOrCreateChat fuel i source name).
Proof.
  destruct fuel; cbn [findOrCreateChat]; apply try_catch_never_throws;
    intros e w e'; discriminate.
Qed.

Lemma try_catch_no_throw {A} (m : M A) (h : Exn → M A) w :
  (∀ e, (m w).1 ≠ Throw e) → try_catch m h w = m w.
Proof.
  intros H. unfold try_catch. destruct (m w) as [[a|e|] w'] eqn:Hm; try reflexivity.
  exfalso. apply (H e). reflexivity.
Qed.

Lemma findOrCreateChat_retry fuel i source name w e rest :
  script (pb w) = Some e :: None :: rest →
  expired e = true →
  authRetryInProgress (pb w) = false →
  findOrCreateChat (S fuel) i source name w
  = findOrCreateChat fuel i source name (reauthenticated w).
Proof.
  intros Hs He Hf. known_world w. expiry_facts He.
  cbn [findOrCreateChat]. unfold chats_getFirstListItem, reauthenticated.
  run_store.
  match goal with
  | |- context [findOrCreateChat fuel i source name ?w'] =>
      pose proof (findOrCreateChat_never_throws fuel i source name w') as Hnt;
      destruct (findOrCreateChat fuel i source name w') as [[c|e'|] w'']
  end; try reflexivity.
  exfalso. apply (Hnt e'). reflexivity.
Qed.

Lemma saveMessage_rethrows msg w e rest :
  script (pb w) = Some e :: rest →
  expired e = true →
  saveMessage msg w = (Throw e, after_request w).
Proof.
  intros Hs He. known_world w. expiry_facts He.
  unfold saveMessage, messages_create, after_request. run_store. reflexivity.
Qed.

Lemma saveMediaFile_rethrows fileData filename contentType platform w e rest :
  script (pb w) = Some e :: rest →
  expired e = true →
  saveMediaFile fileData filename contentType platform w = (Throw e, after_request w).
Proof.
  intros Hs He. known_world w. expiry_facts He.
  unfold saveMediaFile, media_create, after_request. run_store. reflexivity.
Qed.

Lemma reauthenticated_flag w : authRetryInProgress (pb (reauthenticated w)) = false.
Proof. reflexivity. Qed.

Lemma rounds_authCalls k w :
  authCalls (pb (rounds k w)) = (k + authCalls (pb w))%nat.
Proof.
  revert w. induction k as [|k IH]; intros w; [reflexivity|].
  simpl. rewrite IH. simpl. lia.
Qed.

(** An operation that re-invokes itself after one round does so after
    every round. *)
Lemma retry_rounds {A} (op : nat → M A) :
  (∀ fuel w e rest,
      script (pb w) = Some e :: None :: rest → expired e = true →
      authRetryInProgress (pb w) = false →
      op (S fuel) w = op fuel (reauthenticated w)) →
  ∀ k fuel w e rest,
    script (pb w) = expiring k e rest → expired e = true →
    authRetryInProgress (pb w) = false →
    op (k + fuel)%nat w = op fuel (rounds k w).
Proof.
  intros Hop k. induction k as [|k IH]; intros fuel w e rest Hs He Hf; [reflexivity|].
  simpl in Hs. cbn [Nat.add rounds].
  rewrite (Hop _ _ _ _ Hs He Hf).
  apply (IH fuel (reauthenticated w) e rest); [|exact He|reflexivity].
  simpl. rewrite Hs. reflexivity.
Qed.

(** C2, as amended: [getMessageById], [saveChat], [findOrCreateChat],
    [getChats] and [getChatById] answer every session-expiry failure
    (status 403 with the 'perform this action' message, no
    re-authentication under way) with one re-authentication and, when it
    is accepted, a fresh invocation of themselves: after [k] such rounds
    in a row they have re-authenticated [k] times and go on with the
    operation, no number of failures being terminal; [saveMessage] and
    [saveMediaFile] rethrow the failure without re-authenticating or
    retrying. *)
Theorem retry_after_every_expiry (k fuel : nat) (w : World E) (e : Exn)
    (rest : list (option Exn))
    (platformMessageId senderId : string) (chat : Chat.t)
    (id : string) (source : MessageSource) (name : option string)
    (filter : option string) (limit : nat) (chatId : string)
    (msg : Message.t) (fileData filename contentType platform : string) :
  script (pb w) = expiring (S k) e rest →
  expired e = true →
  authRetryInProgress (pb w) = false →
  getMessageById (S k + fuel) platformMessageId senderId w
    = getMessageById fuel platformMessageId senderId (rounds (S k) w)
  ∧ saveChat (S k + fuel) chat w = saveChat fuel chat (rounds (S k) w)
  ∧ findOrCreateChat (S k + fuel) id source name w
    = findOrCreateChat fuel id source name (rounds (S k) w)
  ∧ getChats (S k + fuel) filter limit w = getChats fuel filter limit (rounds (S k) w)
  ∧ getChatById (S k + fuel) chatId w = getChatById fuel chatId (rounds (S k) w)
  ∧ authCalls (pb (rounds (S k) w)) = (S k + authCalls (pb w))%nat
  ∧ saveMessage msg w = (Throw e, after_request w)
  ∧ saveMediaFile fileData filename contentType platform w = (Throw e, after_request w)
  ∧ authCalls (pb (after_request w)) = authCalls (pb w).
Proof.
  intros Hs He Hf.
  split; [|split; [|split; [|split; [|split; [|split; [|split; [|split]]]]]]].
  - apply (retry_rounds (λ n, getMessageById n platformMessageId senderId)
             (λ n, getMessageById_retry n _ _) (S k) fuel w e rest Hs He Hf).
  - apply (retry_rounds (λ n, saveChat n chat)
             (λ n, saveChat_retry n _) (S k) fuel w e rest Hs He Hf).
  - apply (retry_rounds (λ n, findOrCreateChat n id source name)
             (λ n, findOrCreateChat_retry n _ _ _) (S k) fuel w e rest Hs He Hf).
  - apply (retry_rounds (λ n, getChats n filter limit)
             (λ n, getChats_retry n _ _) (S k) fuel w e rest Hs He Hf).
  - apply (retry_rounds (λ n, getChatById n chatId)
             (λ n, getChatById_retry n _) (S k) fuel w e rest Hs He Hf).
  - apply rounds_authCalls.
  - eapply saveMessage_rethrows; [exact Hs | exact He].
  - eapply saveMediaFile_rethrows; [exact Hs | exact He].
  - reflexivity.
Qed.

(** The earlier [getMessageById] (src/unnamed/part_000) answers every
    403 with [authenticate()] and a fresh invocation of itself. *)
Lemma getMessageById_part_000_retry fuel p sid w e rest :
  script (pb w) = Some e :: None :: rest →
  has_status e 403 = true →
  getMessageById_part_000 (S fuel) p sid w
  = getMessageById_part_000 fuel p sid
      (mkWorld
         (mkStore (chats (pb w)) (messages (pb w)) (media (pb w)) (nextId (pb w))
                  rest (S (S (requests (pb w)))) (S (authCalls (pb w)))
                  (authRetryInProgress (pb w)))
         (env w) (clock w)
         (console w ++ ["PocketBase: Authentication successful"])).
Proof.
  intros Hs H403. known_world w.
  cbn [getMessageById_part_000]. unfold messages_getFirstListItem.
  run_store. reflexivity.
Qed.

(** ** Find-or-create (C7, C8) *)

#[local] Instance quiet_preorder : PreOrder quiet.
Proof.
  split.
  - intros w. split; [reflexivity | exists 0%nat; reflexivity].
  - intros a b c [H1 [k1 K1]] [H2 [k2 K2]]. split; [congruence|].
    exists (k1 + k2)%nat. rewrite K2, K1. apply drop_drop.
Qed.

Lemma same_pb_quiet {A} (m : M A) : stable same_pb m → stable quiet m.
Proof.
  intros H w. specialize (H w). unfold same_pb in H. unfold quiet. rewrite H.
  split; [reflexivity | exists 0%nat; reflexivity].
Qed.

Lemma log_quiet line : stable quiet (log line).
Proof. apply same_pb_quiet, log_same_pb. Qed.

Lemma Date_now_quiet : stable quiet Date_now.
Proof. apply same_pb_quiet, Date_now_same_pb. Qed.

Lemma call_quiet {A} (op : E → Answer A * E) : stable quiet (call op).
Proof. apply same_pb_quiet, call_same_pb. Qed.

Lemma request_quiet : stable quiet request.
Proof.
  intros w. known_world w. unfold quiet.
  destruct sc as [|[e|] rest]; run_store;
    (split; [reflexivity | exists 1%nat; reflexivity]).
Qed.

Lemma set_authRetryInProgress_quiet b : stable quiet (set_authRetryInProgress b).
Proof.
  intros w. split; [reflexivity | exists 0%nat; reflexivity].
Qed.

#[local] Hint Resolve log_quiet Date_now_quiet call_quiet request_quiet
  set_authRetryInProgress_quiet : stable.

Lemma authWithPassword_quiet : stable quiet authWithPassword.
Proof.
  intros w. known_world w. unfold quiet, authWithPassword.
  destruct sc as [|[e|] rest]; run_store;
    (split; [reflexivity | exists 1%nat; reflexivity]).
Qed.
#[local] Hint Resolve authWithPassword_quiet : stable.

Lemma authenticate_quiet silent : stable quiet (authenticate silent).
Proof. unfold authenticate. stable_auto. Qed.
#[local] Hint Resolve authenticate_quiet : stable.

Lemma handleAuthError_quiet e : stable quiet (handleAuthError e).
Proof.
  intros w. unfold handleAuthError, bind at 1, get_pb.
  destruct (_ && _ && _); [|reflexivity].
  revert w.
  match goal with |- ∀ w, quiet w (?m w).2 => change (stable quiet m) end.
  stable_auto.
Qed.
#[local] Hint Resolve handleAuthError_quiet : stable.

Lemma expired_and_refreshed_quiet e : stable quiet (expired_and_refreshed e).
Proof. unfold expired_and_refreshed. stable_auto. Qed.
#[local] Hint Resolve expired_and_refreshed_quiet : stable.

Lemma expired_and_refreshed_spec e w :
  ∃ b w', expired_and_refreshed e w = (Ret b, w') ∧ quiet w w'.
Proof.
  pose proof (expired_and_refreshed_quiet e w) as Hq.
  assert (∃ b, (expired_and_refreshed e w).1 = Ret b) as [b Hb].
  { clear Hq. known_world w. unfold expired_and_refreshed.
    destruct (has_status e 403); [|eexists; reflexivity].
    unfold handleAuthError, bind at 1, get_pb. simpl.
    destruct (_ && _); [|eexists; reflexivity].
    destruct sc as [|[e'|] rest]; run_store; eexists; reflexivity. }
  destruct (expired_and_refreshed e w) as [r w']. simpl in *. subst r. eauto.
Qed.

Lemma saveChat_rejected fuel chat w e rest :
  script (pb w) = Some e :: rest →
  saveChat fuel chat w =
  bind (expired_and_refreshed e)
    (λ again : bool,
       if again then
         match fuel with
         | O => diverge
         | S fuel' => saveChat fuel' chat
         end
       else
         bind (if has_status e 400 || has_status e 404
               then log "Unable to save chat" else ret ())
              (λ _, throw e))
    (after_request w).
Proof.
  intros Hs. known_world w.
  destruct fuel; cbn [saveChat]; unfold chats_update, chats_create, after_request;
    destruct (truthy (Chat.id chat));
    reflexivity.
Qed.

Lemma saveChat_creates fuel chat w :
  truthy (Chat.id chat) = false →
  served w →
  saveChat fuel chat w
  = (Ret (Chat.with_id (Some (fresh_id (pb w))) chat),
     created (Chat.with_id (Some (fresh_id (pb w))) chat) w).
Proof.
  intros Hid Hs. known_world w. unfold served in Hs. simpl in Hs.
  destruct fuel; cbn [saveChat]; rewrite Hid; unfold chats_create, created;
    destruct sc as [|[e|] rest]; try contradiction; run_store; reflexivity.
Qed.


Lemma findOrCreateChat_rejected fuel i source name w e rest :
  script (pb w) = Some e :: rest →
  findOrCreateChat fuel i source name w =
  try_catch
    (bind (expired_and_refreshed e)
       (λ again : bool,
          if again then
            match fuel with
            | O => diverge
            | S fuel' => findOrCreateChat fuel' i source name
            end
          else if has_status e 400 || has_status e 404 then
            bind Date_now
              (λ now, bind (saveChat fuel (new_chat i source name now))
                        (λ savedChat, ret (Some savedChat)))
          else throw e))
    (λ _, bind (log ("Error in find chat for " +:+ source +:+ " sourceId " +:+ i +:+ ":"))
            (λ _, ret None))
    (after_request w).
Proof.
  intros Hs. known_world w.
  destruct fuel; cbn [findOrCreateChat]; reflexivity.
Qed.

Lemma findOrCreateChat_served fuel i source name w :
  served w →
  findOrCreateChat fuel i source name w =
  match find_chat i (pb w) with
  | Some c => (Ret (Some c), after_request w)
  | None =>
      try_catch
        (bind Date_now
           (λ now, bind (saveChat fuel (new_chat i source name now))
                     (λ savedChat, ret (Some savedChat))))
        (λ _, bind (log ("Error in find chat for " +:+ source +:+ " sourceId " +:+ i +:+ ":"))
                (λ _, ret None))
        (after_request w)
  end.
Proof.
  intros Hs. known_world w. unfold served in Hs. simpl in Hs. unfold find_chat. simpl.
  destruct fuel; cbn [findOrCreateChat]; unfold chats_getFirstListItem;
    destruct sc as [|[e|] rest]; try contradiction;
    unfold try_catch at 1 2, bind at 1 2 3, request, get_pb, put_pb; simpl;
    destruct (List.find _ ch); reflexivity.
Qed.




Lemma after_request_script w :
  script (pb (after_request w)) = drop 1 (script (pb w)).
Proof. simpl. destruct (script (pb w)); reflexivity. Qed.






(** On a store that serves every request, [findOrCreateChat] returns a
    chat whatever the fuel. *)
Lemma findOrCreateChat_succeeds fuel i source name w :
  script (pb w) = [] →
  ∃ c w', findOrCreateChat fuel i source name w = (Ret (Some c), w').
Proof.
  intros Hs. rewrite findOrCreateChat_served by (unfold served; rewrite Hs; exact I).
  destruct (find_chat i (pb w)) as [c|]; [eauto|].
  unfold try_catch, bind at 1, Date_now. unfold bind at 1.
  rewrite saveChat_creates; [eauto | reflexivity |].
  unfold served. simpl. rewrite Hs. exact I.
Qed.

(** ** Termination within the fuel *)

Lemma only_ret {A} fuel (P : A → Prop) a : P a → only fuel P (ret a).
Proof. intros Ha w Hw. split; assumption. Qed.

Lemma only_throw {A} fuel (P : A → Prop) e : only fuel P (throw e).
Proof. intros w Hw. split; [assumption | exact I]. Qed.

Lemma only_bind {A B} fuel (PA : A → Prop) (P : B → Prop) (m : M A) (k : A → M B) :
  only fuel PA m → (∀ a, PA a → only fuel P (k a)) → only fuel P (bind m k).
Proof.
  intros Hm Hk w Hw. unfold bind. destruct (Hm w Hw) as [Hfit Hout].
  destruct (m w) as [[a|e|] w1]; simpl in *.
  - apply Hk; assumption.
  - split; [assumption | exact I].
  - contradiction.
Qed.

Lemma only_try_catch {A} fuel (P : A → Prop) (m : M A) (h : Exn → M A) :
  only fuel P m → (∀ e, only fuel P (h e)) → only fuel P (try_catch m h).
Proof.
  intros Hm Hh w Hw. unfold try_catch. destruct (Hm w Hw) as [Hfit Hout].
  destruct (m w) as [[a|e|] w1]; simpl in *.
  - split; assumption.
  - apply Hh; assumption.
  - contradiction.
Qed.

Lemma only_weaken {A} fuel (P Q : A → Prop) (m : M A) :
  (∀ a, P a → Q a) → only fuel P m → only fuel Q m.
Proof.
  intros HPQ Hm w Hw. destruct (Hm w Hw) as [Hfit Hout]. split; [assumption|].
  destruct (m w).1; auto.
Qed.

(** A computation that leaves the store alone ends if it does not
    diverge. *)
Lemma only_same_pb {A} fuel (m : M A) :
  stable same_pb m → (∀ w, (m w).1 ≠ Diverge) → only fuel (λ _, True) m.
Proof.
  intros Hs Hd w Hw. specialize (Hs w). specialize (Hd w).
  unfold fits, same_pb in *. rewrite Hs. split; [assumption|].
  destruct (m w).1; auto.
Qed.

Lemma only_log fuel line : only fuel (λ _, True) (log line).
Proof. apply only_same_pb; [apply log_same_pb | discriminate]. Qed.

Lemma only_Date_now fuel : only fuel (λ _, True) Date_now.
Proof. apply only_same_pb; [apply Date_now_same_pb | discriminate]. Qed.

Lemma call_ends {A} (op : E → Answer A * E) w : (call op w).1 ≠ Diverge.
Proof.
  unfold call. destruct (op (env w)) as [[a|e] e1], (lag svc e1); discriminate.
Qed.

Lemma only_call {A} fuel (op : E → Answer A * E) : only fuel (λ _, True) (call op).
Proof. apply only_same_pb; [apply call_same_pb | apply call_ends]. Qed.

Lemma only_request fuel : only fuel (λ _, True) request.
Proof.
  intros w Hw. known_world w. unfold fits in *. simpl in *.
  destruct sc as [|[e|] rest]; run_store; simpl in *; split; auto; lia.
Qed.

Lemma only_expired_and_refreshed fuel e :
  only fuel (λ _, True) (expired_and_refreshed e).
Proof.
  intros w Hw. destruct (expired_and_refreshed_spec e w) as (b & w' & Hb & _ & k & Hk).
  rewrite Hb. simpl. split; [|exact I]. unfold fits in *. rewrite Hk, length_drop. lia.
Qed.

Lemma getChatById_rejected n chatId w e rest :
  script (pb w) = Some e :: rest →
  getChatById n chatId w =
  bind (expired_and_refreshed e)
    (λ again : bool,
       if again then
         match n with
         | O => diverge
         | S n' => getChatById n' chatId
         end
       else bind (log ("Failed to get chat: " +:+ chatId)) (λ _, ret None))
    (after_request w).
Proof.
  intros Hs. known_world w. destruct n; cbn [getChatById]; reflexivity.
Qed.

Lemma getChatById_served n chatId w :
  served w →
  ∃ o w', getChatById n chatId w = (Ret o, w')
          ∧ script (pb w') = tail (script (pb w)).
Proof.
  intros Hs. known_world w. unfold served in Hs. simpl in Hs.
  destruct n; cbn [getChatById]; unfold chats_getOne;
    destruct sc as [|[e|] rest]; try contradiction;
    unfold try_catch at 1, bind at 1 2 3, request, get_pb, put_pb; simpl;
    destruct (List.find _ ch); simpl; eauto.
Qed.

Lemma getChatById_ends n chatId w :
  (length (script (pb w)) ≤ n)%nat →
  (length (script (pb (getChatById n chatId w).2)) ≤ length (script (pb w)))%nat
  ∧ ∃ o, (getChatById n chatId w).1 = Ret o.
Proof.
  revert w. induction n as [|n IH]; intros w Hlen.
  all: destruct (script (pb w)) as [|[e|] rest] eqn:Hs.
  all: try (assert (Hsv : served w) by (unfold served; rewrite Hs; exact I);
            match goal with
            | |- context [getChatById ?m _ _] =>
                destruct (getChatById_served m chatId w Hsv) as (o & w' & Hrun & Hscr)
            end;
            rewrite Hrun; simpl; rewrite Hscr, Hs; simpl; split; [lia | eauto]).
  all: simpl in Hlen; try lia.
  destruct (getChatById (S n) chatId w) as [r w'] eqn:Hrun. simpl.
  rewrite (getChatById_rejected _ _ _ _ _ Hs) in Hrun. unfold bind at 1 in Hrun.
  destruct (expired_and_refreshed_spec e (after_request w)) as (b & w2 & Hb & _ & k & Hk).
  rewrite Hb in Hrun.
  assert (Hlen2 : (length (script (pb w2)) ≤ length rest)%nat).
  { rewrite Hk, after_request_script, Hs, !length_drop. simpl. lia. }
  destruct b.
  - destruct (IH w2 ltac:(lia)) as [H1 H2]. rewrite Hrun in H1, H2. simpl in *.
    split; [lia | exact H2].
  - inversion Hrun; subst. simpl. split; [lia | eauto].
Qed.

Lemma only_getChatById fuel chatId : only fuel (λ _, True) (getChatById fuel chatId).
Proof.
  intros w Hw. destruct (getChatById_ends fuel chatId w Hw) as [H1 [o H2]].
  rewrite H2. unfold fits in *. split; [lia | exact I].
Qed.

Lemma saveChat_served n chat w :
  served w →
  (saveChat n chat w).1 ≠ Diverge
  ∧ script (pb (saveChat n chat w).2) = tail (script (pb w)).
Proof.
  intros Hs. known_world w. unfold served in Hs. simpl in Hs.
  destruct n; cbn [saveChat]; unfold chats_update, chats_create;
    destruct (truthy (Chat.id chat));
    destruct sc as [|[e|] rest]; try contradiction;
    run_store; try destruct (List.find _ ch); run_store;
    split; try discriminate; reflexivity.
Qed.

Lemma saveChat_ends n chat w :
  (length (script (pb w)) ≤ n)%nat →
  (length (script (pb (saveChat n chat w).2)) ≤ length (script (pb w)))%nat
  ∧ (saveChat n chat w).1 ≠ Diverge.
Proof.
  revert w. induction n as [|n IH]; intros w Hlen.
  all: destruct (script (pb w)) as [|[e|] rest] eqn:Hs.
  all: try (assert (Hsv : served w) by (unfold served; rewrite Hs; exact I);
            match goal with
            | |- context [saveChat ?m _ _] =>
                destruct (saveChat_served m chat w Hsv) as (Hrun & Hscr)
            end;
            rewrite Hscr, Hs; simpl; split; [lia | exact Hrun]).
  all: simpl in Hlen; try lia.
  destruct (saveChat (S n) chat w) as [r w'] eqn:Hrun. simpl.
  rewrite (saveChat_rejected _ _ _ _ _ Hs) in Hrun. unfold bind at 1 in Hrun.
  destruct (expired_and_refreshed_spec e (after_request w)) as (b & w2 & Hb & _ & k & Hk).
  rewrite Hb in Hrun.
  assert (Hlen2 : (length (script (pb w2)) ≤ length rest)%nat).
  { rewrite Hk, after_request_script, Hs, !length_drop. simpl. lia. }
  destruct b.
  - destruct (IH w2 ltac:(lia)) as [H1 H2]. rewrite Hrun in H1, H2. simpl in *.
    split; [lia | exact H2].
  - unfold bind, throw in Hrun.
    destruct (has_status e 400 || has_status e 404); inversion Hrun; subst; simpl;
      (split; [lia | discriminate]).
Qed.

Lemma only_saveChat fuel chat : only fuel (λ _, True) (saveChat fuel chat).
Proof.
  intros w Hw. destruct (saveChat_ends fuel chat w Hw) as [H1 H2].
  unfold fits in *. split; [lia|]. destruct (saveChat fuel chat w).1; auto.
Qed.

(** ** The polling loop (C6) *)

(** Membership in an explicit list of texts. *)
Ltac in_list :=
  cbv beta in *;
  repeat match goal with
         | H : _ ∈ _ |- _ => apply list_elem_of_In in H; simpl in H
         end;
  apply list_elem_of_In; simpl; intuition (subst; auto).

Lemma sleep_spec ms w :
  ∃ w', sleep ms w = (Ret (), w') ∧ pb w' = pb w ∧ clock w + ms ≤ clock w'.
Proof.
  unfold sleep. destruct (lag svc (env w)) as [d e1]. eexists. split; [reflexivity|].
  simpl. split; [reflexivity | lia].
Qed.

Lemma call_spec {A} (op : E → Answer A * E) w :
  ∃ w', call op w = (match (op (env w)).1 with
                     | Answered a => Ret a
                     | Failed e => Throw e
                     end, w')
        ∧ pb w' = pb w ∧ clock w ≤ clock w'.
Proof.
  unfold call. destruct (op (env w)) as [r e1]. destruct (lag svc e1) as [d e2].
  eexists. split; [reflexivity|]. simpl. split; [reflexivity | lia].
Qed.





Lemma only_media_getOne fuel i : only fuel (λ _, True) (media_getOne i).
Proof.
  intros w Hw. known_world w. unfold fits, media_getOne in *. simpl in *.
  destruct sc as [|[e|] rest]; run_store; try destruct (List.find _ md);
    simpl in *; split; auto; lia.
Qed.

Lemma only_getMediaRecord fuel i : only fuel (λ _, True) (getMediaRecord i).
Proof.
  unfold getMediaRecord. apply only_try_catch.
  - eapply only_bind; [apply only_media_getOne|]. intros r _. apply only_ret; exact I.
  - intros e. eapply only_bind; [apply only_log|]. intros _ _. apply only_ret; exact I.
Qed.

Lemma only_getFileToken fuel : only fuel (λ _, True) getFileToken.
Proof.
  unfold getFileToken. eapply only_bind; [apply only_request|].
  intros _ _. apply only_ret; exact I.
Qed.



Lemma returns_ret {A} fuel (P : A → Prop) a : P a → returns fuel P (ret a).
Proof. intros Ha w Hw. split; [assumption | eauto]. Qed.

Lemma returns_bind {A B} fuel (PA : A → Prop) (P : B → Prop) (m : M A) (k : A → M B) :
  returns fuel PA m → (∀ a, PA a → returns fuel P (k a)) → returns fuel P (bind m k).
Proof.
  intros Hm Hk w Hw. unfold bind. destruct (Hm w Hw) as [Hfit (a & Ha & HP)].
  destruct (m w) as [r w1]. simpl in *. subst r. apply Hk; assumption.
Qed.

Lemma returns_log fuel line : returns fuel (λ _, True) (log line).
Proof. intros w Hw. split; [exact Hw | eauto]. Qed.

(** A [try] whose handlers return does not throw. *)
Lemma returns_try_catch {A} fuel (P : A → Prop) (m : M A) (h : Exn → M A) :
  only fuel P m → (∀ e, returns fuel P (h e)) → returns fuel P (try_catch m h).
Proof.
  intros Hm Hh w Hw. unfold try_catch. destruct (Hm w Hw) as [Hfit Hout].
  destruct (m w) as [[a|e|] w1]; simpl in *.
  - split; [assumption | eauto].
  - apply Hh; assumption.
  - contradiction.
Qed.

(** A [try] around a computation that returns is that computation. *)
Lemma returns_try_catch_body {A} fuel (P : A → Prop) (m : M A) (h : Exn → M A) :
  returns fuel P m → returns fuel P (try_catch m h).
Proof.
  intros Hm w Hw. unfold try_catch. destruct (Hm w Hw) as [Hfit (a & Ha & HP)].
  destruct (m w) as [r w1]. simpl in *. subst r. split; [assumption | eauto].
Qed.



Lemma getAIResponse_never_throws fuel message threadId :
  never_throws (getAIResponse fuel message threadId).
Proof.
  unfold getAIResponse. apply try_catch_never_throws. intros e w e'. discriminate.
Qed.



(** ** The fallbacks of the responder (C5) *)

(** C5, as amended: [getAIResponse] never throws; an exception out of
    the text path (thread creation, run submission, polling) is
    answered with the fixed apology, whereas an exception in the image
    path (media retrieval, vision, or the text path run for the
    description) is caught inside [handleImageMessage] and answered with
    'Не удалось получить изображение из хранилища.', and one in the
    audio path (media retrieval, conversion, transcription, or the text
    path run for the transcript) inside [handleAudioMessage] with
    'Произошла ошибка при обработке аудиосообщения.'. *)
Theorem getAIResponse_catches (fuel : nat) (message : Message.t)
    (threadId : option string) (w : World E) :
  (∀ e, (getAIResponse fuel message threadId w).1 ≠ Throw e)
  ∧ (Message.type message = Text →
     ∀ e w', handleTextMessage fuel message threadId w = (Throw e, w') →
             (getAIResponse fuel message threadId w).1 = Ret apology)
  ∧ (Message.type message = Image →
     truthy (Message.mediaFileId message) = true →
     ∀ e w', describeImage fuel message (log "Processing image message" w).2
             = (Throw e, w') →
             (getAIResponse fuel message threadId w).1
             = Ret "Не удалось получить изображение из хранилища.")
  ∧ (Message.type message = Voice ∨ Message.type message = Audio →
     truthy (Message.mediaFileId message) = true →
     ∀ e w', transcribeAudio fuel message (log "Processing audio message" w).2
             = (Throw e, w') →
             (getAIResponse fuel message threadId w).1
             = Ret "Произошла ошибка при обработке аудиосообщения.").
Proof.
  split; [apply getAIResponse_never_throws|].
  split; [|split].
  - intros Ht e w' H. unfold getAIResponse. rewrite Ht. unfold try_catch.
    rewrite H. reflexivity.
  - intros Ht Hm e w' H. unfold getAIResponse, handleImageMessage. rewrite Ht, Hm.
    simpl in H. unfold try_catch, bind, log. simpl. rewrite H. reflexivity.
  - intros Ht Hm e w' H. unfold getAIResponse, handleAudioMessage. rewrite Hm.
    simpl in H.
    destruct Ht as [Ht|Ht]; rewrite Ht; unfold try_catch, bind, log; simpl;
      rewrite H; reflexivity.
Qed.

(** ** The thread handle on the text path (C4) *)

Lemma poll_same_pb fuel threadId runId start st :
  stable same_pb (poll fuel threadId runId start st).
Proof.
  revert st. induction fuel as [|fuel IH]; intros st; cbn [poll]; stable_auto.
Qed.
#[local] Hint Resolve poll_same_pb : stable.

(** With a thread handle at hand, the text path neither creates a
    thread nor writes to the store: the handle of the chat stays. *)
Lemma handleTextMessage_keeps_store fuel message threadId :
  truthy threadId = true →
  stable same_pb (handleTextMessage fuel message threadId).
Proof.
  intros Ht. unfold handleTextMessage. rewrite Ht. stable_auto.
Qed.

(** ** Persistent failure of the store in [findOrCreateChat] (C7) *)

(** A rejection that is neither a session expiry nor a "not found" is
    logged and turned into [null]. *)
Lemma findOrCreateChat_persistent_failure fuel i source name w e rest :
  script (pb w) = Some e :: rest →
  has_status e 403 = false →
  has_status e 400 = false →
  has_status e 404 = false →
  findOrCreateChat fuel i source name w
  = (Ret None,
     logged ("Error in find chat for " +:+ source +:+ " sourceId " +:+ i +:+ ":")
            (after_request w)).
Proof.
  intros Hs H403 H400 H404.
  rewrite (findOrCreateChat_rejected _ _ _ _ _ _ _ Hs).
  unfold try_catch, bind at 1, expired_and_refreshed. rewrite H403.
  simpl. rewrite H400, H404. reflexivity.
Qed.

(** The Telegram text handler reads [chat.id] without a check: when
    [findOrCreateChat] has returned [null], it throws and saves
    nothing. *)
Lemma handleTgTextMessage_throws_on_null fuel ctx m w e rest :
  Context.message ctx = Some m →
  truthy (TgMessage.text m) = true →
  script (pb w) = Some e :: rest →
  has_status e 403 = false →
  has_status e 400 = false →
  has_status e 404 = false →
  ∃ w', handleTgTextMessage fuel ctx w
        = (Throw (TypeError "null is not an object (evaluating 'chat.id')"), w')
        ∧ messages (pb w') = messages (pb w).
Proof.
  intros Hm Ht Hs H403 H400 H404. unfold handleTgTextMessage. rewrite Hm, Ht. simpl.
  unfold bind at 1.
  rewrite (findOrCreateChat_persistent_failure _ _ _ _ _ _ _ Hs H403 H400 H404).
  eexists. split; [reflexivity|]. reflexivity.
Qed.

(** For an image, voice or audio message the handle that the adapter
    passes to [getAIResponse] is not used. *)
Lemma getAIResponse_ignores_thread_for_media fuel message threadId threadId' :
  Message.type message ≠ Text →
  getAIResponse fuel message threadId = getAIResponse fuel message threadId'.
Proof.
  intros Ht. unfold getAIResponse.
  destruct (Message.type message); first [reflexivity | contradiction Ht; reflexivity].
Qed.

(** ** Failed downloads in the Telegram adapter (C3) *)

(** When the download is refused or fails, the photo handler leaves the
    store as it was. *)
Lemma handleTgPhotoMessage_without_download fuel ctx :
  (∀ url e, match (fetch svc url e).1 with
            | Answered r => ok r = false
            | Failed _ => True
            end) →
  stable same_pb (handleTgPhotoMessage fuel ctx).
Proof.
  intros Hfetch w. unfold handleTgPhotoMessage.
  destruct (message_photo ctx) as [[m photoArray]|]; [|reflexivity].
  destruct (negb (chat_present ctx)); [reflexivity|].
  unfold try_catch.
  destruct (last photoArray) as [bestPhoto|]; [|reflexivity].
  unfold bind at 1, downloadTgFile. unfold bind at 1.
  destruct (call_spec (getFile svc (file_id bestPhoto)) w) as (w1 & Hcall1 & Hpb1 & _).
  rewrite Hcall1.
  destruct (getFile svc (file_id bestPhoto) (env w)).1 as [file_path|e];
    [|simpl; exact Hpb1].
  unfold bind at 1.
  match goal with
  | |- context [call (fetch svc ?url) w1] =>
      destruct (call_spec (fetch svc url) w1) as (w2 & Hcall2 & Hpb2 & _);
      rewrite Hcall2; pose proof (Hfetch url (env w1)) as Hr;
      destruct (fetch svc url (env w1)).1 as [r|e]
  end.
  - rewrite Hr. unfold same_pb, bind, throw, log. simpl. congruence.
  - unfold same_pb, bind, throw, log. simpl. congruence.
Qed.

(** ** What is persisted with which response mode (C9) *)

Lemma sendTelegramMessage_same_pb c t : stable same_pb (sendTelegramMessage c t).
Proof. unfold sendTelegramMessage. stable_auto. Qed.

Lemma sendBrevoMessage_same_pb v t : stable same_pb (sendBrevoMessage v t).
Proof. unfold sendBrevoMessage. stable_auto. Qed.

#[local] Hint Resolve sendTelegramMessage_same_pb sendBrevoMessage_same_pb : stable.

(** C9 (the part on the direct send API): the handler of
    [POST /api/messages] builds a message with [responseMode = Manual]
    but never hands it to the store: whatever the request and whatever
    the platforms answer, the collections are left as they were. *)
Theorem api_messages_persists_nothing (body : SendBody.t) (w : World E) :
  pb (api_messages body w).2 = pb w.
Proof.
  revert w. change (stable same_pb (api_messages body)).
  unfold api_messages. stable_auto.
Qed.

(** *** The automated replies *)

Lemma same_pb_same_messages {A} (m : M A) : stable same_pb m → stable same_messages m.
Proof. intros H w. unfold same_messages. rewrite (H w). reflexivity. Qed.

Lemma log_same_messages line : stable same_messages (log line).
Proof. apply same_pb_same_messages, log_same_pb. Qed.

Lemma Date_now_same_messages : stable same_messages Date_now.
Proof. apply same_pb_same_messages, Date_now_same_pb. Qed.

Lemma call_same_messages {A} (op : E → Answer A * E) : stable same_messages (call op).
Proof. apply same_pb_same_messages, call_same_pb. Qed.

Lemma poll_same_messages fuel threadId runId start st :
  stable same_messages (poll fuel threadId runId start st).
Proof. apply same_pb_same_messages, poll_same_pb. Qed.

(** The requests that do not write to the collection of messages. *)
Ltac same_messages_request :=
  let w := fresh "w" in
  intros w; known_world w; unfold same_messages;
  match goal with
  | answers : list (option Exn) |- _ => destruct answers as [|[?|] ?]
  end; run_store;
  repeat match goal with
         | |- context [List.find ?f ?l] => destruct (List.find f l); run_store
         end;
  reflexivity.

Lemma request_same_messages : stable same_messages request.
Proof. same_messages_request. Qed.

Lemma chats_getOne_same_messages i : stable same_messages (chats_getOne i).
Proof. unfold chats_getOne. same_messages_request. Qed.

Lemma chats_update_same_messages i chat : stable same_messages (chats_update i chat).
Proof. unfold chats_update. same_messages_request. Qed.

Lemma chats_create_same_messages chat : stable same_messages (chats_create chat).
Proof. unfold chats_create. same_messages_request. Qed.

Lemma media_getOne_same_messages i : stable same_messages (media_getOne i).
Proof. unfold media_getOne. same_messages_request. Qed.

Lemma expired_and_refreshed_same_messages e :
  stable same_messages (expired_and_refreshed e).
Proof.
  intros w. known_world w. unfold same_messages, expired_and_refreshed.
  destruct (has_status e 403); [|reflexivity].
  unfold handleAuthError, bind at 1, get_pb. simpl.
  destruct (_ && _); [|reflexivity].
  destruct sc as [|[e'|] rest]; run_store; reflexivity.
Qed.

#[local] Hint Resolve log_same_messages Date_now_same_messages call_same_messages
  poll_same_messages request_same_messages chats_getOne_same_messages
  chats_update_same_messages chats_create_same_messages media_getOne_same_messages
  expired_and_refreshed_same_messages : stable.

Lemma getChatById_same_messages fuel chatId :
  stable same_messages (getChatById fuel chatId).
Proof. induction fuel as [|fuel IH]; cbn [getChatById]; stable_auto. Qed.

Lemma saveChat_same_messages fuel chat : stable same_messages (saveChat fuel chat).
Proof. induction fuel as [|fuel IH]; cbn [saveChat]; stable_auto. Qed.

#[local] Hint Resolve getChatById_same_messages saveChat_same_messages : stable.

Lemma handleTextMessage_same_messages fuel message threadId :
  stable same_messages (handleTextMessage fuel message threadId).
Proof. unfold handleTextMessage. stable_auto. Qed.
#[local] Hint Resolve handleTextMessage_same_messages : stable.

Lemma getAIResponse_same_messages fuel message threadId :
  stable same_messages (getAIResponse fuel message threadId).
Proof.
  unfold getAIResponse, handleImageMessage, handleAudioMessage, describeImage,
    transcribeAudio, getFileToken, getMediaRecord, getFileUrl.
  stable_auto.
Qed.

(** [saveMessage] appends the message it returns, with the fields it
    was given, or leaves the messages as they were. *)
Lemma saveMessage_spec msg w :
  (∃ i, saveMessage msg w
        = (Ret (Message.with_id i msg), (saveMessage msg w).2)
        ∧ messages (pb (saveMessage msg w).2)
          = messages (pb w) ++ [Message.with_id i msg])
  ∨ ((∀ r, (saveMessage msg w).1 ≠ Ret r)
     ∧ messages (pb (saveMessage msg w).2) = messages (pb w)).
Proof.
  known_world w. unfold saveMessage, messages_create.
  destruct sc as [|[e|] rest]; run_store.
  - left. eexists. split; reflexivity.
  - right. destruct (has_status e 400); simpl; split; try reflexivity;
      intros r; discriminate.
  - left. eexists. split; reflexivity.
Qed.

Lemma try_catch_log_messages {A} (m : M A) (h : Exn → M A) w :
  (∀ e, stable same_messages (h e)) →
  messages (pb (try_catch m h w).2) = messages (pb (m w).2).
Proof.
  intros Hh. unfold try_catch. destruct (m w) as [[a|e|] w1]; try reflexivity.
  apply Hh.
Qed.

(** Every message that [handleOpenAI] persists is an outgoing message
    with [responseMode = Auto]. *)
Lemma handleOpenAI_persists_auto fuel message platformChatId threadId w :
  messages (pb (handleOpenAI fuel message platformChatId threadId w).2)
  = messages (pb w)
  ∨ ∃ r, messages (pb (handleOpenAI fuel message platformChatId threadId w).2)
         = messages (pb w) ++ [r]
         ∧ Message.isIncoming r = false
         ∧ Message.responseMode r = Auto.
Proof.
  remember (messages (pb (handleOpenAI fuel message platformChatId threadId w).2))
    as result eqn:Hres.
  unfold handleOpenAI in Hres.
  rewrite try_catch_log_messages in Hres by (intros e; apply log_same_messages).
  unfold bind at 1 in Hres.
  pose proof (getAIResponse_same_messages fuel message threadId w) as H1.
  unfold same_messages in H1.
  destruct (getAIResponse fuel message threadId w) as [[res|e|] w1]; simpl in H1;
    [|left; simpl in Hres; congruence|left; simpl in Hres; congruence].
  unfold bind at 1, Date_now in Hres. unfold bind at 1 in Hres.
  match type of Hres with
  | context [saveMessage ?msg w1] =>
      destruct (saveMessage_spec msg w1) as [(i & Hrun & Hsaved) | (Hno & Hsame)];
      set (m := msg) in *
  end.
  - rewrite Hrun in Hres. set (w2 := (saveMessage m w1).2) in *. cbv beta iota in Hres.
    right. exists (Message.with_id i m).
    split; [|split; reflexivity].
    rewrite Hres, <- H1, <- Hsaved.
    match goal with
    | |- messages (pb (?k w2).2) = _ =>
        apply (same_pb_same_messages k); stable_auto
    end.
  - left. destruct (saveMessage m w1) as [[r|e|] w2]; simpl in *.
    + exfalso. apply (Hno r). reflexivity.
    + congruence.
    + congruence.
Qed.

(** * Further properties of the code *)

(** ** The store gateway: failures that are not retried *)

Lemma getMessageById_rejected n p sid w e rest :
  script (pb w) = Some e :: rest →
  getMessageById n p sid w =
  bind (expired_and_refreshed e)
    (λ again : bool,
       if again then
         match n with
         | O => diverge
         | S n' => getMessageById n' p sid
         end
       else if has_status e 400 || has_status e 404 then ret None
       else throw e)
    (after_request w).
Proof.
  intros Hs. known_world w. destruct n; cbn [getMessageById]; reflexivity.
Qed.

Lemma getChats_rejected n src limit w e rest :
  script (pb w) = Some e :: rest →
  getChats n src limit w =
  bind (expired_and_refreshed e)
    (λ again : bool,
       if again then
         match n with
         | O => diverge
         | S n' => getChats n' src limit
         end
       else throw e)
    (after_request w).
Proof.
  intros Hs. known_world w. destruct n; cbn [getChats]; reflexivity.
Qed.

(** [handleAuthError] declines: the status is not 403, the message is
    not the one of an expired session, or a re-authentication is under
    way. *)
Lemma expired_and_refreshed_declines e w :
  expired e && negb (authRetryInProgress (pb w)) = false →
  expired_and_refreshed e w = (Ret false, w).
Proof.
  unfold expired, expired_and_refreshed, handleAuthError.
  intros H. destruct (has_status e 403); [|reflexivity].
  unfold bind at 1, get_pb. simpl in *. rewrite H. reflexivity.
Qed.

(** The re-authentication is rejected: [handleAuthError] resets the
    module variable and answers [false]. *)
Lemma handleAuthError_refused w e e' rest :
  script (pb w) = Some e :: Some e' :: rest →
  expired e = true →
  authRetryInProgress (pb w) = false →
  expired_and_refreshed e (after_request w) = (Ret false, refused w).
Proof.
  intros Hs He Hf. expiry_facts He. known_world w. run_store. reflexivity.
Qed.

(** The outcomes of the five retrying functions once [handleAuthError]
    has answered [false] on a 403. *)
Lemma final_403 fuel w w' e rest p sid chat filter limit chatId i source name :
  script (pb w) = Some e :: rest →
  has_status e 403 = true →
  expired_and_refreshed e (after_request w) = (Ret false, w') →
  getMessageById fuel p sid w = (Throw e, w')
  ∧ saveChat fuel chat w = (Throw e, w')
  ∧ getChats fuel filter limit w = (Throw e, w')
  ∧ getChatById fuel chatId w
    = (Ret None, logged ("Failed to get chat: " +:+ chatId) w')
  ∧ findOrCreateChat fuel i source name w
    = (Ret None,
       logged ("Error in find chat for " +:+ source +:+ " sourceId " +:+ i +:+ ":") w').
Proof.
  intros Hs H403 Hdec.
  pose proof (status_403_only _ 400 H403 ltac:(lia)) as H400.
  pose proof (status_403_only _ 404 H403 ltac:(lia)) as H404.
  repeat split.
  - rewrite (getMessageById_rejected _ _ _ _ _ _ Hs). unfold bind. rewrite Hdec.
    rewrite H400, H404. reflexivity.
  - rewrite (saveChat_rejected _ _ _ _ _ Hs). unfold bind at 1. rewrite Hdec.
    rewrite H400, H404. reflexivity.
  - rewrite (getChats_rejected _ _ _ _ _ _ Hs). unfold bind. rewrite Hdec. reflexivity.
  - rewrite (getChatById_rejected _ _ _ _ _ Hs). unfold bind at 1. rewrite Hdec.
    reflexivity.
  - rewrite (findOrCreateChat_rejected _ _ _ _ _ _ _ Hs).
    unfold try_catch, bind at 1. rewrite Hdec. rewrite H400, H404. reflexivity.
Qed.

(** X1: a 403 that [handleAuthError] does not take for a session expiry
    (its message lacks 'perform this action', or a re-authentication is
    already under way) is final at the first request: nothing is
    re-authenticated, [getMessageById], [saveChat] and [getChats]
    rethrow it, [getChatById] and [findOrCreateChat] log and return
    [null]. *)
Theorem unrecognised_403_is_final (fuel : nat) (w : World E) (e : Exn)
    (rest : list (option Exn)) (platformMessageId senderId : string)
    (chat : Chat.t) (filter : option string) (limit : nat) (chatId id : string)
    (source : MessageSource) (name : option string) :
  script (pb w) = Some e :: rest →
  has_status e 403 = true →
  expired e && negb (authRetryInProgress (pb w)) = false →
  getMessageById fuel platformMessageId senderId w = (Throw e, after_request w)
  ∧ saveChat fuel chat w = (Throw e, after_request w)
  ∧ getChats fuel filter limit w = (Throw e, after_request w)
  ∧ getChatById fuel chatId w
    = (Ret None, logged ("Failed to get chat: " +:+ chatId) (after_request w))
  ∧ findOrCreateChat fuel id source name w
    = (Ret None,
       logged ("Error in find chat for " +:+ source +:+ " sourceId " +:+ id +:+ ":")
              (after_request w))
  ∧ authCalls (pb (after_request w)) = authCalls (pb w).
Proof.
  intros Hs H403 Hno.
  assert (Hdec : expired_and_refreshed e (after_request w) = (Ret false, after_request w))
    by (apply expired_and_refreshed_declines; exact Hno).
  pose proof (final_403 fuel w _ e rest platformMessageId senderId chat filter limit
                chatId id source name Hs H403 Hdec) as H.
  repeat split; try apply H.
Qed.

(** X2: when the session has expired and the silent re-authentication
    is rejected as well, the retrying functions give up after these two
    requests: the module variable is reset, the error of the
    re-authentication is dropped, and the first rejection is what
    [getMessageById], [saveChat] and [getChats] throw, while
    [getChatById] and [findOrCreateChat] return [null]. *)
Theorem rejected_reauthentication_is_final (fuel : nat) (w : World E) (e e' : Exn)
    (rest : list (option Exn)) (platformMessageId senderId : string)
    (chat : Chat.t) (filter : option string) (limit : nat) (chatId id : string)
    (source : MessageSource) (name : option string) :
  script (pb w) = Some e :: Some e' :: rest →
  expired e = true →
  authRetryInProgress (pb w) = false →
  getMessageById fuel platformMessageId senderId w = (Throw e, refused w)
  ∧ saveChat fuel chat w = (Throw e, refused w)
  ∧ getChats fuel filter limit w = (Throw e, refused w)
  ∧ getChatById fuel chatId w
    = (Ret None, logged ("Failed to get chat: " +:+ chatId) (refused w))
  ∧ findOrCreateChat fuel id source name w
    = (Ret None,
       logged ("Error in find chat for " +:+ source +:+ " sourceId " +:+ id +:+ ":")
              (refused w))
  ∧ authCalls (pb (refused w)) = S (authCalls (pb w))
  ∧ requests (pb (refused w)) = S (S (requests (pb w)))
  ∧ authRetryInProgress (pb (refused w)) = false
  ∧ script (pb (refused w)) = rest.
Proof.
  intros Hs He Hf.
  pose proof (handleAuthError_refused _ _ _ _ Hs He Hf) as Hdec.
  pose proof (final_403 fuel w _ e (Some e' :: rest) platformMessageId senderId chat
                filter limit chatId id source name Hs (expired_status _ He) Hdec) as H.
  repeat split; try apply H.
  simpl. rewrite Hs. reflexivity.
Qed.

(** ** The store gateway: which functions throw *)

Lemma getChatById_never_throws fuel chatId : never_throws (getChatById fuel chatId).
Proof.
  induction fuel as [|n IH]; cbn [getChatById];
    apply try_catch_never_throws; intros e w e0;
    unfold bind at 1;
    destruct (expired_and_refreshed_spec e w) as (b & w' & -> & _);
    destruct b; try discriminate; try apply IH.
Qed.

Lemma getMediaRecord_never_throws i : never_throws (getMediaRecord i).
Proof.
  unfold getMediaRecord. apply try_catch_never_throws. intros e w e0. discriminate.
Qed.

Lemma sendBrevoMessage_never_throws v t : never_throws (sendBrevoMessage v t).
Proof.
  unfold sendBrevoMessage. apply try_catch_never_throws. intros e w e0. discriminate.
Qed.

Lemma saveMessage_rejected msg w e rest :
  script (pb w) = Some e :: rest →
  saveMessage msg w
  = (Throw e, if has_status e 400
              then logged "Unable to save message" (after_request w)
              else after_request w).
Proof.
  intros Hs. known_world w. unfold saveMessage, messages_create.
  run_store. destruct (has_status e 400); reflexivity.
Qed.

Lemma saveMediaFile_rejected fileData filename contentType platform w e rest :
  script (pb w) = Some e :: rest →
  saveMediaFile fileData filename contentType platform w
  = (Throw e, if has_status e 400 || has_status e 404
              then logged "Unable to save file" (after_request w)
              else after_request w).
Proof.
  intros Hs. known_world w. unfold saveMediaFile, media_create.
  run_store. destruct (has_status e 400 || has_status e 404); reflexivity.
Qed.

(** X4: [saveMessage], [saveMediaFile], [updateResponseMode] and
    [getFileToken] make one attempt: whatever the rejection, a session
    expiry included, it is thrown to the caller after one request,
    without re-authentication, and nothing is stored. *)
Theorem writes_rethrow_every_rejection (w : World E) (e : Exn)
    (rest : list (option Exn)) (msg : Message.t)
    (fileData filename contentType platform chatId : string) (autoMode : bool) :
  script (pb w) = Some e :: rest →
  let after {A} (m : M A) :=
    (m w).1 = Throw e
    ∧ chats (pb (m w).2) = chats (pb w)
    ∧ messages (pb (m w).2) = messages (pb w)
    ∧ media (pb (m w).2) = media (pb w)
    ∧ requests (pb (m w).2) = S (requests (pb w))
    ∧ authCalls (pb (m w).2) = authCalls (pb w) in
  after (saveMessage msg)
  ∧ after (saveMediaFile fileData filename contentType platform)
  ∧ after (updateResponseMode chatId autoMode)
  ∧ after getFileToken.
Proof.
  intros Hs after. subst after. cbv beta.
  rewrite (saveMessage_rejected _ _ _ _ Hs),
    (saveMediaFile_rejected _ _ _ _ _ _ _ Hs).
  split; [destruct (has_status e 400); repeat split|].
  split; [destruct (has_status e 400 || has_status e 404); repeat split|].
  known_world w. unfold updateResponseMode, getFileToken. run_store.
  repeat split.
Qed.

(** ** The store gateway: what has been saved is found *)

Lemma find_app_new {A} (f : A → bool) l x :
  List.find f l = None → f x = true → List.find f (l ++ [x]) = Some x.
Proof.
  induction l as [|a l IH]; simpl; intros Hn Hx.
  - rewrite Hx. reflexivity.
  - destruct (f a); [discriminate|]. auto.
Qed.

Lemma find_replace_chat i r l c0 :
  List.find (λ c, bool_decide (Chat.id c = Some i)) l = Some c0 →
  Chat.id r = Some i →
  List.find (λ c, bool_decide (Chat.id c = Some i)) (replace_chat i r l) = Some r.
Proof.
  intros Hf Hr. induction l as [|a l IH]; simpl in *; [discriminate|].
  destruct (bool_decide (Chat.id a = Some i)) eqn:Ha.
  - simpl. rewrite Hr, bool_decide_eq_true_2; reflexivity.
  - simpl. rewrite Ha. auto.
Qed.

(** X5: round trip of a message through the store.  While no stored
    message has the platform id and sender of [msg], [getMessageById]
    returns [null]; once [saveMessage] has stored it, [getMessageById]
    returns the id that [saveMessage] returned. *)
Theorem saved_message_is_found (fuel : nat) (msg : Message.t) (p : string)
    (w : World E) :
  served w →
  served (after_request w) →
  Message.platformMessageId msg = Some p →
  find_message p (Message.senderId msg) (pb w) = None →
  getMessageById fuel p (Message.senderId msg) w = (Ret None, after_request w)
  ∧ ∃ r w1 w2,
      saveMessage msg w = (Ret r, w1)
      ∧ Message.id r = Some (fresh_id (pb w))
      ∧ messages (pb w1) = messages (pb w) ++ [r]
      ∧ getMessageById fuel p (Message.senderId msg) w1 = (Ret (Message.id r), w2).
Proof.
  intros Hs1 Hs2 Hp Hnone.
  destruct msg as [mi mp src cid ty cont mf inc ts sid sn rm]. simpl in Hp. subst mp.
  unfold find_message in Hnone. simpl in Hnone.
  known_world w. unfold served in *. simpl in *.
  pose proof (find_app_new _ ms
                (Message.mk (Some ("rec" +:+ pretty ni))
                   (Some p) src cid ty cont mf inc ts sid sn rm) Hnone) as Hfound.
  simpl in Hfound. rewrite bool_decide_eq_true_2, String.eqb_refl in Hfound by reflexivity.
  specialize (Hfound eq_refl).
  destruct sc as [|[?|] sc]; [| contradiction |];
    [| destruct sc as [|[?|] sc]; [| contradiction |]];
    (split;
     [ destruct fuel; cbn [getMessageById]; unfold messages_getFirstListItem;
       run_store; rewrite Hnone; run_store; reflexivity
     | eexists _, _, _; unfold saveMessage, messages_create; run_store;
       split; [reflexivity|]; split; [reflexivity|]; split; [reflexivity|];
       destruct fuel; cbn [getMessageById]; unfold messages_getFirstListItem;
       run_store; unfold Message.with_id, fresh_id; simpl; rewrite Hfound;
       reflexivity ]).
Qed.

(** X6: [saveChat] of a chat that carries an id updates the stored chat
    of that id, and the chat comes back from [getChatById]; the number
    of stored chats is unchanged.  When no stored chat has the id, the
    store's 404 is logged as 'Unable to save chat' and thrown, and no
    chat is created. *)
Theorem saved_chat_is_found (fuel : nat) (chat : Chat.t) (i : string)
    (w : World E) :
  served w →
  served (after_request w) →
  Chat.id chat = Some i →
  i ≠ "" →
  match find_chat_by_id i (pb w) with
  | Some _ =>
      ∃ w1 w2,
        saveChat fuel chat w = (Ret chat, w1)
        ∧ chats (pb w1) = replace_chat i chat (chats (pb w))
        ∧ getChatById fuel i w1 = (Ret (Some chat), w2)
  | None =>
      saveChat fuel chat w
      = (Throw not_found, logged "Unable to save chat" (after_request w))
  end.
Proof.
  intros Hs1 Hs2 Hid Hne.
  destruct chat as [ci cp cs cn cu ca ct]. simpl in Hid. subst ci.
  assert (Ht : String.eqb i "" = false) by (apply String.eqb_neq; exact Hne).
  unfold find_chat_by_id.
  destruct (List.find _ (chats (pb w))) as [c0|] eqn:Hfind.
  - pose proof (find_replace_chat i (Chat.mk (Some i) cp cs cn cu ca ct) _ _ Hfind eq_refl)
      as Hfound.
    known_world w. unfold served in *. simpl in *.
    destruct sc as [|[?|] sc]; [| contradiction |];
      [| destruct sc as [|[?|] sc]; [| contradiction |]];
      (eexists _, _;
       split; [destruct fuel; cbn [saveChat]; unfold truthy, chats_update; simpl;
               rewrite Ht; run_store; rewrite Hfind; run_store; reflexivity|];
       split; [reflexivity|];
       destruct fuel; cbn [getChatById]; unfold chats_getOne; run_store;
       unfold Chat.with_id; simpl; rewrite Hfound; reflexivity).
  - known_world w. unfold served in *. simpl in *.
    destruct sc as [|[?|] sc]; [| contradiction |];
      destruct fuel; cbn [saveChat]; unfold truthy, chats_update; simpl;
      rewrite Ht; run_store; rewrite Hfind; run_store; reflexivity.
Qed.

(** ** The store gateway: chats by platform id *)

(** X7: [findOrCreateChat] looks a chat up by its platform id alone.  A
    stored chat with that platform id is returned as it is, whatever
    [source] and [name] the caller passes: a chat created for one
    platform answers the lookup of another platform that uses the same
    id, and no chat is created. *)
Theorem findOrCreateChat_ignores_source (fuel : nat) (id : string)
    (source : MessageSource) (name : option string) (w : World E) (c : Chat.t) :
  served w →
  find_chat id (pb w) = Some c →
  findOrCreateChat fuel id source name w = (Ret (Some c), after_request w)
  ∧ chats (pb (after_request w)) = chats (pb w).
Proof.
  intros Hs Hf. rewrite (findOrCreateChat_served _ _ _ _ _ Hs), Hf.
  split; reflexivity.
Qed.

(** X8: when no stored chat has the platform id, [findOrCreateChat]
    stores exactly one new chat and returns it: manual mode
    ([autoMode] false), an empty assistant thread, the caller's source,
    the name or 'Unknown' when the name is missing or empty, stamped
    with the current time, under a fresh id. *)
Theorem findOrCreateChat_new_chat (fuel : nat) (id : string)
    (source : MessageSource) (name : option string) (w : World E) :
  served w →
  served (after_request w) →
  find_chat id (pb w) = None →
  ∃ c w',
    findOrCreateChat fuel id source name w = (Ret (Some c), w')
    ∧ chats (pb w') = chats (pb w) ++ [c]
    ∧ Chat.id c = Some (fresh_id (pb w))
    ∧ Chat.platformChatId c = Some id
    ∧ Chat.source c = source
    ∧ Chat.name c = or_else name "Unknown"
    ∧ Chat.updated c = clock w
    ∧ Chat.autoMode c = false
    ∧ Chat.openAIThreadId c = Some ""
    ∧ messages (pb w') = messages (pb w)
    ∧ requests (pb w') = S (S (requests (pb w))).
Proof.
  intros Hs1 Hs2 Hf.
  rewrite (findOrCreateChat_served _ _ _ _ _ Hs1), Hf.
  unfold try_catch, bind at 1, Date_now. unfold bind at 1.
  rewrite (saveChat_creates fuel
             (new_chat id source name (clock (after_request w)))
             (after_request w) eq_refl Hs2).
  eexists _, _. split; [reflexivity|].
  known_world w. simpl. repeat split.
Qed.

(** ** The responder: the polling loop and the replies *)

(** The loop is left within [timeout / poll_interval + 1] rounds,
    whatever the statuses that the run goes through. *)
Lemma poll_ends fuel threadId runId start st w :
  timeout < (clock w - start) + poll_interval * Z.of_nat fuel →
  ∃ o w', poll fuel threadId runId start st w = (o, w')
          ∧ o ≠ Diverge ∧ pb w' = pb w.
Proof.
  revert st w. unfold timeout, poll_interval.
  induction fuel as [|fuel IH]; intros st w Hclk.
  all: cbn [poll]; destruct (String.eqb st "completed");
    [eexists _, _; split; [reflexivity|]; split; [discriminate|reflexivity]|].
  all: destruct (terminal st);
    [eexists _, _; split; [reflexivity|]; split; [discriminate|reflexivity]|].
  all: unfold bind at 1, Date_now, timeout.
  all: destruct (Z.ltb_spec 30000 (clock w - start)) as [Hlate|Hearly];
    [eexists _, _; split; [reflexivity|]; split; [discriminate|reflexivity]|].
  - lia.
  - unfold bind at 1, poll_interval.
    destruct (sleep_spec 1000 w) as (w1 & Hsleep & Hpb1 & Hclk1). rewrite Hsleep.
    unfold bind at 1.
    destruct (call_spec (threads_runs_retrieve svc threadId runId) w1)
      as (w2 & Hcall & Hpb2 & Hclk2).
    rewrite Hcall.
    destruct (threads_runs_retrieve svc threadId runId (env w1)).1 as [next|e].
    + destruct (IH next w2) as (o & w' & Hrun & Hend & Hpb); [lia|].
      rewrite Hrun. exists o, w'. split; [reflexivity|]. split; [exact Hend | congruence].
    + eexists _, _. split; [reflexivity|]. split; [discriminate | congruence].
Qed.

Lemma only_poll_any {A} fuel threadId runId st (k : unit → M A) (P : A → Prop) :
  (31 ≤ fuel)%nat →
  (∀ u, only fuel P (k u)) →
  only fuel P
    (bind Date_now (λ startTime, bind (poll fuel threadId runId startTime st) k)).
Proof.
  intros Hfuel Hk w Hw. unfold bind at 1, Date_now. unfold bind.
  destruct (poll_ends fuel threadId runId (clock w) st w) as (o & w' & Hrun & Hend & Hpb).
  { unfold timeout, poll_interval. lia. }
  rewrite Hrun. destruct o as [[]|e|]; simpl in *.
  - apply Hk. unfold fits in *. rewrite Hpb. exact Hw.
  - unfold fits in *. rewrite Hpb. split; [exact Hw | exact I].
  - contradiction.
Qed.

Lemma handleTextMessage_ends fuel message threadId :
  (31 ≤ fuel)%nat →
  only fuel (λ _, True) (handleTextMessage fuel message threadId).
Proof.
  intros Hfuel. unfold handleTextMessage.
  destruct (OPENAI_ASSISTANT_ID cfg) as [assistantId|]; [|apply only_throw].
  destruct (String.eqb assistantId ""); [apply only_throw|].
  eapply only_bind with (PA := λ _, True).
  { destruct (truthy threadId); [apply only_ret; exact I|].
    eapply only_bind; [apply only_call|]. intros thread _.
    eapply only_bind; [apply only_getChatById|]. intros [c|] _; [|apply only_throw].
    eapply only_bind; [apply only_saveChat|]. intros _ _.
    eapply only_bind; [apply only_log|]. intros _ _. apply only_ret; exact I. }
  intros th _.
  eapply only_bind; [apply only_call|]. intros _ _.
  eapply only_bind; [apply only_call|]. intros run _.
  eapply only_bind; [apply only_call|]. intros st _.
  apply only_poll_any; [assumption|]. intros _.
  eapply only_bind; [apply only_call|]. intros data _.
  destruct data as [|first rest]; [apply only_throw|].
  destruct (negb _); [apply only_throw|].
  destruct (parts first) as [|[v|kind] ps];
    [apply only_throw | apply only_ret; exact I | apply only_throw].
Qed.

Lemma handleTextMessage_unconfigured fuel message threadId :
  unconfigured →
  handleTextMessage fuel message threadId
  = throw (Error "OPENAI_ASSISTANT_ID is not defined in environment").
Proof.
  unfold handleTextMessage. intros [-> | ->]; reflexivity.
Qed.

(** The replies of [getAIResponse], given what the text path can do:
    [Q] holds whenever [handleTextMessage] returns. *)
Section Replies.
Variable fuel : nat.
Variable Q : Prop.
Hypothesis text_path :
  ∀ message threadId, only fuel (λ _, Q) (handleTextMessage fuel message threadId).

Lemma describeImage_only message :
  only fuel (λ s, s = "Ошибка доступа к файлу." ∨ Q) (describeImage fuel message).
Proof.
  unfold describeImage.
  eapply only_bind; [apply only_getFileToken|]. intros fileToken _.
  eapply only_bind; [apply only_getMediaRecord|]. intros [rec|] _; [|apply only_throw].
  eapply only_bind with (PA := λ _, True); [apply only_ret; exact I|]. intros url _.
  eapply only_bind; [apply only_call|]. intros response _.
  destruct (negb (ok response)).
  - eapply only_bind; [apply only_log|]. intros _ _. apply only_ret; left; reflexivity.
  - cbv zeta. eapply only_bind; [apply only_call|]. intros visionResponse _.
    eapply only_bind; [apply text_path|].
    intros a Ha. apply only_ret. right. exact Ha.
Qed.

Lemma transcribeAudio_only message :
  only fuel (λ s, s ∈ ["Ошибка доступа к аудиофайлу."; "Не удалось распознать аудио.";
                       "Не удалось распознать текст в аудиосообщении."] ∨ Q)
    (transcribeAudio fuel message).
Proof.
  unfold transcribeAudio.
  eapply only_bind; [apply only_getFileToken|]. intros fileToken _.
  eapply only_bind; [apply only_getMediaRecord|]. intros [rec|] _; [|apply only_throw].
  eapply only_bind with (PA := λ _, True); [apply only_ret; exact I|]. intros url _.
  eapply only_bind; [apply only_call|]. intros response _.
  destruct (negb (ok response)).
  - eapply only_bind; [apply only_log|]. intros _ _. apply only_ret. left. in_list.
  - cbv zeta. eapply only_bind with (PA := λ _, True).
    { destruct (String.eqb _ _).
      - eapply only_bind; [apply only_call|]. intros mp3 _. apply only_ret; exact I.
      - apply only_ret; exact I. }
    intros upload _.
    eapply only_bind; [apply only_call|]. intros tr _.
    destruct (negb (transcription_ok tr)).
    + eapply only_bind; [apply only_log|]. intros _ _. apply only_ret. left. in_list.
    + destruct (_ || _).
      * apply only_ret. left. in_list.
      * eapply only_bind; [apply text_path|].
        intros a Ha. apply only_ret. right. exact Ha.
Qed.

Lemma handleImageMessage_replies message :
  returns fuel (λ s, s ∈ fallbacks Image ∨ Q) (handleImageMessage fuel message).
Proof.
  unfold handleImageMessage. apply returns_try_catch_body.
  destruct (negb _); [apply returns_ret; left; in_list|].
  apply returns_try_catch.
  - eapply only_weaken; [|apply describeImage_only].
    intros s [-> | Hq]; [left; in_list | right; exact Hq].
  - intros e. eapply returns_bind; [apply returns_log|]. intros _ _.
    apply returns_ret. left. in_list.
Qed.

Lemma handleAudioMessage_replies message :
  returns fuel (λ s, s ∈ fallbacks Audio ∨ Q) (handleAudioMessage fuel message).
Proof.
  unfold handleAudioMessage. apply returns_try_catch_body.
  destruct (negb _); [apply returns_ret; left; in_list|].
  apply returns_try_catch.
  - eapply only_weaken; [|apply transcribeAudio_only].
    intros s [Hs | Hq]; [left; in_list | right; exact Hq].
  - intros e. eapply returns_bind; [apply returns_log|]. intros _ _.
    apply returns_ret. left. in_list.
Qed.

Lemma getAIResponse_replies message threadId :
  returns fuel (λ s, s ∈ fallbacks (Message.type message) ∨ Q)
    (getAIResponse fuel message threadId).
Proof.
  unfold getAIResponse.
  destruct (Message.type message).
  - apply returns_try_catch.
    + eapply only_weaken; [|apply text_path]. intros ? Hq. right. exact Hq.
    + intros e. eapply returns_bind; [apply returns_log|]. intros _ _.
      apply returns_ret. left. in_list.
  - apply returns_try_catch_body.
    eapply returns_bind; [apply returns_log|]. intros _ _.
    apply handleImageMessage_replies.
  - apply returns_try_catch_body.
    eapply returns_bind; [apply returns_log|]. intros _ _.
    apply handleAudioMessage_replies.
  - apply returns_try_catch_body.
    eapply returns_bind; [apply returns_log|]. intros _ _.
    apply handleAudioMessage_replies.
Qed.

End Replies.

Lemma getAIResponse_returns fuel message threadId :
  (31 ≤ fuel)%nat →
  returns fuel (λ _, True) (getAIResponse fuel message threadId).
Proof.
  intros Hfuel w Hw.
  destruct (getAIResponse_replies fuel True
              (λ m th, handleTextMessage_ends fuel m th Hfuel) message threadId w Hw)
    as [Hfit (s & Hs & _)].
  split; [exact Hfit | eauto].
Qed.

(** X9: the polling loop of [handleTextMessage] makes at most 31
    rounds, whatever the statuses the run goes through and however long
    the calls take: started at the current time, it returns or throws,
    and it leaves the store alone.  A run found 'failed', 'cancelled'
    or 'expired' ends it at once, without a further look at the
    clock or at the run. *)
Theorem polling_loop_is_bounded (fuel : nat) (threadId runId st : string)
    (w : World E) :
  (31 ≤ fuel)%nat →
  (poll fuel threadId runId (clock w) st w).1 ≠ Diverge
  ∧ pb (poll fuel threadId runId (clock w) st w).2 = pb w
  ∧ (terminal st = true →
     ∀ n start,
       poll n threadId runId start st w
       = (Throw (Error ("Run " +:+ runId +:+ " failed with status " +:+ st)), w)).
Proof.
  intros Hfuel.
  destruct (poll_ends fuel threadId runId (clock w) st w) as (o & w' & Hrun & Hend & Hpb).
  { unfold timeout, poll_interval. lia. }
  rewrite Hrun. split; [exact Hend|]. split; [exact Hpb|].
  intros Ht n start.
  assert (Hc : String.eqb st "completed" = false).
  { unfold terminal in Ht. destruct (String.eqb_spec st "completed") as [->|]; [|reflexivity].
    discriminate Ht. }
  destruct n; cbn [poll]; rewrite Hc, Ht; reflexivity.
Qed.

(** X10: [getAIResponse] always returns a text: for a message of any
    type, whatever the services and the store answer, it neither throws
    nor hangs, provided the store rejects no more requests in a row than
    the gateway is given retries. *)
Theorem getAIResponse_always_replies (fuel : nat) (message : Message.t)
    (threadId : option string) (w : World E) :
  (31 ≤ fuel)%nat →
  fits fuel w →
  ∃ s w', getAIResponse fuel message threadId w = (Ret s, w') ∧ fits fuel w'.
Proof.
  intros Hfuel Hw.
  destruct (getAIResponse_returns fuel message threadId Hfuel w Hw)
    as [Hfit (s & Hs & _)].
  exists s, (getAIResponse fuel message threadId w).2. split; [|exact Hfit].
  destruct (getAIResponse fuel message threadId w) as [r w']. simpl in *. congruence.
Qed.

(** X11: a message of type image, voice or audio without a stored media
    file is answered on the spot with the fixed text of its handler: no
    service is called and no request is sent to the store. *)
Theorem media_reference_missing (fuel : nat) (message : Message.t)
    (threadId : option string) (w : World E) :
  truthy (Message.mediaFileId message) = false →
  Message.type message ≠ Text →
  getAIResponse fuel message threadId w
  = match Message.type message with
    | Image => (Ret "Изображение не найдено.", logged "Processing image message" w)
    | _ => (Ret "Аудиофайл не найден.", logged "Processing audio message" w)
    end.
Proof.
  intros Hm Ht. unfold getAIResponse, handleImageMessage, handleAudioMessage.
  destruct (Message.type message); [congruence| | |];
    unfold try_catch, bind, log; rewrite Hm; reflexivity.
Qed.

(** X12: without the identifier of the assistant in the environment no
    message is ever answered by the assistant: a text message gets the
    apology at once, with no call and no request, and an image, voice
    or audio message gets one of the fallback texts of its handler. *)
Theorem assistant_not_configured (fuel : nat) (message : Message.t)
    (threadId : option string) (w : World E) :
  unconfigured →
  fits fuel w →
  (∃ s, (getAIResponse fuel message threadId w).1 = Ret s
        ∧ s ∈ fallbacks (Message.type message))
  ∧ (Message.type message = Text →
     getAIResponse fuel message threadId w
     = (Ret apology, logged "OpenAI Assistants API error:" w)).
Proof.
  intros Hu Hw. split.
  - assert (Htext : ∀ m th, only fuel (λ _, False) (handleTextMessage fuel m th)).
    { intros m th. rewrite (handleTextMessage_unconfigured _ _ _ Hu). apply only_throw. }
    destruct (getAIResponse_replies fuel False Htext message threadId w Hw)
      as [_ (s & Hs & [Hin | []])].
    eauto.
  - intros Ht. unfold getAIResponse. rewrite Ht.
    rewrite (handleTextMessage_unconfigured _ _ _ Hu). reflexivity.
Qed.

(** Stepping through a computation. *)
Lemma bind_call {A B} (op : E → Answer A * E) (k : A → M B) w :
  ∃ w', pb w' = pb w
        ∧ bind (call op) k w
          = match (op (env w)).1 with
            | Answered a => k a w'
            | Failed e => (Throw e, w')
            end.
Proof.
  destruct (call_spec op w) as (w' & Hc & Hpb & _). exists w'. split; [exact Hpb|].
  unfold bind. rewrite Hc. destruct (op (env w)).1; reflexivity.
Qed.

Lemma bind_returned {A B} (m : M A) (k : A → M B) w a w' :
  m w = (Ret a, w') → bind m k w = k a w'.
Proof. intros H. unfold bind. rewrite H. reflexivity. Qed.

Ltac step_call w' Hpb :=
  match goal with
  | |- context [bind (call ?op) ?k ?w] =>
      let Hb := fresh "Hb" in
      destruct (bind_call op k w) as (w' & Hpb & Hb); rewrite Hb; clear Hb
  end.

Ltac step_pure :=
  match goal with
  | |- context [bind (ret ?a) ?k ?w] =>
      change (bind (ret a) k w) with (k a w); cbv beta
  | |- context [bind Date_now ?k ?w] =>
      change (bind Date_now k w) with (k (clock w) w); cbv beta
  end.

(** The text path when the thread exists and the assistant is at hand. *)
Lemma handleTextMessage_completed fuel message threadId assistantId data w :
  truthy threadId = true →
  OPENAI_ASSISTANT_ID cfg = Some assistantId →
  assistantId ≠ "" →
  assistant_answers data →
  ∃ w', pb w' = pb w
        ∧ ((∃ v, first_text data = Some v
                 ∧ handleTextMessage fuel message threadId w = (Ret v, w'))
           ∨ (∃ e, first_text data = None
                   ∧ handleTextMessage fuel message threadId w = (Throw e, w'))).
Proof.
  intros Hth Hid Hne (Hcreate & Hrun & Hretrieve & Hlist).
  unfold handleTextMessage. rewrite Hid, (proj2 (String.eqb_neq _ _) Hne), Hth.
  step_pure.
  step_call w1 Hpb1. rewrite Hcreate.
  step_call w2 Hpb2.
  destruct (Hrun (default "" threadId) assistantId (env w1)) as (run & ->).
  step_call w3 Hpb3. rewrite Hretrieve.
  step_pure.
  rewrite (bind_returned (poll fuel _ _ _ "completed") _ w3 () w3)
    by (destruct fuel; reflexivity).
  step_call w4 Hpb4. rewrite Hlist.
  exists w4. split; [congruence|].
  unfold first_text.
  destruct data as [|first rest]; [right; eexists; split; reflexivity|].
  destruct (String.eqb (role first) "assistant"); simpl;
    [|right; eexists; split; reflexivity].
  destruct (parts first) as [|[v|kind] ps];
    [right | left | right]; eexists; split; reflexivity.
Qed.

(** X13: with a thread and an assistant at hand, the reply to a text
    message is the text of the first part of the first listed thread
    message when an assistant wrote it; in every other case (no message
    listed, a message of another role, no part, a first part that is not
    text) the reply is the apology.  The store is left alone. *)
Theorem text_reply_is_first_listed_text (fuel : nat) (message : Message.t)
    (threadId : option string) (assistantId : string)
    (data : list ThreadMessage) (w : World E) :
  Message.type message = Text →
  truthy threadId = true →
  OPENAI_ASSISTANT_ID cfg = Some assistantId →
  assistantId ≠ "" →
  assistant_answers data →
  (getAIResponse fuel message threadId w).1 = Ret (default apology (first_text data))
  ∧ pb (getAIResponse fuel message threadId w).2 = pb w.
Proof.
  intros Ht Hth Hid Hne Hsvc.
  destruct (handleTextMessage_completed fuel message threadId assistantId data w
              Hth Hid Hne Hsvc) as (w' & Hpb & [(v & Hv & Hrun) | (e & Hv & Hrun)]).
  all: unfold getAIResponse, try_catch; rewrite Ht, Hrun, Hv; simpl; auto.
Qed.

Lemma bind_assoc {A B C} (m : M A) (f : A → M B) (g : B → M C) w :
  bind (bind m f) g w = bind m (λ x, bind (f x) g) w.
Proof. unfold bind. destruct (m w) as [[a|e|] w1]; reflexivity. Qed.

Lemma getFileToken_served w :
  served w → getFileToken w = (Ret "token", after_request w).
Proof.
  intros Hs. known_world w. unfold served in Hs. simpl in Hs. unfold getFileToken.
  destruct sc as [|[e|] rest]; try contradiction; run_store; reflexivity.
Qed.

Lemma getMediaRecord_served i rec w :
  served w → find_media i (pb w) = Some rec →
  getMediaRecord i w = (Ret (Some rec), after_request w).
Proof.
  intros Hs Hf. known_world w. unfold served in Hs. unfold find_media in Hf.
  simpl in Hs, Hf. unfold getMediaRecord, media_getOne.
  destruct sc as [|[e|] rest]; try contradiction; run_store; rewrite Hf; reflexivity.
Qed.

Lemma transcribeAudio_silent fuel message i rec w :
  Message.mediaFileId message = Some i →
  served w → served (after_request w) →
  find_media i (pb w) = Some rec →
  transcribes_nothing →
  ∃ w', transcribeAudio fuel message w
        = (Ret "Не удалось распознать текст в аудиосообщении.", w')
        ∧ pb w' = pb (after_request (after_request w)).
Proof.
  intros Hm Hs1 Hs2 Hrec (Hfetch & Hconv & Htr). unfold transcribeAudio.
  rewrite (bind_returned _ _ _ _ _ (getFileToken_served w Hs1)).
  rewrite Hm. cbn [default].
  rewrite (bind_returned _ _ _ _ _
             (getMediaRecord_served i rec (after_request w) Hs2 Hrec)).
  unfold getFileUrl. step_pure.
  step_call w1 Hpb1.
  match goal with
  | |- context [fetch svc ?url (env ?w0)] =>
      destruct (Hfetch url (env w0)) as (r & -> & Hok)
  end.
  rewrite Hok. cbn [negb]. cbv zeta.
  destruct (String.eqb (Message.source message) "telegram").
  - rewrite bind_assoc. step_call w2 Hpb2.
    destruct (Hconv (body r) (env w1)) as (mp3 & ->).
    step_pure. cbn [fst snd].
    step_call w3 Hpb3.
    match goal with
    | |- context [transcriptions svc ?mo ?b ?n (env ?w0)] =>
        destruct (Htr mo b n (env w0)) as (t & -> & Hok' & Hblank)
    end.
    rewrite Hok', Hblank. cbn [negb].
    eexists. split; [reflexivity | congruence].
  - step_pure. cbn [fst snd].
    step_call w3 Hpb3.
    match goal with
    | |- context [transcriptions svc ?mo ?b ?n (env ?w0)] =>
        destruct (Htr mo b n (env w0)) as (t & -> & Hok' & Hblank)
    end.
    rewrite Hok', Hblank. cbn [negb].
    eexists. split; [reflexivity | congruence].
Qed.

(** X14: a voice or audio message in which nothing is recognised (the
    transcription comes back without text, empty, or holding only what
    [trim()] strips: white space and line terminators, the no-break
    space and the other Unicode spaces included) is answered with the
    fixed text for that case and is not passed on to the assistant: no
    thread is created, and the chats and messages of the store are as
    before. *)
Theorem silent_audio_is_not_passed_on (fuel : nat) (message : Message.t)
    (threadId : option string) (i : string) (rec : MediaRecord) (w : World E) :
  Message.type message = Voice ∨ Message.type message = Audio →
  Message.mediaFileId message = Some i →
  i ≠ "" →
  served w → served (after_request w) →
  find_media i (pb w) = Some rec →
  transcribes_nothing →
  (getAIResponse fuel message threadId w).1
  = Ret "Не удалось распознать текст в аудиосообщении."
  ∧ chats (pb (getAIResponse fuel message threadId w).2) = chats (pb w)
  ∧ messages (pb (getAIResponse fuel message threadId w).2) = messages (pb w).
Proof.
  intros Hty Hm Hne Hs1 Hs2 Hrec Hsvc.
  destruct (transcribeAudio_silent fuel message i rec
              (logged "Processing audio message" w) Hm Hs1 Hs2 Hrec Hsvc)
    as (w' & Hrun & Hpb).
  assert (Hrun' : getAIResponse fuel message threadId w
                  = (Ret "Не удалось распознать текст в аудиосообщении.", w')).
  { unfold getAIResponse, handleAudioMessage.
    assert (Ht : truthy (Message.mediaFileId message) = true).
    { rewrite Hm. simpl. apply negb_true_iff, String.eqb_neq. exact Hne. }
    rewrite Ht. cbn [negb].
    destruct Hty as [-> | ->]; unfold try_catch at 1;
      (rewrite (bind_returned _ _ _ () (logged "Processing audio message" w))
        by reflexivity);
      unfold try_catch; rewrite Hrun; reflexivity. }
  rewrite Hrun'. simpl. rewrite Hpb. repeat split.
Qed.

(** ** The adapters: what they store and whom they answer *)

#[local] Instance same_env_preorder : PreOrder same_env.
Proof. split; unfold same_env; [intros w | intros a b c ? ?]; congruence. Qed.

Lemma log_same_env line : stable same_env (log line).
Proof. intros w. reflexivity. Qed.

Lemma Date_now_same_env : stable same_env Date_now.
Proof. intros w. reflexivity. Qed.

(** The requests to the store call no service. *)
Ltac same_env_request :=
  let w := fresh "w" in
  intros w; known_world w; unfold same_env;
  match goal with
  | answers : list (option Exn) |- _ => destruct answers as [|[?|] ?]
  end; run_store;
  repeat match goal with
         | |- context [List.find ?f ?l] => destruct (List.find f l); run_store
         end;
  reflexivity.

Lemma request_same_env : stable same_env request.
Proof. same_env_request. Qed.

Lemma chats_getOne_same_env i : stable same_env (chats_getOne i).
Proof. unfold chats_getOne. same_env_request. Qed.

Lemma chats_getFirstListItem_same_env i : stable same_env (chats_getFirstListItem i).
Proof. unfold chats_getFirstListItem. same_env_request. Qed.

Lemma chats_update_same_env i chat : stable same_env (chats_update i chat).
Proof. unfold chats_update. same_env_request. Qed.

Lemma chats_create_same_env chat : stable same_env (chats_create chat).
Proof. unfold chats_create. same_env_request. Qed.

Lemma messages_create_same_env msg : stable same_env (messages_create msg).
Proof. unfold messages_create. same_env_request. Qed.

Lemma media_create_same_env f p : stable same_env (media_create f p).
Proof. unfold media_create. same_env_request. Qed.

Lemma expired_and_refreshed_same_env e : stable same_env (expired_and_refreshed e).
Proof.
  intros w. known_world w. unfold same_env, expired_and_refreshed.
  destruct (has_status e 403); [|reflexivity].
  unfold handleAuthError, bind at 1, get_pb. simpl.
  destruct (_ && _); [|reflexivity].
  destruct sc as [|[e'|] rest]; run_store; reflexivity.
Qed.

#[local] Hint Resolve log_same_env Date_now_same_env request_same_env
  chats_getOne_same_env chats_getFirstListItem_same_env chats_update_same_env
  chats_create_same_env messages_create_same_env media_create_same_env
  expired_and_refreshed_same_env : stable.

Lemma saveChat_same_env fuel chat : stable same_env (saveChat fuel chat).
Proof. induction fuel as [|fuel IH]; cbn [saveChat]; stable_auto. Qed.
#[local] Hint Resolve saveChat_same_env : stable.

Lemma findOrCreateChat_same_env fuel i source name :
  stable same_env (findOrCreateChat fuel i source name).
Proof. induction fuel as [|fuel IH]; cbn [findOrCreateChat]; stable_auto. Qed.

Lemma saveMessage_same_env msg : stable same_env (saveMessage msg).
Proof. unfold saveMessage. stable_auto. Qed.

#[local] Hint Resolve findOrCreateChat_same_env saveMessage_same_env : stable.

(** The requests that do not write to the collection of messages,
    continued. *)
Lemma chats_getFirstListItem_same_messages i :
  stable same_messages (chats_getFirstListItem i).
Proof. unfold chats_getFirstListItem. same_messages_request. Qed.

Lemma media_create_same_messages f p : stable same_messages (media_create f p).
Proof. unfold media_create. same_messages_request. Qed.

#[local] Hint Resolve chats_getFirstListItem_same_messages
  media_create_same_messages : stable.

Lemma findOrCreateChat_same_messages fuel i source name :
  stable same_messages (findOrCreateChat fuel i source name).
Proof. induction fuel as [|fuel IH]; cbn [findOrCreateChat]; stable_auto. Qed.

Lemma saveMediaFile_same_messages d f c p :
  stable same_messages (saveMediaFile d f c p).
Proof. unfold saveMediaFile. stable_auto. Qed.

#[local] Hint Resolve findOrCreateChat_same_messages saveMediaFile_same_messages
  getAIResponse_same_messages : stable.

Lemma downloadBrevoFile_same_messages what link filename contentType platform :
  stable same_messages (downloadBrevoFile what link filename contentType platform).
Proof. unfold downloadBrevoFile. stable_auto. Qed.

Lemma sendBrevoMessage_same_messages v t : stable same_messages (sendBrevoMessage v t).
Proof. apply same_pb_same_messages, sendBrevoMessage_same_pb. Qed.

#[local] Hint Resolve downloadBrevoFile_same_messages
  sendBrevoMessage_same_messages : stable.

(** *** At most one message *)

Lemma appends_same {A} (P : Message.t → Prop) (m : M A) :
  stable same_messages m → appends P m.
Proof. intros H w. left. apply H. Qed.

Lemma appends_bind_l {A B} (P : Message.t → Prop) (m : M A) (k : A → M B) :
  stable same_messages m → (∀ a, appends P (k a)) → appends P (bind m k).
Proof.
  intros Hm Hk w. unfold bind. specialize (Hm w). unfold same_messages in Hm.
  destruct (m w) as [[a|e|] w1]; simpl in *; [|left; exact Hm|left; exact Hm].
  rewrite <- Hm. apply Hk.
Qed.

Lemma appends_bind_r {A B} (P : Message.t → Prop) (m : M A) (k : A → M B) :
  appends P m → (∀ a, stable same_messages (k a)) → appends P (bind m k).
Proof.
  intros Hm Hk w. unfold bind. specialize (Hm w).
  destruct (m w) as [[a|e|] w1]; simpl in *; [|exact Hm|exact Hm].
  pose proof (Hk a w1) as Hk1. unfold same_messages in Hk1. rewrite Hk1. exact Hm.
Qed.

Lemma appends_try_catch {A} (P : Message.t → Prop) (m : M A) (h : Exn → M A) :
  appends P m → (∀ e, stable same_messages (h e)) → appends P (try_catch m h).
Proof.
  intros Hm Hh w. rewrite try_catch_log_messages by exact Hh. apply Hm.
Qed.

Lemma appends_bind_assoc {A B C} (P : Message.t → Prop) (m : M A) (f : A → M B)
    (g : B → M C) :
  appends P (bind m (λ x, bind (f x) g)) → appends P (bind (bind m f) g).
Proof.
  intros H w. specialize (H w). unfold bind in *.
  destruct (m w) as [[a|e|] w1]; exact H.
Qed.

Lemma appends_bind_ret {A B} (P : Message.t → Prop) (a : A) (k : A → M B) :
  appends P (k a) → appends P (bind (ret a) k).
Proof. intros H w. exact (H w). Qed.

Lemma appends_saveMessage (P : Message.t → Prop) msg :
  (∀ i, P (Message.with_id i msg)) → appends P (saveMessage msg).
Proof.
  intros HP w. destruct (saveMessage_spec msg w) as [(i & _ & Hs) | (_ & Hs)].
  - right. exists (Message.with_id i msg). split; [exact Hs | apply HP].
  - left. exact Hs.
Qed.

Lemma processBrevoMessage_never_throws fuel visitor message platform isIncoming :
  never_throws (processBrevoMessage fuel visitor message platform isIncoming).
Proof.
  unfold processBrevoMessage. apply try_catch_never_throws. intros e w e'. discriminate.
Qed.

(** What [processBrevoMessage] stores. *)
Lemma processBrevoMessage_appends fuel visitor message platform isIncoming :
  appends (brevo_record visitor message platform isIncoming)
    (processBrevoMessage fuel visitor message platform isIncoming).
Proof.
  unfold processBrevoMessage, brevo_record, brevo_type.
  apply appends_try_catch; [|intros e; apply log_same_messages].
  apply appends_bind_l; [apply findOrCreateChat_same_messages|].
  intros [chat|]; [|apply appends_same, log_same_messages].
  destruct (negb (truthy (Chat.id chat))); [apply appends_same, log_same_messages|].
  cbv zeta.
  assert (Hrest : ∀ msg : Message.t, ∀ u : Message.t,
             stable same_messages
               (if negb isIncoming then ret ()
                else if Chat.autoMode chat && isIncoming then
                  bind (log ("Generating auto-reply for message: "
                             +:+ BrevoMessage.id message))
                    (λ _, bind (getAIResponse fuel msg (Chat.openAIThreadId chat))
                            (λ res, bind (sendBrevoMessage (Visitor.id visitor) res)
                                      (λ _, ret ())))
                else ret ())).
  { intros msg u. stable_auto. }
  destruct (BrevoMessage.file message) as [f|]; [destruct (BrevoFile.isImage f)|].
  - apply appends_bind_assoc.
    apply appends_bind_l; [apply downloadBrevoFile_same_messages|]. intros i.
    apply appends_bind_ret.
    apply appends_bind_r; [|intros u; apply Hrest; exact u].
    apply appends_saveMessage. intros j. simpl. repeat split. discriminate.
  - apply appends_bind_assoc.
    apply appends_bind_l; [apply downloadBrevoFile_same_messages|]. intros i.
    apply appends_bind_ret.
    apply appends_bind_r; [|intros u; apply Hrest; exact u].
    apply appends_saveMessage. intros j. simpl. repeat split. discriminate.
  - apply appends_bind_ret.
    apply appends_bind_r; [|intros u; apply Hrest; exact u].
    apply appends_saveMessage. intros j. simpl. repeat split.
Qed.

(** X15: [processBrevoMessage] never throws, and it stores at most one
    message, in the canonical form: the platform's message id and
    creation time, the platform as source, the type by the attachment
    (none: text, an image: image, any other file: audio), the text or
    the empty string as content, the direction it was given, and the
    response mode manual for an incoming and auto for an outgoing
    message; without an attachment there is no media file. *)
Theorem brevo_message_is_stored_normalized (fuel : nat) (visitor : Visitor.t)
    (message : BrevoMessage.t) (platform : string) (isIncoming : bool) :
  never_throws (processBrevoMessage fuel visitor message platform isIncoming)
  ∧ appends (brevo_record visitor message platform isIncoming)
      (processBrevoMessage fuel visitor message platform isIncoming).
Proof.
  split; [apply processBrevoMessage_never_throws | apply processBrevoMessage_appends].
Qed.

(** *** Who gets an automated reply *)

Lemma saveChat_create_fields fuel chat w r w' :
  truthy (Chat.id chat) = false →
  saveChat fuel chat w = (Ret r, w') →
  ∃ i, r = Chat.with_id i chat.
Proof.
  intros Hid. revert w. induction fuel as [|fuel IH]; intros w H.
  all: destruct (script (pb w)) as [|[e|] rest] eqn:Hs.
  all: try (rewrite saveChat_creates in H by (auto; unfold served; rewrite Hs; exact I);
            inversion H; subst; eexists; reflexivity).
  all: rewrite (saveChat_rejected _ _ _ _ _ Hs) in H; unfold bind at 1 in H;
    destruct (expired_and_refreshed_spec e (after_request w)) as (b & w2 & Hb & _);
    rewrite Hb in H; destruct b.
  - discriminate.
  - unfold bind, throw in H.
    destruct (has_status e 400 || has_status e 404); discriminate.
  - eapply IH, H.
  - unfold bind, throw in H.
    destruct (has_status e 400 || has_status e 404); discriminate.
Qed.

(** The chat that [findOrCreateChat] returns is a stored chat with the
    platform id, or the chat it has just built. *)
Lemma findOrCreateChat_result fuel i source name w c w' :
  findOrCreateChat fuel i source name w = (Ret (Some c), w') →
  (c ∈ chats (pb w) ∧ Chat.platformChatId c = Some i)
  ∨ ∃ j now, c = Chat.with_id j (new_chat i source name now).
Proof.
  revert w. induction fuel as [|fuel IH]; intros w H.
  all: destruct (script (pb w)) as [|[e|] rest] eqn:Hs.
  all: try (rewrite findOrCreateChat_served in H by (unfold served; rewrite Hs; exact I);
            unfold find_chat in H;
            destruct (List.find _ (chats (pb w))) as [c0|] eqn:Hfind;
            [ inversion H; subst; left; apply find_some in Hfind as [Hin Hp];
              split; [apply list_elem_of_In; exact Hin
                     | apply bool_decide_eq_true in Hp; exact Hp]
            | unfold try_catch, bind at 1, Date_now in H; unfold bind at 1 in H;
              match type of H with
              | context [saveChat ?n ?ch ?w0] =>
                  destruct (saveChat n ch w0) as [[r|?|] w1] eqn:Hsave
              end; try discriminate;
              inversion H; subst;
              apply saveChat_create_fields in Hsave as [j ->]; [|reflexivity];
              right; eexists _, _; reflexivity ]).
  all: rewrite (findOrCreateChat_rejected _ _ _ _ _ _ _ Hs) in H;
    unfold try_catch, bind at 1 in H;
    destruct (expired_and_refreshed_spec e (after_request w)) as (b & w2 & Hb & Hq1 & _);
    rewrite Hb in H; destruct b; try discriminate.
  all: try (destruct (has_status e 400 || has_status e 404); [|discriminate];
            unfold bind at 1, Date_now in H; unfold bind at 1 in H;
            match type of H with
            | context [saveChat ?n ?ch ?w0] =>
                destruct (saveChat n ch w0) as [[r|?|] w1] eqn:Hsave
            end; try discriminate;
            inversion H; subst;
            apply saveChat_create_fields in Hsave as [j ->]; [|reflexivity];
            right; eexists _, _; reflexivity).
  destruct (findOrCreateChat fuel i source name w2) as [[o|e'|] w3] eqn:Hrec;
    try discriminate.
  inversion H; subst.
  destruct (IH w2 Hrec) as [[Hin Hp] | Hnew]; [left | right; exact Hnew].
  split; [|exact Hp]. rewrite Hq1 in Hin. exact Hin.
Qed.

Lemma findOrCreateChat_manual fuel i source name w c w' :
  manual_mode i (pb w) →
  findOrCreateChat fuel i source name w = (Ret (Some c), w') →
  Chat.autoMode c = false.
Proof.
  intros Hm H. apply findOrCreateChat_result in H as [[Hin Hp] | (j & now & ->)].
  - unfold manual_mode in Hm. rewrite Forall_forall in Hm. apply (Hm c Hin Hp).
  - reflexivity.
Qed.

Lemma try_catch_log_env {A} (m : M A) (h : Exn → M A) w :
  (∀ e, stable same_env (h e)) →
  env (try_catch m h w).2 = env (m w).2.
Proof.
  intros Hh. unfold try_catch. destruct (m w) as [[a|e|] w1]; try reflexivity.
  apply Hh.
Qed.

(** X16: a message in a chat in manual mode, and a message that an
    agent has sent, are stored without any service being called: no
    reply is generated and nothing is sent, for a Brevo message
    without attachment as for a Telegram text.  The chats that
    [findOrCreateChat] creates are in manual mode, so this covers the
    first message of every conversation. *)
Theorem manual_chat_gets_no_reply (fuel : nat) (visitor : Visitor.t)
    (message : BrevoMessage.t) (platform : string) (isIncoming : bool)
    (ctx : Context.t) (w : World E) :
  BrevoMessage.file message = None →
  isIncoming = false ∨ manual_mode (Visitor.threadId visitor) (pb w) →
  manual_mode (String_chat_id ctx) (pb w) →
  env (processBrevoMessage fuel visitor message platform isIncoming w).2 = env w
  ∧ env (handleTgTextMessage fuel ctx w).2 = env w.
Proof.
  intros Hfile Hmode Htg. split.
  - unfold processBrevoMessage.
    rewrite try_catch_log_env by (intros e; apply log_same_env).
    unfold bind at 1.
    pose proof (findOrCreateChat_same_env fuel (Visitor.threadId visitor) platform
                  (Visitor.displayedName visitor) w) as Henv1.
    destruct (findOrCreateChat fuel (Visitor.threadId visitor) platform
                (Visitor.displayedName visitor) w) as [[[c|]|e|] w1] eqn:Hf;
      simpl in Henv1; unfold same_env in Henv1; try exact Henv1.
    destruct (negb (truthy (Chat.id c))); [exact Henv1|].
    rewrite Hfile. cbv zeta.
    change (bind (ret (Text, None)) ?k w1) with (k (Text, @None string) w1). cbv beta.
    unfold bind at 1.
    match goal with
    | |- context [saveMessage ?msg w1] =>
        pose proof (saveMessage_same_env msg w1) as Henv2;
        destruct (saveMessage msg w1) as [[r|e|] w2]
    end; simpl in Henv2; unfold same_env in Henv2; simpl; try congruence.
    destruct Hmode as [-> | Hm]; [simpl; congruence|].
    rewrite (findOrCreateChat_manual _ _ _ _ _ _ _ Hm Hf).
    destruct (negb isIncoming); simpl; congruence.
  - unfold handleTgTextMessage.
    destruct (Context.message ctx) as [m|]; [|reflexivity].
    destruct (negb (truthy (TgMessage.text m))); [reflexivity|].
    cbv zeta. unfold bind at 1.
    pose proof (findOrCreateChat_same_env fuel (String_chat_id ctx) "telegram" None w)
      as Henv1.
    destruct (findOrCreateChat fuel (String_chat_id ctx) "telegram" None w)
      as [[[c|]|e|] w1] eqn:Hf;
      simpl in Henv1; unfold same_env in Henv1; try exact Henv1.
    change (bind (chat_id_of (Some c)) ?k w1) with (k (default "" (Chat.id c)) w1).
    cbv beta. unfold bind at 1.
    match goal with
    | |- context [saveMessage ?msg w1] =>
        pose proof (saveMessage_same_env msg w1) as Henv2;
        destruct (saveMessage msg w1) as [[r|e|] w2]
    end; simpl in Henv2; unfold same_env in Henv2; simpl; try congruence.
    rewrite (findOrCreateChat_manual _ _ _ _ _ _ _ Htg Hf). simpl. congruence.
Qed.

(** X17: the webhook by which the aggregator echoes a message of a
    'Dummy' agent is acknowledged and its id is recorded, but the
    message is dropped: nothing is stored, no request is sent to the
    store and no service is called. *)
Theorem dummy_echo_is_dropped (fuel : nat) (m : BrevoMessage.t) (eventName : string)
    (visitor : Visitor.t) (agentId : string) (sv : Server E) :
  BrevoMessage.type m = "agent" →
  BrevoMessage.agentId m = Some agentId →
  includes "Dummy" agentId = true →
  processedMessages sv !! BrevoMessage.id m = None →
  let after := brevohook fuel (Body.mk (Some m) None eventName (Some visitor)) sv in
  after.1 = Ret "Webhook received successfully"
  ∧ processedMessages after.2
    = <[BrevoMessage.id m := clock (world sv)]> (processedMessages sv)
  ∧ pb (world after.2) = pb (world sv)
  ∧ env (world after.2) = env (world sv).
Proof.
  intros Hty Hid Hdummy Hnew after. subst after.
  assert (Htruthy : truthy (Some agentId) = true).
  { simpl. destruct agentId; [discriminate Hdummy | reflexivity]. }
  unfold brevohook, lift. simpl. rewrite Hnew. simpl.
  rewrite (brevohook_process_agent _ _ _ _ _ Hty).
  unfold processAgentMessage, first_message, bind. simpl.
  rewrite Hid. rewrite Htruthy. simpl. rewrite Hdummy. simpl.
  repeat split.
Qed.

(** X18: a Telegram update is ignored without a trace when it lacks what
    its handler is for: a text handler without message or with an empty
    text, a photo or voice handler without photo or voice, or without
    the id of the chat (or with the id 0).  Nothing is stored, logged,
    requested or called.  A photo update whose list of sizes is empty
    is not ignored: the handler fails on the missing size, logs the
    error, and stores and calls nothing. *)
Theorem telegram_update_without_content_is_ignored (fuel : nat) (ctx : Context.t)
    (w : World E) :
  (match Context.message ctx with
   | Some m => truthy (TgMessage.text m) = false
   | None => True
   end → handleTgTextMessage fuel ctx w = (Ret (), w))
  ∧ (message_photo ctx = None ∨ chat_present ctx = false →
     handleTgPhotoMessage fuel ctx w = (Ret (), w))
  ∧ (message_voice ctx = None ∨ chat_present ctx = false →
     handleTgVoiceMessage fuel ctx w = (Ret (), w))
  ∧ (∀ m, message_photo ctx = Some (m, []) → chat_present ctx = true →
          handleTgPhotoMessage fuel ctx w
          = (Ret (), logged "Error processing photo message:" w)).
Proof.
  split; [|split; [|split]].
  - unfold handleTgTextMessage. destruct (Context.message ctx) as [m|]; [|reflexivity].
    intros ->. reflexivity.
  - unfold handleTgPhotoMessage. intros [-> | Hc]; [reflexivity|].
    destruct (message_photo ctx) as [[m p]|]; [|reflexivity]. rewrite Hc. reflexivity.
  - unfold handleTgVoiceMessage. intros [-> | Hc]; [reflexivity|].
    destruct (message_voice ctx) as [[m v]|]; [|reflexivity]. rewrite Hc. reflexivity.
  - intros m Hm Hc. unfold handleTgPhotoMessage. rewrite Hm, Hc. reflexivity.
Qed.

(** *** What is lost on a failure *)

Lemma bind_thrown {A B} (m : M A) (k : A → M B) w e w' :
  m w = (Throw e, w') → bind m k w = (Throw e, w').
Proof. intros H. unfold bind. rewrite H. reflexivity. Qed.

Lemma downloadTgFile_fails fileId w :
  no_file_downloads →
  ∃ e w', downloadTgFile fileId w = (Throw e, w') ∧ pb w' = pb w.
Proof.
  intros Hfetch. unfold downloadTgFile.
  step_call w1 Hpb1.
  destruct (getFile svc fileId (env w)).1 as [file_path|e]; [|eauto].
  step_call w2 Hpb2.
  match goal with
  | |- context [fetch svc ?url (env w1)] =>
      pose proof (Hfetch url (env w1)) as Hr;
      destruct (fetch svc url (env w1)).1 as [r|e]
  end.
  - rewrite Hr. simpl. eexists _, _. split; [reflexivity | congruence].
  - eexists _, _. split; [reflexivity | congruence].
Qed.

(** X19: when the file of a Telegram photo or voice message cannot be
    downloaded, the handler returns normally and the store is as it
    was: the message is not stored, not even as a text or without its
    file, and no chat is created for it. *)
Theorem telegram_media_lost_without_download (fuel : nat) (ctx : Context.t)
    (w : World E) :
  no_file_downloads →
  (handleTgPhotoMessage fuel ctx w).1 = Ret ()
  ∧ pb (handleTgPhotoMessage fuel ctx w).2 = pb w
  ∧ (handleTgVoiceMessage fuel ctx w).1 = Ret ()
  ∧ pb (handleTgVoiceMessage fuel ctx w).2 = pb w.
Proof.
  intros Hfetch.
  assert (Hphoto : ∃ w', handleTgPhotoMessage fuel ctx w = (Ret (), w') ∧ pb w' = pb w).
  { unfold handleTgPhotoMessage.
    destruct (message_photo ctx) as [[m photoArray]|]; [|eexists; split; reflexivity].
    destruct (negb (chat_present ctx)); [eexists; split; reflexivity|].
    unfold try_catch.
    destruct (last photoArray) as [bestPhoto|]; [|eexists; split; reflexivity].
    destruct (downloadTgFile_fails (file_id bestPhoto) w Hfetch) as (e & w' & Hd & Hpb).
    rewrite (bind_thrown _ _ _ _ _ Hd).
    eexists. split; [reflexivity | exact Hpb]. }
  assert (Hvoice : ∃ w', handleTgVoiceMessage fuel ctx w = (Ret (), w') ∧ pb w' = pb w).
  { unfold handleTgVoiceMessage.
    destruct (message_voice ctx) as [[m voice]|]; [|eexists; split; reflexivity].
    destruct (negb (chat_present ctx)); [eexists; split; reflexivity|].
    unfold try_catch.
    destruct (downloadTgFile_fails (file_id voice) w Hfetch) as (e & w' & Hd & Hpb).
    rewrite (bind_thrown _ _ _ _ _ Hd).
    eexists. split; [reflexivity | exact Hpb]. }
  destruct Hphoto as (wp & -> & Hp), Hvoice as (wv & -> & Hv).
  repeat split; assumption.
Qed.

Lemma handleOpenAI_never_throws fuel message platformChatId threadId :
  never_throws (handleOpenAI fuel message platformChatId threadId).
Proof.
  unfold handleOpenAI. apply try_catch_never_throws. intros e w e'. discriminate.
Qed.

(** X20: [handleOpenAI] never throws, and it stores the reply before it
    sends it: when the store rejects the reply that [getAIResponse] has
    produced, the reply is not sent either, no service is called any
    more, and the user of the Telegram chat gets nothing. *)
Theorem reply_lost_when_store_rejects_it (fuel : nat) (message : Message.t)
    (platformChatId : string) (threadId : option string) (w w1 : World E)
    (res : string) (e : Exn) (rest : list (option Exn)) :
  getAIResponse fuel message threadId w = (Ret res, w1) →
  script (pb w1) = Some e :: rest →
  never_throws (handleOpenAI fuel message platformChatId threadId)
  ∧ ∃ w2, handleOpenAI fuel message platformChatId threadId w = (Ret (), w2)
          ∧ env w2 = env w1
          ∧ messages (pb w2) = messages (pb w1)
          ∧ requests (pb w2) = S (requests (pb w1)).
Proof.
  intros Hrun Hs. split; [apply handleOpenAI_never_throws|].
  unfold handleOpenAI, try_catch. unfold bind at 1. rewrite Hrun.
  unfold bind at 1, Date_now. unfold bind at 1.
  rewrite (saveMessage_rejected _ _ _ _ Hs).
  eexists. split; [reflexivity|].
  destruct (has_status e 400); simpl; repeat split.
Qed.

(** ** The router: acknowledgements, the cache and the send API *)

Lemma returns_only {A} fuel (P : A → Prop) (m : M A) : returns fuel P m → only fuel P m.
Proof.
  intros H w Hw. destruct (H w Hw) as [Hfit (a & Ha & HP)].
  split; [exact Hfit|]. rewrite Ha. exact HP.
Qed.

Lemma try_catch_bind_returned {A B} (m : M A) (k : A → M B) (h : Exn → M B) w a w' :
  m w = (Ret a, w') → try_catch (bind m k) h w = try_catch (k a) h w'.
Proof. intros H. unfold try_catch, bind. rewrite H. reflexivity. Qed.

Lemma create_chat_ends m i source name w :
  (length (script (pb w)) ≤ m)%nat →
  ∃ o w',
    try_catch
      (bind Date_now
         (λ now, bind (saveChat m (new_chat i source name now))
                   (λ savedChat, ret (Some savedChat))))
      (λ _, bind (log ("Error in find chat for " +:+ source +:+ " sourceId " +:+ i +:+ ":"))
              (λ _, ret None))
      w
    = (Ret o, w')
    ∧ (length (script (pb w')) ≤ length (script (pb w)))%nat.
Proof.
  intros Hlen. unfold try_catch, bind at 1, Date_now. unfold bind at 1.
  destruct (saveChat_ends m (new_chat i source name (clock w)) w Hlen) as [H1 H2].
  destruct (saveChat m (new_chat i source name (clock w)) w) as [[r|e|] w1];
    simpl in *.
  - eexists _, _. split; [reflexivity | lia].
  - eexists _, _. split; [reflexivity | simpl; lia].
  - contradiction.
Qed.

Lemma findOrCreateChat_ends n i source name w :
  (length (script (pb w)) ≤ n)%nat →
  ∃ o w', findOrCreateChat n i source name w = (Ret o, w')
          ∧ (length (script (pb w')) ≤ length (script (pb w)))%nat.
Proof.
  revert w. induction n as [|n IH]; intros w Hlen.
  all: destruct (script (pb w)) as [|[e|] rest] eqn:Hs; simpl in Hlen.
  all: try (rewrite findOrCreateChat_served by (unfold served; rewrite Hs; exact I);
            destruct (find_chat i (pb w));
            [ eexists _, _; split; [reflexivity | simpl; rewrite Hs; simpl; lia]
            | match goal with
              | |- context [saveChat ?m _] =>
                  destruct (create_chat_ends m i source name (after_request w))
                    as (o & w' & Hr & Hl);
                  [ simpl; rewrite Hs; simpl; lia
                  | rewrite Hr; exists o, w'; split; [reflexivity|];
                    simpl in Hl; rewrite Hs in Hl; simpl in Hl; simpl; lia ]
              end ]).
  all: try lia.
  rewrite (findOrCreateChat_rejected _ _ _ _ _ _ _ Hs).
  destruct (expired_and_refreshed_spec e (after_request w)) as (b & w2 & Hb & _ & k & Hk).
  assert (Hlen2 : (length (script (pb w2)) ≤ length rest)%nat).
  { rewrite Hk, after_request_script, Hs, !length_drop. simpl. lia. }
  rewrite (try_catch_bind_returned _ _ _ _ _ _ Hb).
  destruct b; [|destruct (has_status e 400 || has_status e 404)].
  - destruct (IH w2 ltac:(lia)) as (o & w' & Hr & Hl).
    unfold try_catch. rewrite Hr. exists o, w'. split; [reflexivity | simpl; lia].
  - destruct (create_chat_ends (S n) i source name w2) as (o & w' & Hr & Hl); [lia|].
    rewrite Hr. exists o, w'. split; [reflexivity | simpl; lia].
  - eexists _, _. split; [reflexivity | simpl; lia].
Qed.

Lemma returns_findOrCreateChat fuel i source name :
  returns fuel (λ _, True) (findOrCreateChat fuel i source name).
Proof.
  intros w Hw. destruct (findOrCreateChat_ends fuel i source name w Hw)
    as (o & w' & Hr & Hl).
  rewrite Hr. simpl. unfold fits in *. split; [lia | eauto].
Qed.

Lemma only_saveMessage fuel msg : only fuel (λ _, True) (saveMessage msg).
Proof.
  intros w Hw. known_world w. unfold fits, saveMessage, messages_create in *. simpl in *.
  destruct sc as [|[e|] rest]; run_store; try destruct (has_status e 400);
    simpl in *; split; auto; lia.
Qed.

Lemma only_saveMediaFile fuel d f c p : only fuel (λ _, True) (saveMediaFile d f c p).
Proof.
  intros w Hw. known_world w. unfold fits, saveMediaFile, media_create in *. simpl in *.
  destruct sc as [|[e|] rest]; run_store;
    try destruct (has_status e 400 || has_status e 404);
    simpl in *; split; auto; lia.
Qed.

Lemma returns_sendBrevoMessage fuel v t : returns fuel (λ _, True) (sendBrevoMessage v t).
Proof.
  unfold sendBrevoMessage. apply returns_try_catch.
  - eapply only_bind; [apply only_call|]. intros a _. apply only_ret; exact I.
  - intros e. eapply returns_bind; [apply returns_log|]. intros _ _.
    apply returns_ret; exact I.
Qed.

Lemma returns_downloadBrevoFile fuel what link filename contentType platform :
  returns fuel (λ _, True) (downloadBrevoFile what link filename contentType platform).
Proof.
  unfold downloadBrevoFile. destruct (truthy link); [|apply returns_ret; exact I].
  apply returns_try_catch.
  - eapply only_bind; [apply only_call|]. intros r _.
    destruct (ok r); [|apply only_ret; exact I].
    eapply only_bind; [apply only_saveMediaFile|]. intros a _. apply only_ret; exact I.
  - intros e. eapply returns_bind; [apply returns_log|]. intros _ _.
    apply returns_ret; exact I.
Qed.

Lemma returns_processBrevoMessage fuel visitor message platform isIncoming :
  (31 ≤ fuel)%nat →
  returns fuel (λ _, True) (processBrevoMessage fuel visitor message platform isIncoming).
Proof.
  intros Hfuel. unfold processBrevoMessage.
  apply returns_try_catch; [|intros e; apply returns_log].
  eapply only_bind; [apply returns_only, returns_findOrCreateChat|].
  intros [chat|] _; [|apply only_log].
  destruct (negb (truthy (Chat.id chat))); [apply only_log|].
  cbv zeta.
  eapply only_bind with (PA := λ _, True).
  { destruct (BrevoMessage.file message) as [f|]; [|apply only_ret; exact I].
    destruct (BrevoFile.isImage f);
      (eapply only_bind; [apply returns_only, returns_downloadBrevoFile|];
       intros a _; apply only_ret; exact I). }
  intros media _.
  eapply only_bind; [apply only_saveMessage|]. intros _ _.
  destruct (negb isIncoming); [apply only_ret; exact I|].
  destruct (_ && _); [|apply only_ret; exact I].
  eapply only_bind; [apply only_log|]. intros _ _.
  eapply only_bind; [apply returns_only, getAIResponse_returns; exact Hfuel|].
  intros res _.
  eapply only_bind; [apply returns_only, returns_sendBrevoMessage|]. intros _ _.
  apply only_ret; exact I.
Qed.

Lemma answers_returns {A} fuel (P : A → Prop) (X : Exn → Prop) (m : M A) :
  returns fuel P m → answers fuel P X m.
Proof.
  intros H w Hw. destruct (H w Hw) as [Hfit (a & Ha & HP)].
  split; [exact Hfit|]. rewrite Ha. exact HP.
Qed.

Lemma answers_bind {A B} fuel (PA : A → Prop) (P : B → Prop) (X : Exn → Prop)
    (m : M A) (k : A → M B) :
  answers fuel PA X m → (∀ a, PA a → answers fuel P X (k a)) →
  answers fuel P X (bind m k).
Proof.
  intros Hm Hk w Hw. unfold bind. destruct (Hm w Hw) as [Hfit Hout].
  destruct (m w) as [[a|e|] w1]; simpl in *.
  - apply Hk; assumption.
  - split; assumption.
  - contradiction.
Qed.

(** The read of the visitor returns it, or throws when the payload has
    none. *)
Lemma answers_body_visitor fuel body :
  answers fuel (λ v, Body.visitor body = Some v)
    (λ e, Body.visitor body = None ∧ e = no_visitor) (body_visitor body).
Proof.
  intros w Hw. unfold body_visitor.
  destruct (Body.visitor body); simpl; split; auto.
Qed.

Lemma answers_processAgentMessage fuel body :
  (31 ≤ fuel)%nat →
  agent_typed body = true →
  answers fuel (λ _, True) (λ e, Body.visitor body = None ∧ e = no_visitor)
    (processAgentMessage fuel body).
Proof.
  intros Hfuel Hagent. unfold processAgentMessage.
  assert (Hfirst : ∃ m, first_message body = ret m).
  { unfold first_message, agent_typed in *.
    destruct (Body.message body) as [m|]; [eauto|].
    destruct (Body.messages body) as [[|m rest]|]; try discriminate Hagent. eauto. }
  destruct Hfirst as [m ->].
  eapply answers_bind with (PA := λ x, x = m);
    [apply answers_returns, returns_ret; reflexivity|].
  intros ? ->.
  destruct (_ && _); [apply answers_returns, returns_log|].
  eapply answers_bind; [apply answers_body_visitor|]. intros visitor _.
  cbv zeta. apply answers_returns, returns_processBrevoMessage; exact Hfuel.
Qed.

Lemma answers_brevohook_process fuel body :
  (31 ≤ fuel)%nat →
  answers fuel (λ s, s = "Webhook received successfully")
    (λ e, Body.visitor body = None ∧ e = no_visitor)
    (brevohook_process fuel body).
Proof.
  intros Hfuel. unfold brevohook_process.
  assert (Hincoming : ∀ message,
             answers fuel (λ _ : unit, True)
               (λ e, Body.visitor body = None ∧ e = no_visitor)
               (bind (body_visitor body)
                  (λ visitor, processBrevoMessage fuel visitor message
                                (Visitor.source visitor) true))).
  { intros message. eapply answers_bind; [apply answers_body_visitor|].
    intros visitor _. apply answers_returns, returns_processBrevoMessage; exact Hfuel. }
  eapply answers_bind with (PA := λ _, True).
  { destruct (agent_typed body) eqn:Hagent;
      [apply answers_processAgentMessage; assumption
      | apply answers_returns, returns_ret; exact I]. }
  intros _ _.
  eapply answers_bind with (PA := λ _, True).
  { destruct (String.eqb _ _); [|apply answers_returns, returns_ret; exact I].
    destruct (Body.messages body) as [[|m rest]|];
      try (apply answers_returns, returns_ret; exact I).
    destruct (String.eqb _ _); [|apply answers_returns, returns_ret; exact I].
    apply Hincoming. }
  intros _ _.
  eapply answers_bind with (PA := λ _, True).
  { destruct (String.eqb _ _); [|apply answers_returns, returns_ret; exact I].
    destruct (Body.message body) as [m|]; [|apply answers_returns, returns_ret; exact I].
    destruct (String.eqb _ _); [|apply answers_returns, returns_ret; exact I].
    apply Hincoming. }
  intros _ _. apply answers_returns, returns_ret. reflexivity.
Qed.

(** X21: a delivery to the webhook whose payload carries a visitor is
    always acknowledged, for every payload of the modelled shape (an
    optional message, an optional array of messages, an event name):
    the handler neither throws nor hangs, whatever the store and the
    services do, provided the store rejects no more requests in a row
    than the gateway is given retries.  The answer is one of three
    texts, and it is 'Webhook received successfully' whenever the
    message was not skipped, also when processing it has failed.
    Without a visitor in the payload the handler still ends, but the
    one thing it can do besides acknowledging is to throw on the read
    of [body.visitor.source], which the framework answers with 500; it
    does so for a visitor message of a 'conversationStarted' event, and
    by then the id of the message is in the cache. *)
Theorem webhook_is_acknowledged (fuel : nat) (body : Body.t) (sv : Server E) :
  (31 ≤ fuel)%nat →
  fits fuel (world sv) →
  fits fuel (world (brevohook fuel body sv).2)
  ∧ ((∃ s, (brevohook fuel body sv).1 = Ret s
           ∧ s ∈ ["No message found in webhook"; "Duplicate message skipped";
                  "Webhook received successfully"]
           ∧ (skipped (Ret s) = false → s = "Webhook received successfully"))
     ∨ (Body.visitor body = None ∧ (brevohook fuel body sv).1 = Throw no_visitor))
  ∧ (∀ m, Body.visitor body = None →
          Body.message body = Some m →
          Body.messages body = None →
          BrevoMessage.type m = "visitor" →
          Body.eventName body = "conversationStarted" →
          processedMessages sv !! BrevoMessage.id m = None →
          brevohook fuel body sv
          = (Throw no_visitor,
             mkServer (<[BrevoMessage.id m := clock (world sv)]> (processedMessages sv))
                      (logged "Received webhook:" (world sv)))).
Proof.
  intros Hfuel Hw. split; [|split].
  - unfold brevohook, lift. simpl.
    destruct (webhook_message body) as [m|]; [|exact Hw].
    destruct (processedMessages sv !! BrevoMessage.id m); [exact Hw|].
    match goal with
    | |- context [brevohook_process fuel body ?w0] =>
        destruct (answers_brevohook_process fuel body Hfuel w0 Hw) as [Hfit _];
        destruct (brevohook_process fuel body w0) as [r w1]
    end.
    exact Hfit.
  - unfold brevohook, lift. simpl.
    destruct (webhook_message body) as [m|].
    + destruct (processedMessages sv !! BrevoMessage.id m).
      * left. simpl. eexists. split; [reflexivity|]. split; [in_list | discriminate].
      * match goal with
        | |- context [brevohook_process fuel body ?w0] =>
            destruct (answers_brevohook_process fuel body Hfuel w0 Hw) as [_ Hout];
            destruct (brevohook_process fuel body w0) as [[s|e|] w1]
        end; simpl in *.
        -- left. subst s. eexists. split; [reflexivity|]. split; [in_list | reflexivity].
        -- right. destruct Hout as [Hv ->]. split; [exact Hv | reflexivity].
        -- contradiction.
    + left. simpl. eexists. split; [reflexivity|]. split; [in_list | discriminate].
  - intros m Hv Hm Hms Hty Hev Hnew.
    destruct body as [bm bms bev bv]. simpl in *. subst.
    unfold brevohook, lift, webhook_message. simpl. rewrite Hnew.
    unfold brevohook_process, agent_typed, body_visitor. simpl. rewrite Hty. simpl.
    reflexivity.
Qed.

(** X22: a delivery that the handler skips, because the payload holds
    no message or because the id of its message is in the cache, has no
    effect but two lines on the console: the cache, the store, the
    services and the clock are as before. *)
Theorem skipped_delivery_changes_nothing (fuel : nat) (body : Body.t) (sv : Server E) :
  skipped (brevohook fuel body sv).1 = true →
  processedMessages (brevohook fuel body sv).2 = processedMessages sv
  ∧ pb (world (brevohook fuel body sv).2) = pb (world sv)
  ∧ env (world (brevohook fuel body sv).2) = env (world sv)
  ∧ clock (world (brevohook fuel body sv).2) = clock (world sv)
  ∧ (webhook_message body = None
     ∨ ∃ m t, webhook_message body = Some m
              ∧ processedMessages sv !! BrevoMessage.id m = Some t).
Proof.
  intros Hskip.
  destruct (webhook_message body) as [m|] eqn:Hm.
  - destruct (processedMessages sv !! BrevoMessage.id m) as [t|] eqn:Hseen.
    + rewrite (brevohook_duplicate _ _ _ _ _ Hm Hseen). simpl.
      repeat split. right. eauto.
    + rewrite (brevohook_first_sight _ _ _ _ Hm Hseen) in Hskip. discriminate.
  - unfold brevohook, lift. simpl. rewrite Hm. simpl. repeat split. left. reflexivity.
Qed.

(** *** The cache of processed ids *)

Lemma sweep_lookup sv i :
  processedMessages (sweep sv) !! i
  = match processedMessages sv !! i with
    | Some t => if bool_decide (clock (world sv) - t ≤ max_age) then Some t else None
    | None => None
    end.
Proof.
  unfold sweep. simpl.
  destruct (processedMessages sv !! i) as [t|] eqn:Hl.
  - case_bool_decide as Hage.
    + apply map_lookup_filter_Some. split; [exact Hl|]. simpl. lia.
    + apply map_lookup_filter_None. right. intros t' Hl'. simpl.
      rewrite Hl in Hl'. inversion Hl'; subst. lia.
  - apply map_lookup_filter_None. left. exact Hl.
Qed.

Lemma deliver_keeps_entry fuel t body sv i t1 :
  processedMessages sv !! i = Some t1 →
  processedMessages (step fuel (Deliver t body) sv) !! i = Some t1.
Proof.
  intros Hl. simpl. rewrite brevohook_processedMessages. simpl.
  destruct (webhook_message body) as [m|]; [|exact Hl].
  destruct (processedMessages sv !! BrevoMessage.id m) eqn:Hm; [exact Hl|].
  rewrite lookup_insert_ne; [exact Hl|]. intros Heq. rewrite Heq in Hm. congruence.
Qed.

(** X23: the cache forgets an id at a sweep, and only when the sweep
    finds the entry older than an hour.  After a first delivery at [t1]
    and a sweep at [t], a second delivery of the id is skipped exactly
    when [t - t1 <= 3600000], whatever the time [t2] at which it
    arrives: an entry that has survived the sweep still suppresses a
    delivery that comes more than an hour after the first. *)
Theorem entry_expires_at_sweep (fuel : nat) (sv0 : Server E) (t1 t t2 : Z)
    (b1 b2 : Body.t) (m1 m2 : BrevoMessage.t) :
  webhook_message b1 = Some m1 →
  webhook_message b2 = Some m2 →
  BrevoMessage.id m2 = BrevoMessage.id m1 →
  processedMessages sv0 !! BrevoMessage.id m1 = None →
  let sv := step fuel (Sweep t) (step fuel (Deliver t1 b1) sv0) in
  skipped (brevohook fuel b2 (at_time t2 sv)).1 = bool_decide (t - t1 ≤ max_age).
Proof.
  intros H1 H2 Hid Hnew sv.
  assert (Hentry : processedMessages (step fuel (Deliver t1 b1) sv0) !! BrevoMessage.id m1
                   = Some t1).
  { simpl. rewrite brevohook_processedMessages, H1. simpl. rewrite Hnew.
    apply lookup_insert_eq. }
  assert (Hsv : processedMessages (at_time t2 sv) !! BrevoMessage.id m2
                = if bool_decide (t - t1 ≤ max_age) then Some t1 else None).
  { subst sv. rewrite Hid.
    change (processedMessages
              (at_time t2 (step fuel (Sweep t) (step fuel (Deliver t1 b1) sv0))))
      with (processedMessages (sweep (at_time t (step fuel (Deliver t1 b1) sv0)))).
    rewrite sweep_lookup.
    change (processedMessages (at_time t (step fuel (Deliver t1 b1) sv0)))
      with (processedMessages (step fuel (Deliver t1 b1) sv0)).
    rewrite Hentry. reflexivity. }
  case_bool_decide as Hage.
  - rewrite (brevohook_duplicate _ _ _ _ _ H2 Hsv). reflexivity.
  - apply (brevohook_first_sight _ _ _ _ H2 Hsv).
Qed.

(** X24: between two sweeps the cache forgets nothing: after a run of
    deliveries alone, an id that was recorded is still recorded with
    the time of its first delivery, and a further delivery of it is
    skipped however late it comes. *)
Theorem entry_kept_between_sweeps (fuel : nat) (sv : Server E) (evs : list Event)
    (body : Body.t) (m : BrevoMessage.t) (t1 t2 : Z) :
  Forall (λ ev, match ev with Deliver _ _ => True | Sweep _ => False end) evs →
  processedMessages sv !! BrevoMessage.id m = Some t1 →
  webhook_message body = Some m →
  processedMessages (run fuel evs sv) !! BrevoMessage.id m = Some t1
  ∧ (brevohook fuel body (at_time t2 (run fuel evs sv))).1
    = Ret "Duplicate message skipped".
Proof.
  intros Hevs Hl Hm.
  assert (Hkept : processedMessages (run fuel evs sv) !! BrevoMessage.id m = Some t1).
  { revert sv Hl. induction Hevs as [|ev evs Hev _ IH]; intros sv Hl; [exact Hl|].
    simpl. apply IH. destruct ev as [t body'|t]; [|contradiction].
    apply deliver_keeps_entry, Hl. }
  split; [exact Hkept|].
  rewrite (brevohook_duplicate _ _ m t1 _ Hm); [reflexivity|]. exact Hkept.
Qed.

(** *** The send API *)

(** X25: [POST /api/messages] answers 400 without sending anything when
    [platformChatId], [source] or [text] is missing or empty, when
    [visitorId] is the empty string, or when the source is none of
    telegram, instagram, whatsapp and brevo: no service is called and
    the store is not touched.  A missing [visitorId] is no reason to
    reject: it stands for 'text'. *)
Theorem send_api_rejects_without_sending (body : SendBody.t) (w : World E) :
  truthy (SendBody.platformChatId body) = false
  ∨ truthy (SendBody.source body) = false
  ∨ truthy (SendBody.text body) = false
  ∨ SendBody.visitorId body = Some ""
  ∨ default "" (SendBody.source body)
    ∉ ["telegram"; "instagram"; "whatsapp"; "brevo"] →
  ∃ text,
    api_messages body w
    = (Ret (bad_request text), logged "Received message request:" w)
    ∧ (truthy (SendBody.platformChatId body) = true →
       truthy (SendBody.source body) = true →
       truthy (SendBody.text body) = true →
       SendBody.visitorId body ≠ Some "" →
       text = "Unsupported source: " +:+ default "" (SendBody.source body)).
Proof.
  intros H. unfold api_messages, try_catch. unfold bind at 1. unfold log at 1.
  fold (logged "Received message request:" w).
  destruct (truthy (SendBody.platformChatId body)) eqn:Hp;
    [|eexists; split; [reflexivity | intros; discriminate]].
  destruct (truthy (SendBody.source body)) eqn:Hsrc;
    [|eexists; split; [reflexivity | intros; discriminate]].
  destruct (truthy (SendBody.text body)) eqn:Ht;
    [|eexists; split; [reflexivity | intros; discriminate]].
  destruct (SendBody.visitorId body) as [v|] eqn:Hv.
  - destruct (String.eqb_spec v "") as [->|Hne].
    + simpl. eexists; split; [reflexivity | intros _ _ _ Hc; congruence].
    + assert (Htv : truthy (Some v) = true)
        by (simpl; apply negb_true_iff, String.eqb_neq; exact Hne).
      rewrite Htv. simpl.
      destruct H as [H|[H|[H|[H|H]]]]; try discriminate; [congruence|].
      unfold bind at 1, Date_now.
      destruct (String.eqb_spec (default "" (SendBody.source body)) "telegram")
        as [Heq|_]; [exfalso; apply H; rewrite Heq; in_list|].
      rewrite bool_decide_eq_false_2 by (intros Hin; apply H; right; exact Hin).
      eexists; split; [reflexivity | intros; reflexivity].
  - simpl.
    destruct H as [H|[H|[H|[H|H]]]]; try discriminate.
    unfold bind at 1, Date_now.
    destruct (String.eqb_spec (default "" (SendBody.source body)) "telegram")
      as [Heq|_]; [exfalso; apply H; rewrite Heq; in_list|].
    rewrite bool_decide_eq_false_2 by (intros Hin; apply H; right; exact Hin).
    eexists; split; [reflexivity | intros; reflexivity].
Qed.

Lemma sendTelegramMessage_fails chatId text w e :
  (bot_sendMessage svc chatId text (env w)).1 = Failed e →
  ∃ w', sendTelegramMessage chatId text w = (Throw e, w').
Proof.
  intros Hfail. unfold sendTelegramMessage, try_catch.
  destruct (call_spec (bot_sendMessage svc chatId text) w) as (w1 & Hc & _ & _).
  rewrite Hc, Hfail. eexists. reflexivity.
Qed.

Lemma sendBrevoMessage_fails visitorId text w e :
  (conversationsMessagesPost svc visitorId text (env w)).1 = Failed e →
  ∃ w', sendBrevoMessage visitorId text w = (Ret None, w').
Proof.
  intros Hfail. unfold sendBrevoMessage, try_catch. unfold bind at 1.
  destruct (call_spec (conversationsMessagesPost svc visitorId text) w)
    as (w1 & Hc & _ & _).
  rewrite Hc, Hfail. eexists. reflexivity.
Qed.

(** X26: a failed send is reported for Telegram only.  When the bot
    fails to send, [POST /api/messages] answers 500 with the message of
    the error; when the aggregator fails to send, it answers 200 with
    [success: true] and a [messageId] of [null]. *)
Theorem send_failure_is_reported_for_telegram_only (body : SendBody.t) (w : World E)
    (platformChatId text source : string) (e : Exn) :
  SendBody.platformChatId body = Some platformChatId →
  SendBody.text body = Some text →
  SendBody.source body = Some source →
  platformChatId ≠ "" → text ≠ "" → source ≠ "" →
  SendBody.visitorId body ≠ Some "" →
  (source = "telegram" →
   (bot_sendMessage svc platformChatId text (env w)).1 = Failed e →
   (api_messages body w).1
   = Ret {| code := 500; success := false;
            reply_message := or_else (Some (error_message e)) "Internal server error";
            external := None |})
  ∧ (source ∈ ["instagram"; "whatsapp"; "brevo"] →
     (conversationsMessagesPost svc (default "text" (SendBody.visitorId body)) text
        (env w)).1 = Failed e →
     (api_messages body w).1
     = Ret {| code := 200; success := true;
              reply_message := "Message sent via " +:+ source;
              external := Some {| platform := source; messageId := Some None |} |}).
Proof.
  intros Hp Ht Hs Hpne Htne Hsne Hv.
  assert (Hvis : truthy (match SendBody.visitorId body with
                         | None => Some "text"
                         | v => v
                         end) = true
                 ∧ default "" (match SendBody.visitorId body with
                               | None => Some "text"
                               | v => v
                               end) = default "text" (SendBody.visitorId body)).
  { destruct (SendBody.visitorId body) as [v|]; [|split; reflexivity].
    split; [|reflexivity]. simpl. apply negb_true_iff, String.eqb_neq. congruence. }
  destruct Hvis as [Hvt Hvd].
  assert (Hcomplete : truthy (Some platformChatId) = true ∧ truthy (Some text) = true
                      ∧ truthy (Some source) = true).
  { simpl. rewrite !negb_true_iff, !String.eqb_neq. auto. }
  destruct Hcomplete as (Hp' & Ht' & Hs').
  unfold api_messages, try_catch.
  match goal with
  | |- context [bind (log ?l) ?k w] =>
      change (bind (log l) k w) with (k () (logged l w)); cbv beta
  end.
  rewrite Hvd, Hp, Ht, Hs, Hvt, Hp', Ht', Hs'. cbn [negb orb default id].
  step_pure.
  split.
  - intros -> Hfail. rewrite String.eqb_refl.
    destruct (sendTelegramMessage_fails platformChatId text
                (logged "Received message request:" w) e Hfail) as (w1 & Hsend).
    rewrite (bind_thrown _ _ _ _ _ Hsend). reflexivity.
  - intros Hin Hfail.
    assert (Hnt : String.eqb source "telegram" = false).
    { apply String.eqb_neq. intros ->. apply list_elem_of_In in Hin. simpl in Hin.
      intuition discriminate. }
    rewrite Hnt. rewrite bool_decide_eq_true_2 by exact Hin.
    destruct (sendBrevoMessage_fails (default "text" (SendBody.visitorId body)) text
                (logged "Received message request:" w) e Hfail) as (w1 & Hsend).
    rewrite (bind_returned _ _ _ _ _ Hsend). reflexivity.
Qed.

(** *** Admission *)



(** ** Further properties of the gateway and the adapters *)

(** X3: [getChatById], [getMediaRecord] and [findOrCreateChat] never
    throw, whatever the store answers and whatever they are asked for,
    and they return as long as the store rejects no more requests in a
    row than they are given retries: every failure reaches the caller as
    [null] ([undefined] for [getMediaRecord]). *)
Theorem lookups_never_throw (fuel : nat) (chatId mediaId id : string)
    (source : MessageSource) (name : option string) (w : World E) :
  fits fuel w →
  (∃ o, (getChatById fuel chatId w).1 = Ret o)
  ∧ (∃ o, (getMediaRecord mediaId w).1 = Ret o)
  ∧ (∃ o, (findOrCreateChat fuel id source name w).1 = Ret o)
  ∧ never_throws (getChatById fuel chatId)
  ∧ never_throws (getMediaRecord mediaId)
  ∧ never_throws (findOrCreateChat fuel id source name).
Proof.
  intros Hw.
  split; [apply (getChatById_ends fuel chatId w Hw)|].
  split.
  { destruct (only_getMediaRecord fuel mediaId w Hw) as [_ Hout].
    pose proof (getMediaRecord_never_throws mediaId w) as Hnt.
    destruct (getMediaRecord mediaId w).1 as [o|e|]; [eauto | | contradiction].
    exfalso. apply (Hnt e). reflexivity. }
  split.
  { destruct (findOrCreateChat_ends fuel id source name w Hw) as (o & w' & Hr & _).
    rewrite Hr. eauto. }
  split; [apply getChatById_never_throws|].
  split; [apply getMediaRecord_never_throws|].
  apply findOrCreateChat_never_throws.
Qed.

(** *** The messages of a Telegram exchange *)

Lemma exchange_same {A} (P : Message.t → Prop) (m : M A) :
  stable same_messages m → exchange P m.
Proof.
  intros H w. exists []. rewrite app_nil_r. split; [apply H | left; reflexivity].
Qed.

Lemma exchange_bind_l {A B} (P : Message.t → Prop) (m : M A) (k : A → M B) :
  stable same_messages m → (∀ a, exchange P (k a)) → exchange P (bind m k).
Proof.
  intros Hm Hk w. unfold bind. specialize (Hm w). unfold same_messages in Hm.
  destruct (m w) as [[a|e|] w1]; simpl in *.
  - rewrite <- Hm. apply Hk.
  - exists []. rewrite app_nil_r. split; [exact Hm | left; reflexivity].
  - exists []. rewrite app_nil_r. split; [exact Hm | left; reflexivity].
Qed.

Lemma exchange_try_catch {A} (P : Message.t → Prop) (m : M A) (h : Exn → M A) :
  exchange P m → (∀ e, stable same_messages (h e)) → exchange P (try_catch m h).
Proof.
  intros Hm Hh w. rewrite try_catch_log_messages by exact Hh. apply Hm.
Qed.

(** The incoming message is stored first, and the reply after it. *)
Lemma exchange_save_reply {A} (P : Message.t → Prop) msg (k : Message.t → M A) :
  (∀ i, P (Message.with_id i msg)) →
  (∀ u w, messages (pb (k u w).2) = messages (pb w)
          ∨ ∃ a, messages (pb (k u w).2) = messages (pb w) ++ [a]
                 ∧ Message.isIncoming a = false
                 ∧ Message.responseMode a = Auto) →
  exchange P (bind (saveMessage msg) k).
Proof.
  intros HP Hk w. unfold bind.
  destruct (saveMessage_spec msg w) as [(i & Hrun & Hs) | (Hno & Hs)].
  - destruct (saveMessage msg w) as [o w2]. simpl in *. inversion Hrun; subst o.
    destruct (Hk (Message.with_id i msg) w2) as [Hsame | (a & Happ & Ha)].
    + exists [Message.with_id i msg]. split; [congruence|].
      right. exists (Message.with_id i msg). split; [apply HP | left; reflexivity].
    + exists [Message.with_id i msg; a]. split.
      * rewrite Happ, Hs, <- app_assoc. reflexivity.
      * right. exists (Message.with_id i msg). split; [apply HP|].
        right. exists a. split; [reflexivity | exact Ha].
  - exists []. rewrite app_nil_r. split; [|left; reflexivity].
    destruct (saveMessage msg w) as [[r|e|] w2]; simpl in *; try exact Hs.
    exfalso. apply (Hno r). reflexivity.
Qed.

Lemma chat_id_of_same_messages chat : stable same_messages (chat_id_of chat).
Proof. intros w. destruct chat; reflexivity. Qed.

Lemma downloadTgFile_same_messages fileId : stable same_messages (downloadTgFile fileId).
Proof. unfold downloadTgFile. stable_auto. Qed.

Lemma reply_if_auto fuel (auto : bool) msg platformChatId thread (u : Message.t) w :
  messages (pb ((if auto then handleOpenAI fuel msg platformChatId thread
                 else ret ()) w).2) = messages (pb w)
  ∨ ∃ a, messages (pb ((if auto then handleOpenAI fuel msg platformChatId thread
                        else ret ()) w).2) = messages (pb w) ++ [a]
         ∧ Message.isIncoming a = false
         ∧ Message.responseMode a = Auto.
Proof.
  destruct auto; [apply handleOpenAI_persists_auto | left; reflexivity].
Qed.

(** X28: what a Telegram handler stores for an update is nothing, or the
    incoming message in canonical form (the message id and the sender
    id as strings, source telegram, the date in milliseconds, response
    mode manual, the sender's first name or 'Unknown'), or that message
    followed by one automated reply; the incoming message is stored
    before any reply is generated.  A text is stored as text with its
    text, a photo as image with its caption or the empty string and
    with a media file, and a voice message as audio (not voice) with
    the content 'Voice message'. *)
Theorem telegram_message_is_stored_normalized (fuel : nat) (ctx : Context.t) :
  (∀ m, Context.message ctx = Some m →
        exchange (λ r, telegram_record ctx m r
                       ∧ Message.type r = Text
                       ∧ Message.content r = default "" (TgMessage.text m)
                       ∧ Message.mediaFileId r = None)
          (handleTgTextMessage fuel ctx))
  ∧ (∀ m sizes, message_photo ctx = Some (m, sizes) →
        exchange (λ r, telegram_record ctx m r
                       ∧ Message.type r = Image
                       ∧ Message.content r = or_else (TgMessage.caption m) ""
                       ∧ is_Some (Message.mediaFileId r))
          (handleTgPhotoMessage fuel ctx))
  ∧ (∀ m voice, message_voice ctx = Some (m, voice) →
        exchange (λ r, telegram_record ctx m r
                       ∧ Message.type r = Audio
                       ∧ Message.content r = "Voice message")
          (handleTgVoiceMessage fuel ctx)).
Proof.
  split; [|split].
  - intros m Hm. unfold handleTgTextMessage. rewrite Hm.
    destruct (negb (truthy (TgMessage.text m)));
      [apply exchange_same, stable_ret; apply _|].
    cbv zeta.
    apply exchange_bind_l; [apply findOrCreateChat_same_messages|]. intros chat.
    apply exchange_bind_l; [apply chat_id_of_same_messages|]. intros cid.
    apply exchange_save_reply.
    + intros i. unfold telegram_record. simpl. repeat split.
    + intros u w. apply reply_if_auto. exact u.
  - intros m sizes Hm. unfold handleTgPhotoMessage. rewrite Hm.
    destruct (negb (chat_present ctx)); [apply exchange_same, stable_ret; apply _|].
    apply exchange_try_catch; [|intros e; apply log_same_messages].
    destruct (last sizes) as [bestPhoto|];
      [|apply exchange_same, stable_throw; apply _].
    apply exchange_bind_l; [apply downloadTgFile_same_messages|]. intros fileResponse.
    apply exchange_bind_l; [apply saveMediaFile_same_messages|]. intros fileId.
    cbv zeta.
    apply exchange_bind_l; [apply findOrCreateChat_same_messages|]. intros chat.
    apply exchange_bind_l; [apply chat_id_of_same_messages|]. intros cid.
    apply exchange_save_reply.
    + intros i. unfold telegram_record. simpl. repeat split. eexists. reflexivity.
    + intros u w. apply reply_if_auto. exact u.
  - intros m voice Hm. unfold handleTgVoiceMessage. rewrite Hm.
    destruct (negb (chat_present ctx)); [apply exchange_same, stable_ret; apply _|].
    apply exchange_try_catch; [|intros e; apply log_same_messages].
    apply exchange_bind_l; [apply downloadTgFile_same_messages|]. intros fileResponse.
    apply exchange_bind_l; [apply saveMediaFile_same_messages|]. intros fileId.
    cbv zeta.
    apply exchange_bind_l; [apply findOrCreateChat_same_messages|]. intros chat.
    apply exchange_bind_l; [apply chat_id_of_same_messages|]. intros cid.
    apply exchange_save_reply.
    + intros i. unfold telegram_record. simpl. repeat split.
    + intros u w. apply reply_if_auto. exact u.
Qed.

(** *** The source of the messages of a conversation *)

Lemma appends_ext {A} (P : Message.t → Prop) (m m' : M A) :
  (∀ w, m w = m' w) → appends P m' → appends P m.
Proof. intros Heq H w. rewrite Heq. apply H. Qed.

(** X29: of one conversation, the message of an agent is stored as
    outgoing under the source of the visitor with 'widget' replaced by
    'instagram', while the message of the visitor is stored as incoming
    under the source of the visitor as it is: the two directions of a
    widget conversation carry different sources. *)
Theorem agent_and_visitor_sources (fuel : nat) (m : BrevoMessage.t)
    (eventName : string) (visitor : Visitor.t) :
  (BrevoMessage.type m = "agent" →
   appends (brevo_record visitor m (agent_platform visitor) false)
     (brevohook_process fuel (Body.mk (Some m) None eventName (Some visitor))))
  ∧ (BrevoMessage.type m = "visitor" →
     appends (brevo_record visitor m (Visitor.source visitor) true)
       (brevohook_process fuel (Body.mk (Some m) None "conversationStarted" (Some visitor)))).
Proof.
  split; intros Hty.
  - eapply appends_ext; [intros w; apply brevohook_process_agent; exact Hty|].
    apply appends_bind_r; [|intros u; apply stable_ret; apply _].
    unfold processAgentMessage, first_message. cbn [Body.message Body.visitor].
    apply appends_bind_ret.
    destruct (_ && _); [apply appends_same, log_same_messages|].
    cbv zeta. apply processBrevoMessage_appends.
  - eapply appends_ext; [intros w; apply brevohook_process_started; exact Hty|].
    apply appends_bind_r; [|intros u; apply stable_ret; apply _].
    apply processBrevoMessage_appends.
Qed.

(** *** The thread of a chat *)

Lemma getChatById_found fuel i c w :
  served w → find_chat_by_id i (pb w) = Some c →
  getChatById fuel i w = (Ret (Some c), after_request w).
Proof.
  intros Hs Hf. known_world w. unfold served in Hs. unfold find_chat_by_id in Hf.
  simpl in Hs, Hf.
  destruct fuel; cbn [getChatById]; unfold chats_getOne;
    destruct sc as [|[e|] rest]; try contradiction; run_store; rewrite Hf; reflexivity.
Qed.

Lemma saveChat_updates fuel chat i c0 w :
  served w → Chat.id chat = Some i → i ≠ "" →
  find_chat_by_id i (pb w) = Some c0 →
  ∃ w', saveChat fuel chat w = (Ret chat, w')
        ∧ chats (pb w') = replace_chat i chat (chats (pb w))
        ∧ script (pb w') = tail (script (pb w)).
Proof.
  intros Hs Hid Hne Hf.
  destruct chat as [ci cp cs cn cu ca ct]. simpl in Hid. subst ci.
  assert (Ht : String.eqb i "" = false) by (apply String.eqb_neq; exact Hne).
  known_world w. unfold served in Hs. unfold find_chat_by_id in Hf. simpl in Hs, Hf.
  destruct sc as [|[?|] sc]; [| contradiction |];
    (eexists; split;
     [ destruct fuel; cbn [saveChat]; unfold truthy, chats_update; simpl;
       rewrite Ht; run_store; rewrite Hf; run_store; reflexivity
     | split; reflexivity ]).
Qed.

Lemma bind_stable_tail {A B} (m : M A) (k : A → M B) w a w1 :
  m w = (Ret a, w1) → stable same_pb (k a) → pb (bind m k w).2 = pb w1.
Proof. intros Hm Hk. unfold bind. rewrite Hm. apply Hk. Qed.

(** X30: the first text message of a chat that has no thread gets a
    thread created, and the handle of the new thread is recorded on the
    stored chat before the assistant is asked: whether or not the reply
    then comes, the chat carries the new handle, and the chats of the
    store are otherwise as they were. *)
Theorem new_thread_is_recorded (fuel : nat) (message : Message.t)
    (threadId : option string) (assistantId thread : string) (c : Chat.t)
    (w : World E) :
  truthy threadId = false →
  OPENAI_ASSISTANT_ID cfg = Some assistantId →
  assistantId ≠ "" →
  (threads_create svc (env w)).1 = Answered thread →
  served w → served (after_request w) →
  Message.chatId message ≠ "" →
  find_chat_by_id (Message.chatId message) (pb w) = Some c →
  chats (pb (handleTextMessage fuel message threadId w).2)
  = replace_chat (Message.chatId message) (Chat.with_thread (Some thread) c)
      (chats (pb w))
  ∧ find_chat_by_id (Message.chatId message)
      (pb (handleTextMessage fuel message threadId w).2)
    = Some (Chat.with_thread (Some thread) c)
  ∧ messages (pb (handleTextMessage fuel message threadId w).2) = messages (pb w).
Proof.
  intros Hth Hid Hne Hcreate Hs1 Hs2 Hcne Hfind.
  assert (Hcid : Chat.id c = Some (Message.chatId message)).
  { unfold find_chat_by_id in Hfind. apply find_some in Hfind as [_ Hp].
    apply bool_decide_eq_true in Hp. exact Hp. }
  assert (Hsetup : ∃ w3,
             bind (call (threads_create svc))
               (λ thread0,
                  bind (getChatById fuel (Message.chatId message))
                    (λ chat,
                       match chat with
                       | None =>
                           throw (TypeError
                                    "null is not an object (setting 'openAIThreadId')")
                       | Some c0 =>
                           bind (saveChat fuel (Chat.with_thread (Some thread0) c0))
                             (λ _, bind (log ("Created new thread " +:+ thread0
                                              +:+ " for chat "
                                              +:+ default "undefined" (Chat.id c0)))
                                     (λ _, ret thread0))
                       end)) w
             = (Ret thread, w3)
             ∧ chats (pb w3)
               = replace_chat (Message.chatId message)
                   (Chat.with_thread (Some thread) c) (chats (pb w))
             ∧ messages (pb w3) = messages (pb w)).
  { step_call w1 Hpb1. rewrite Hcreate.
    assert (Hs1' : served w1) by (unfold served in *; rewrite Hpb1; exact Hs1).
    assert (Hfind' : find_chat_by_id (Message.chatId message) (pb w1) = Some c)
      by (unfold find_chat_by_id in *; rewrite Hpb1; exact Hfind).
    rewrite (bind_returned _ _ _ _ _
               (getChatById_found fuel _ c w1 Hs1' Hfind')).
    assert (Hs2' : served (after_request w1))
      by (unfold served in *; simpl in *; rewrite Hpb1; exact Hs2).
    destruct (saveChat_updates fuel (Chat.with_thread (Some thread) c)
                (Message.chatId message) c (after_request w1) Hs2')
      as (w2 & Hsave & Hchats & _).
    { destruct c; exact Hcid. }
    { exact Hcne. }
    { unfold find_chat_by_id in *. simpl. rewrite Hpb1. exact Hfind. }
    rewrite (bind_returned _ _ _ _ _ Hsave).
    eexists. split; [reflexivity|]. simpl. rewrite Hchats. simpl. rewrite Hpb1.
    split; [reflexivity|].
    pose proof (saveChat_same_messages fuel (Chat.with_thread (Some thread) c)
                  (after_request w1)) as Hm.
    rewrite Hsave in Hm. unfold same_messages in Hm. simpl in Hm. rewrite Hm, Hpb1.
    reflexivity. }
  destruct Hsetup as (w3 & Hrun & Hchats & Hmsgs).
  assert (Hpb : pb (handleTextMessage fuel message threadId w).2 = pb w3).
  { unfold handleTextMessage.
    rewrite Hid, (proj2 (String.eqb_neq _ _) Hne), Hth.
    eapply bind_stable_tail; [exact Hrun|]. cbv beta. stable_auto. }
  rewrite Hpb. split; [exact Hchats|]. split; [|exact Hmsgs].
  unfold find_chat_by_id. rewrite Hchats.
  apply (find_replace_chat _ _ _ c); [exact Hfind|].
  destruct c; exact Hcid.
Qed.

(** ** Arrays of messages in a webhook body (C10) *)









End Pipeline.

(** * The pipeline on the example inputs *)

(** The scenario of the spec: the first delivery creates the chat of
    thread "t1" on WhatsApp and stores the incoming text "Hola". *)
Example scenario_conversationStarted :
  let sv := (brevohook healthy example_config 40 conversationStarted fresh_server).2 in
  List.map (λ c, (Chat.platformChatId c, Chat.source c)) (chats (pb (world sv)))
  = [(Some "t1", "whatsapp")]
  ∧ List.map (λ m, (Message.content m, Message.isIncoming m, Message.type m))
             (messages (pb (world sv)))
    = [("Hola", true, Text)].
Proof. vm_compute. split; reflexivity. Qed.

(** C1, counterexample: the message "m1" is delivered at 100 ms, again
    50 minutes later (skipped, and the recorded time stays 100), the
    seventh tick of the cleaning timer at 70 minutes drops the entry, and
    a third delivery at 75 minutes, 25 minutes after the second, is
    processed again: a second copy of the message is stored. *)
Lemma duplicate_reprocessed_after_sweep :
  let early := run healthy example_config 40 [Deliver 100 conversationStarted] fresh_server in
  let late := run healthy example_config 40
                [Deliver 3000000 conversationStarted; Sweep 4200000] early in
  (brevohook healthy example_config 40 conversationStarted (at_time 3000000 early)).1
  = Ret "Duplicate message skipped"
  ∧ 4500000 - 3000000 ≤ max_age
  ∧ 4200000 = 7 * sweep_interval
  ∧ (brevohook healthy example_config 40 conversationStarted (at_time 4500000 late)).1
    = Ret "Webhook received successfully"
  ∧ length (messages (pb (world
      (step healthy example_config 40 (Deliver 4500000 conversationStarted) late)))) = 2%nat
  ∧ attempts healthy example_config 40 "m1"
      [Deliver 3000000 conversationStarted; Sweep 4200000;
       Deliver 4500000 conversationStarted] early = 1%nat.
Proof.
  cbv zeta. split; [vm_compute; reflexivity|]. split; [unfold max_age; lia|].
  split; [reflexivity|].
  split; [vm_compute; reflexivity|]. split; vm_compute; reflexivity.
Qed.

(** The amended C1 on a run: "m1" at 100 ms, the first tick of the
    cleaning timer, another message, and "m1" again after 50 minutes. *)
Lemma duplicate_within_hour_of_processed_witness :
  let sv1 := step healthy example_config 40 (Deliver 100 conversationStarted) fresh_server in
  let sv2 := run healthy example_config 40
               [Sweep 600000; Deliver 700000 conversationFragment] sv1 in
  processedMessages sv1 !! BrevoMessage.id Hola = Some 100
  ∧ brevohook healthy example_config 40 conversationStarted (at_time 3000000 sv2)
    = (Ret "Duplicate message skipped",
       logged_skip (BrevoMessage.id Hola) (at_time 3000000 sv2))
  ∧ attempts healthy example_config 40 (BrevoMessage.id Hola)
      (Deliver 100 conversationStarted
       :: [Sweep 600000; Deliver 700000 conversationFragment]
       ++ [Deliver 3000000 conversationStarted]) fresh_server = 1%nat.
Proof.
  apply (duplicate_within_hour_of_processed healthy example_config 40 fresh_server
           100 3000000 conversationStarted conversationStarted Hola Hola
           [Sweep 600000; Deliver 700000 conversationFragment]).
  - reflexivity.
  - reflexivity.
  - reflexivity.
  - reflexivity.
  - repeat constructor; simpl; lia.
  - unfold max_age. lia.
Defined.

(** C2, counterexample: on a session-expiry rejection [saveMessage]
    throws at once, after one request and no re-authentication; and
    [getMessageById], rejected a second time after its first refresh, does
    not give up but re-authenticates a second time and tries a third
    time. *)
Lemma no_refresh_once_retry_once :
  let saved := saveMessage text_in_A (world_with_script [Some expiry; None]) in
  let probed := getMessageById 5 "m1" "v1"
                  (world_with_script [Some expiry; None; Some expiry; None]) in
  expired expiry = true
  ∧ saved.1 = Throw expiry
  ∧ authCalls (pb saved.2) = 0%nat
  ∧ requests (pb saved.2) = 1%nat
  ∧ probed.1 = Ret None
  ∧ authCalls (pb probed.2) = 2%nat
  ∧ requests (pb probed.2) = 5%nat.
Proof. vm_compute. repeat split; reflexivity. Qed.

(** The amended C2 on a store that rejects two requests in a row with
    a session expiry. *)
Lemma retry_after_every_expiry_witness :
  getMessageById 5 "m1" "v1" (world_with_script (expiring 2 expiry []))
  = getMessageById 3 "m1" "v1" (rounds 2 (world_with_script (expiring 2 expiry [])))
  ∧ saveMessage text_in_A (world_with_script (expiring 2 expiry []))
    = (Throw expiry, after_request (world_with_script (expiring 2 expiry []))).
Proof.
  pose proof (retry_after_every_expiry 1 3 (world_with_script (expiring 2 expiry []))
                expiry [] "m1" "v1" chat_A "42" "telegram" None None 10 "chat_A"
                text_in_A "bytes" "p.jpg" "image/jpeg" "telegram"
                eq_refl eq_refl eq_refl) as H.
  split; [apply H | apply H].
Defined.

(** C3: a Telegram photo whose download is answered with 404, or fails
    on the network, leaves no message behind: the handler throws before
    it resolves the chat, and its [catch] only logs.  The Brevo adapter,
    on the same failure, stores the message without [mediaFileId] and
    with its text. *)
Lemma telegram_photo_lost_when_download_fails :
  let refused := handleTgPhotoMessage no_download example_config 40 tg_photo empty_world in
  let failed := handleTgPhotoMessage unreachable example_config 40 tg_photo empty_world in
  let brevo := brevohook no_download example_config 40 conversationFragment fresh_server in
  refused.1 = Ret ()
  ∧ messages (pb refused.2) = []
  ∧ console refused.2 = ["Error processing photo message:"]
  ∧ failed.1 = Ret ()
  ∧ messages (pb failed.2) = []
  ∧ List.map (λ m, (Message.type m, Message.content m, Message.mediaFileId m))
             (messages (pb (world brevo.2)))
    = [(Image, "look", None)].
Proof. vm_compute. repeat split; reflexivity. Qed.

(** C4: chat "chat_A" is in auto mode and has the handle "thread_A".  A
    text message is answered on that thread and the chat keeps it; a photo
    in the same chat is answered on a thread created for the occasion,
    whose handle replaces "thread_A" on the chat. *)
Lemma image_reply_replaces_thread :
  let after_text := handleTgTextMessage healthy example_config 40 tg_text world_A in
  let after_photo := handleTgPhotoMessage healthy example_config 40 tg_photo world_A in
  List.map Chat.openAIThreadId (chats (pb world_A)) = [Some "thread_A"]
  ∧ List.map Chat.openAIThreadId (chats (pb after_text.2)) = [Some "thread_A"]
  ∧ List.map Chat.openAIThreadId (chats (pb after_photo.2)) = [Some "thread_4"].
Proof. vm_compute. repeat split; reflexivity. Qed.

(** Before the first automated reply the handle is empty; the reply to
    the first text message creates "thread_0" and saves it onto the
    chat. *)
Example first_reply_creates_thread :
  let after := getAIResponse healthy example_config 40 text_in_A (Some "") world_B in
  List.map Chat.openAIThreadId (chats (pb world_B)) = [Some ""]
  ∧ after.1 = Ret "Hi!"
  ∧ List.map Chat.openAIThreadId (chats (pb after.2)) = [Some "thread_0"].
Proof. vm_compute. repeat split; reflexivity. Qed.

(** C5, counterexample: the download of the stored image fails, an
    exception in media retrieval, and the reply is the text of the image
    handler, not the apology. *)
Lemma image_failure_is_not_the_apology :
  (getAIResponse unreachable example_config 40 image_in_A (Some "thread_A") world_A).1
  = Ret "Не удалось получить изображение из хранилища."
  ∧ "Не удалось получить изображение из хранилища." ≠ apology.
Proof. split; [vm_compute; reflexivity | discriminate]. Qed.

(** The amended C5 on the image whose download fails. *)
Lemma getAIResponse_catches_witness :
  (getAIResponse unreachable example_config 40 image_in_A (Some "thread_A") world_A).1
  = Ret "Не удалось получить изображение из хранилища.".
Proof.
  eapply (proj1 (proj2 (proj2
            (getAIResponse_catches unreachable example_config 40 image_in_A
               (Some "thread_A") world_A)))).
  - reflexivity.
  - reflexivity.
  - vm_compute. reflexivity.
Defined.



(** C7: the store answers the lookup with a server error, so
    [findOrCreateChat] logs and returns [null]; the Telegram text handler
    reads [chat.id] all the same, throws a [TypeError] and stores nothing,
    whereas the Brevo adapter logs and returns. *)
Lemma telegram_text_throws_on_null_chat :
  let tg := handleTgTextMessage healthy example_config 40 tg_text
              (world_with_script [Some server_error]) in
  let brevo := processBrevoMessage healthy example_config 40 Ana Hola "whatsapp" true
                 (world_with_script [Some server_error]) in
  (findOrCreateChat 40 "42" "telegram" None (world_with_script [Some server_error])).1
  = Ret None
  ∧ tg.1 = Throw (TypeError "null is not an object (evaluating 'chat.id')")
  ∧ messages (pb tg.2) = []
  ∧ brevo.1 = Ret ()
  ∧ console brevo.2 = ["Error in find chat for whatsapp sourceId t1:";
                       "Failed to create/get chat for visitor: v1"].
Proof. vm_compute. repeat split; reflexivity. Qed.



(** C9: a message sent through [POST /api/messages] reaches Telegram
    and is answered with success, and no message record is created. *)
Lemma api_message_sent_but_not_saved :
  let r := api_messages healthy send_hi world_A in
  match r.1 with
  | Ret reply => code reply = 200 ∧ success reply = true
  | _ => False
  end
  ∧ messages (pb r.2) = messages (pb world_A).
Proof. vm_compute. repeat split; reflexivity. Qed.

(** A message sent through the aggregator comes back as an agent
    message and is then stored as an automated reply. *)
Example echo_stored_as_auto :
  List.map (λ m, (Message.content m, Message.isIncoming m, Message.responseMode m))
           (messages (pb (world (brevohook healthy example_config 40 echo fresh_server).2)))
  = [("hi", false, Auto)].
Proof. vm_compute. reflexivity. Qed.



(** ** Instances of the further properties *)

Lemma unrecognised_403_is_final_witness :
  getMessageById 5 "m1" "v1" (world_with_script [Some forbidden; None])
  = (Throw forbidden, after_request (world_with_script [Some forbidden; None]))
  ∧ findOrCreateChat 5 "42" "telegram" None (world_with_script [Some forbidden; None])
    = (Ret None,
       logged "Error in find chat for telegram sourceId 42:"
         (after_request (world_with_script [Some forbidden; None]))).
Proof.
  pose proof (unrecognised_403_is_final 5 (world_with_script [Some forbidden; None])
                forbidden [None] "m1" "v1" chat_A None 10 "chat_A" "42" "telegram"
                None eq_refl eq_refl eq_refl) as H.
  split; apply H.
Defined.

Lemma rejected_reauthentication_is_final_witness :
  saveChat 5 chat_A (world_with_script [Some expiry; Some server_error; None])
  = (Throw expiry, refused (world_with_script [Some expiry; Some server_error; None]))
  ∧ script (pb (refused (world_with_script [Some expiry; Some server_error; None])))
    = [None].
Proof.
  pose proof (rejected_reauthentication_is_final 5
                (world_with_script [Some expiry; Some server_error; None])
                expiry server_error [None] "m1" "v1" chat_A None 10 "chat_A" "42"
                "telegram" None eq_refl eq_refl eq_refl) as H.
  split; apply H.
Defined.

Lemma writes_rethrow_every_rejection_witness :
  (saveMessage text_in_A (world_with_script [Some expiry; None])).1 = Throw expiry
  ∧ (@getFileToken nat (world_with_script [Some expiry; None])).1 = Throw expiry.
Proof.
  pose proof (writes_rethrow_every_rejection (world_with_script [Some expiry; None])
                expiry [None] text_in_A "bytes" "p.jpg" "image/jpeg" "telegram"
                "chat_A" true eq_refl) as H.
  cbv zeta in H. split; apply H.
Defined.

Lemma saved_message_is_found_witness :
  getMessageById 3 "7" "5" world_A = (Ret None, after_request world_A)
  ∧ ∃ r w1 w2,
      saveMessage text_in_A world_A = (Ret r, w1)
      ∧ Message.id r = Some "rec0"
      ∧ messages (pb w1) = messages (pb world_A) ++ [r]
      ∧ getMessageById 3 "7" "5" w1 = (Ret (Message.id r), w2).
Proof.
  apply (saved_message_is_found 3 text_in_A "7" world_A);
    [exact I | exact I | reflexivity | reflexivity].
Defined.

Lemma saved_chat_is_found_witness :
  ∃ w1 w2,
    saveChat 3 (Chat.with_thread (Some "thread_B") chat_A) world_A
    = (Ret (Chat.with_thread (Some "thread_B") chat_A), w1)
    ∧ chats (pb w1)
      = replace_chat "chat_A" (Chat.with_thread (Some "thread_B") chat_A)
          (chats (pb world_A))
    ∧ getChatById 3 "chat_A" w1
      = (Ret (Some (Chat.with_thread (Some "thread_B") chat_A)), w2).
Proof.
  apply (saved_chat_is_found 3 (Chat.with_thread (Some "thread_B") chat_A) "chat_A"
           world_A); [exact I | exact I | reflexivity | discriminate].
Defined.

Lemma findOrCreateChat_ignores_source_witness :
  findOrCreateChat 3 "t1" "whatsapp" (Some "Ana") world_T
  = (Ret (Some chat_T), after_request world_T)
  ∧ chats (pb (after_request world_T)) = chats (pb world_T).
Proof.
  apply (findOrCreateChat_ignores_source 3 "t1" "whatsapp" (Some "Ana") world_T chat_T);
    [exact I | reflexivity].
Defined.

Lemma findOrCreateChat_new_chat_witness :
  ∃ c w',
    findOrCreateChat 3 "t1" "whatsapp" (Some "") world_A = (Ret (Some c), w')
    ∧ chats (pb w') = chats (pb world_A) ++ [c]
    ∧ Chat.id c = Some (fresh_id (pb world_A))
    ∧ Chat.platformChatId c = Some "t1"
    ∧ Chat.source c = "whatsapp"
    ∧ Chat.name c = or_else (Some "") "Unknown"
    ∧ Chat.updated c = clock world_A
    ∧ Chat.autoMode c = false
    ∧ Chat.openAIThreadId c = Some ""
    ∧ messages (pb w') = messages (pb world_A)
    ∧ requests (pb w') = S (S (requests (pb world_A))).
Proof.
  apply (findOrCreateChat_new_chat 3 "t1" "whatsapp" (Some "") world_A);
    [exact I | exact I | reflexivity].
Defined.

Lemma polling_loop_is_bounded_witness :
  (poll stalled 31 "thread_A" "run_1" (clock world_A) "in_progress" world_A).1 ≠ Diverge
  ∧ pb (poll stalled 31 "thread_A" "run_1" (clock world_A) "in_progress" world_A).2
    = pb world_A.
Proof.
  pose proof (polling_loop_is_bounded stalled 31 "thread_A" "run_1" "in_progress"
                world_A ltac:(lia)) as H.
  split; apply H.
Defined.

Lemma getAIResponse_always_replies_witness :
  ∃ s w', getAIResponse stalled example_config 31 image_in_A None world_A = (Ret s, w')
          ∧ fits 31 w'.
Proof.
  apply (getAIResponse_always_replies stalled example_config 31 image_in_A None world_A).
  - lia.
  - unfold fits. simpl. lia.
Defined.

Lemma media_reference_missing_witness :
  getAIResponse healthy example_config 3 image_without_file (Some "thread_A") world_A
  = (Ret "Изображение не найдено.", logged "Processing image message" world_A).
Proof.
  apply (media_reference_missing healthy example_config 3 image_without_file
           (Some "thread_A") world_A); [reflexivity | discriminate].
Defined.

Lemma assistant_not_configured_witness :
  (∃ s, (getAIResponse healthy no_assistant 3 image_in_A None world_A).1 = Ret s
        ∧ s ∈ fallbacks (Message.type image_in_A))
  ∧ (Message.type image_in_A = Text →
     getAIResponse healthy no_assistant 3 image_in_A None world_A
     = (Ret apology, logged "OpenAI Assistants API error:" world_A)).
Proof.
  apply (assistant_not_configured healthy no_assistant 3 image_in_A None world_A).
  - left. reflexivity.
  - unfold fits. simpl. lia.
Defined.

Lemma text_reply_is_first_listed_text_witness :
  (getAIResponse healthy example_config 3 text_in_A (Some "thread_A") world_A).1
  = Ret (default apology (first_text assistant_reply))
  ∧ pb (getAIResponse healthy example_config 3 text_in_A (Some "thread_A") world_A).2
    = pb world_A.
Proof.
  apply (text_reply_is_first_listed_text healthy example_config 3 text_in_A
           (Some "thread_A") "asst_1" assistant_reply world_A);
    [reflexivity | reflexivity | reflexivity | discriminate |].
  repeat split; intros; try reflexivity. eexists. reflexivity.
Defined.

Lemma silent_audio_is_not_passed_on_witness :
  (getAIResponse mute example_config 3 voice_in_A None world_V).1
  = Ret "Не удалось распознать текст в аудиосообщении."
  ∧ chats (pb (getAIResponse mute example_config 3 voice_in_A None world_V).2)
    = chats (pb world_V)
  ∧ messages (pb (getAIResponse mute example_config 3 voice_in_A None world_V).2)
    = messages (pb world_V).
Proof.
  apply (silent_audio_is_not_passed_on mute example_config 3 voice_in_A None "rec_1"
           {| media_id := "rec_1"; media_file := "v.ogg"; media_platform := "telegram" |}
           world_V);
    [left; reflexivity | reflexivity | discriminate | exact I | exact I | reflexivity |].
  repeat split; intros; eexists; repeat split; reflexivity.
Defined.

Lemma manual_chat_gets_no_reply_witness :
  env (processBrevoMessage healthy example_config 3 Ana Hola "whatsapp" true world_T).2
  = env world_T
  ∧ env (handleTgTextMessage healthy example_config 3 tg_text world_T).2 = env world_T.
Proof.
  apply (manual_chat_gets_no_reply healthy example_config 3 Ana Hola "whatsapp" true
           tg_text world_T).
  - reflexivity.
  - right. repeat constructor.
  - repeat constructor.
Defined.

Lemma dummy_echo_is_dropped_witness :
  let after := brevohook healthy example_config 3
                 (Body.mk (Some dummy_message) None "conversationFragment" (Some Ana))
                 fresh_server in
  after.1 = Ret "Webhook received successfully"
  ∧ processedMessages after.2
    = <[BrevoMessage.id dummy_message := clock (world fresh_server)]>
        (processedMessages fresh_server)
  ∧ pb (world after.2) = pb (world fresh_server)
  ∧ env (world after.2) = env (world fresh_server).
Proof.
  apply (dummy_echo_is_dropped healthy example_config 3 dummy_message
           "conversationFragment" Ana "Dummy_17" fresh_server);
    reflexivity.
Defined.

Lemma telegram_update_without_content_is_ignored_witness :
  handleTgTextMessage healthy example_config 3 tg_photo world_A = (Ret (), world_A)
  ∧ handleTgVoiceMessage healthy example_config 3 tg_photo world_A = (Ret (), world_A)
  ∧ handleTgPhotoMessage healthy example_config 3 tg_no_sizes world_A
    = (Ret (), logged "Error processing photo message:" world_A).
Proof.
  pose proof (telegram_update_without_content_is_ignored healthy example_config 3
                tg_photo world_A) as (Htext & _ & Hvoice & _).
  pose proof (telegram_update_without_content_is_ignored healthy example_config 3
                tg_no_sizes world_A) as (_ & _ & _ & Hsizes).
  split; [apply Htext; reflexivity|].
  split; [apply Hvoice; left; reflexivity|].
  eapply Hsizes; reflexivity.
Defined.

Lemma telegram_media_lost_without_download_witness :
  (handleTgPhotoMessage no_download example_config 3 tg_photo world_A).1 = Ret ()
  ∧ pb (handleTgPhotoMessage no_download example_config 3 tg_photo world_A).2
    = pb world_A
  ∧ (handleTgVoiceMessage no_download example_config 3 tg_photo world_A).1 = Ret ()
  ∧ pb (handleTgVoiceMessage no_download example_config 3 tg_photo world_A).2
    = pb world_A.
Proof.
  apply (telegram_media_lost_without_download no_download example_config 3 tg_photo
           world_A).
  intros url e. reflexivity.
Defined.

Lemma reply_lost_when_store_rejects_it_witness :
  ∃ w2, handleOpenAI healthy example_config 3 text_in_A "42" (Some "thread_A") world_R
        = (Ret (), w2)
        ∧ env w2
          = env (getAIResponse healthy example_config 3 text_in_A (Some "thread_A")
                   world_R).2
        ∧ messages (pb w2)
          = messages
              (pb (getAIResponse healthy example_config 3 text_in_A (Some "thread_A")
                     world_R).2)
        ∧ requests (pb w2)
          = S (requests
                 (pb (getAIResponse healthy example_config 3 text_in_A
                        (Some "thread_A") world_R).2)).
Proof.
  apply (reply_lost_when_store_rejects_it healthy example_config 3 text_in_A "42"
           (Some "thread_A") world_R
           (getAIResponse healthy example_config 3 text_in_A (Some "thread_A") world_R).2
           "Hi!" server_error []).
  - vm_compute. reflexivity.
  - vm_compute. reflexivity.
Defined.

Lemma webhook_is_acknowledged_witness :
  (∃ s, (brevohook stalled example_config 31 conversationFragment fresh_server).1 = Ret s
        ∧ s ∈ ["No message found in webhook"; "Duplicate message skipped";
               "Webhook received successfully"]
        ∧ (skipped (Ret s) = false → s = "Webhook received successfully"))
  ∧ brevohook stalled example_config 31 started_without_visitor fresh_server
    = (Throw no_visitor,
       mkServer (<[BrevoMessage.id Hola := clock (world fresh_server)]>
                   (processedMessages fresh_server))
                (logged "Received webhook:" (world fresh_server))).
Proof.
  assert (Hfits : fits 31 (world fresh_server)) by (unfold fits; simpl; lia).
  split.
  - destruct (webhook_is_acknowledged stalled example_config 31 conversationFragment
                fresh_server ltac:(lia) Hfits) as (_ & [H | [Hv _]] & _).
    + exact H.
    + discriminate Hv.
  - apply (webhook_is_acknowledged stalled example_config 31 started_without_visitor
             fresh_server ltac:(lia) Hfits); reflexivity.
Defined.

Lemma skipped_delivery_changes_nothing_witness :
  processedMessages (brevohook healthy example_config 3 empty_payload fresh_server).2
  = processedMessages fresh_server
  ∧ pb (world (brevohook healthy example_config 3 empty_payload fresh_server).2)
    = pb (world fresh_server).
Proof.
  pose proof (skipped_delivery_changes_nothing healthy example_config 3 empty_payload
                fresh_server eq_refl) as H.
  split; apply H.
Defined.

Lemma entry_expires_at_sweep_witness :
  skipped (brevohook healthy example_config 3 conversationStarted
             (at_time 3600200
                (step healthy example_config 3 (Sweep 3600100)
                   (step healthy example_config 3 (Deliver 100 conversationStarted)
                      fresh_server)))).1
  = bool_decide (3600100 - 100 ≤ max_age).
Proof.
  apply (entry_expires_at_sweep healthy example_config 3 fresh_server 100 3600100
           3600200 conversationStarted conversationStarted Hola Hola);
    reflexivity.
Defined.

Lemma entry_kept_between_sweeps_witness :
  let sv := step healthy example_config 3 (Deliver 100 conversationStarted) fresh_server in
  processedMessages (run healthy example_config 3 [Deliver 200 conversationFragment] sv)
    !! BrevoMessage.id Hola = Some 100
  ∧ (brevohook healthy example_config 3 conversationStarted
       (at_time 9000000
          (run healthy example_config 3 [Deliver 200 conversationFragment] sv))).1
    = Ret "Duplicate message skipped".
Proof.
  apply (entry_kept_between_sweeps healthy example_config 3
           (step healthy example_config 3 (Deliver 100 conversationStarted) fresh_server)
           [Deliver 200 conversationFragment] conversationStarted Hola 100 9000000).
  - repeat constructor.
  - vm_compute. reflexivity.
  - reflexivity.
Defined.

Lemma send_api_rejects_without_sending_witness :
  ∃ text,
    api_messages healthy send_sms world_A
    = (Ret (bad_request text), logged "Received message request:" world_A)
    ∧ (truthy (SendBody.platformChatId send_sms) = true →
       truthy (SendBody.source send_sms) = true →
       truthy (SendBody.text send_sms) = true →
       SendBody.visitorId send_sms ≠ Some "" →
       text = "Unsupported source: " +:+ default "" (SendBody.source send_sms)).
Proof.
  apply (send_api_rejects_without_sending healthy send_sms world_A).
  do 4 right. intros H. apply list_elem_of_In in H. simpl in H.
  intuition discriminate.
Defined.

Lemma send_failure_is_reported_for_telegram_only_witness :
  (api_messages cannot_send send_hi world_A).1
  = Ret {| code := 500; success := false; reply_message := "chat not found";
           external := None |}
  ∧ (api_messages cannot_send send_whatsapp world_A).1
    = Ret {| code := 200; success := true; reply_message := "Message sent via whatsapp";
             external := Some {| platform := "whatsapp"; messageId := Some None |} |}.
Proof.
  split.
  - apply (send_failure_is_reported_for_telegram_only cannot_send send_hi world_A
             "42" "hi" "telegram" (Error "chat not found"));
      try reflexivity; discriminate.
  - apply (send_failure_is_reported_for_telegram_only cannot_send send_whatsapp world_A
             "t1" "hi" "whatsapp" (Error "timeout"));
      try reflexivity; try discriminate.
    apply list_elem_of_In. simpl. auto.
Defined.


Lemma lookups_never_throw_witness :
  (∃ o, (getChatById 2 "chat_A" (world_with_script [Some server_error; None])).1 = Ret o)
  ∧ (∃ o, (getMediaRecord "img_1" (world_with_script [Some server_error; None])).1
          = Ret o)
  ∧ (∃ o, (findOrCreateChat 2 "42" "telegram" None
             (world_with_script [Some server_error; None])).1 = Ret o).
Proof.
  pose proof (lookups_never_throw 2 "chat_A" "img_1" "42" "telegram" None
                (world_with_script [Some server_error; None])) as H.
  assert (Hfits : fits 2 (world_with_script [Some server_error; None]))
    by (unfold fits; simpl; lia).
  specialize (H Hfits). split; [apply H|]. split; apply H.
Defined.

Lemma telegram_message_is_stored_normalized_witness :
  ∃ m, Context.message tg_text = Some m
       ∧ exchange (λ r, telegram_record tg_text m r
                        ∧ Message.type r = Text
                        ∧ Message.content r = default "" (TgMessage.text m)
                        ∧ Message.mediaFileId r = None)
           (handleTgTextMessage healthy example_config 3 tg_text).
Proof.
  eexists. split; [reflexivity|].
  apply (proj1 (telegram_message_is_stored_normalized healthy example_config 3 tg_text)).
  reflexivity.
Defined.

Lemma agent_and_visitor_sources_witness :
  appends (brevo_record example_config Ana Hola (Visitor.source Ana) true)
    (brevohook_process healthy example_config 3
       (Body.mk (Some Hola) None "conversationStarted" (Some Ana))).
Proof.
  apply (proj2 (agent_and_visitor_sources healthy example_config 3 Hola
                  "conversationStarted" Ana)).
  reflexivity.
Defined.

Lemma new_thread_is_recorded_witness :
  chats (pb (handleTextMessage healthy example_config 3 text_in_A (Some "") world_B).2)
  = replace_chat "chat_A" (Chat.with_thread (Some "thread_0") (Chat.with_thread (Some "") chat_A))
      (chats (pb world_B))
  ∧ find_chat_by_id "chat_A"
      (pb (handleTextMessage healthy example_config 3 text_in_A (Some "") world_B).2)
    = Some (Chat.with_thread (Some "thread_0") (Chat.with_thread (Some "") chat_A))
  ∧ messages (pb (handleTextMessage healthy example_config 3 text_in_A (Some "")
                    world_B).2)
    = messages (pb world_B).
Proof.
  apply (new_thread_is_recorded healthy example_config 3 text_in_A (Some "") "asst_1"
           "thread_0" (Chat.with_thread (Some "") chat_A) world_B);
    try reflexivity; try discriminate; exact I.
Defined.
